(** * Tone.js [Param]: the automation timeline of one audio parameter

    A shallow embedding of [Tone/core/context/Param.ts].

    JavaScript numbers are modelled as the extended real line with a
    not-a-number element: arithmetic is exact (no rounding, no overflow, a
    single zero), so an equation proved here is the mathematical identity
    that the double precision computation approximates.  The infinities and
    NaN are kept because the argument checks of the scheduling calls are
    about them. *)

From Stdlib Require Import Reals Lra List Bool ZArith Arith Lia Sorted.
From Stdlib Require String.
Import String.StringSyntax.
Import ListNotations.
Local Open Scope R_scope.

(** ** JavaScript numbers *)

Module JSNumber.

Inductive num : Type :=
| Fin (r : R)
| PInf
| NInf
| NaN.

Definition Rlt_b (a b : R) : bool := if Rlt_dec a b then true else false.
Definition Rle_b (a b : R) : bool := if Rle_dec a b then true else false.
Definition Req_b (a b : R) : bool := if Req_dec_T a b then true else false.

(** [isFinite(x)] *)
Definition isFinite (x : num) : bool :=
  match x with Fin _ => true | _ => false end.

(** [a < b] *)
Definition ltb (a b : num) : bool :=
  match a, b with
  | Fin x, Fin y => Rlt_b x y
  | Fin _, PInf => true
  | NInf, Fin _ => true
  | NInf, PInf => true
  | _, _ => false
  end.

(** [a <= b] *)
Definition leb (a b : num) : bool :=
  match a, b with
  | Fin x, Fin y => Rle_b x y
  | Fin _, PInf => true
  | NInf, Fin _ => true
  | NInf, PInf => true
  | PInf, PInf => true
  | NInf, NInf => true
  | _, _ => false
  end.

(** [a === b] on numbers: NaN is different from itself. *)
Definition eqb (a b : num) : bool :=
  match a, b with
  | Fin x, Fin y => Req_b x y
  | PInf, PInf => true
  | NInf, NInf => true
  | _, _ => false
  end.

(** [-a] *)
Definition neg (a : num) : num :=
  match a with
  | Fin x => Fin (- x)
  | PInf => NInf
  | NInf => PInf
  | NaN => NaN
  end.

(** [a + b] *)
Definition add (a b : num) : num :=
  match a, b with
  | NaN, _ | _, NaN => NaN
  | Fin x, Fin y => Fin (x + y)
  | PInf, NInf | NInf, PInf => NaN
  | PInf, _ | _, PInf => PInf
  | NInf, _ | _, NInf => NInf
  end.

(** [a - b] *)
Definition sub (a b : num) : num := add a (neg b).

(** The infinity carrying the sign of the product of an infinity of sign
    [pos] with the finite factor [x]; zero times infinity is NaN. *)
Definition inf_times (pos : bool) (x : R) : num :=
  if Req_b x 0 then NaN
  else if Bool.eqb pos (Rlt_b 0 x) then PInf else NInf.

(** [a * b] *)
Definition mul (a b : num) : num :=
  match a, b with
  | NaN, _ | _, NaN => NaN
  | Fin x, Fin y => Fin (x * y)
  | PInf, Fin y => inf_times true y
  | NInf, Fin y => inf_times false y
  | Fin x, PInf => inf_times true x
  | Fin x, NInf => inf_times false x
  | PInf, PInf | NInf, NInf => PInf
  | PInf, NInf | NInf, PInf => NInf
  end.

(** [a / b]; a zero divisor counts as positive zero. *)
Definition div (a b : num) : num :=
  match a, b with
  | NaN, _ | _, NaN => NaN
  | Fin x, Fin y =>
      if Req_b y 0 then
        if Req_b x 0 then NaN else if Rlt_b 0 x then PInf else NInf
      else Fin (x / y)
  | Fin _, PInf | Fin _, NInf => Fin 0
  | PInf, Fin y => if Rle_b 0 y then PInf else NInf
  | NInf, Fin y => if Rle_b 0 y then NInf else PInf
  | _, _ => NaN
  end.

(** [Math.max(a, b)] *)
Definition Math_max (a b : num) : num :=
  match a, b with
  | NaN, _ | _, NaN => NaN
  | _, _ => if ltb a b then b else a
  end.

(** [Math.min(a, b)] *)
Definition Math_min (a b : num) : num :=
  match a, b with
  | NaN, _ | _, NaN => NaN
  | _, _ => if ltb b a then b else a
  end.

(** [Math.exp(a)] *)
Definition Math_exp (a : num) : num :=
  match a with
  | Fin x => Fin (exp x)
  | PInf => PInf
  | NInf => Fin 0
  | NaN => NaN
  end.

(** [Math.log(a)] *)
Definition Math_log (a : num) : num :=
  match a with
  | Fin x => if Rlt_b 0 x then Fin (ln x) else if Req_b x 0 then NInf else NaN
  | PInf => PInf
  | NInf => NaN
  | NaN => NaN
  end.

(** Whether the real [y] is an integer, and whether it is an odd one. *)
Definition is_int (y : R) : bool := Req_b y (IZR (Int_part y)).
Definition is_odd_int (y : R) : bool := is_int y && Z.odd (Int_part y).

(** [Math.pow(a, b)], following the case list of the language definition
    (Number::exponentiate), with one zero. *)
Definition Math_pow (a b : num) : num :=
  match b with
  | NaN => NaN
  | Fin y =>
      if Req_b y 0 then Fin 1
      else
        match a with
        | NaN => NaN
        | PInf => if Rlt_b 0 y then PInf else Fin 0
        | NInf =>
            if Rlt_b 0 y then (if is_odd_int y then NInf else PInf) else Fin 0
        | Fin x =>
            if Rlt_b 0 x then Fin (Rpower x y)
            else if Req_b x 0 then (if Rlt_b 0 y then Fin 0 else PInf)
            else if is_int y then
              (if is_odd_int y then Fin (- Rpower (- x) y)
               else Fin (Rpower (- x) y))
            else NaN
        end
  | PInf =>
      match a with
      | NaN => NaN
      | PInf | NInf => PInf
      | Fin x =>
          if Rlt_b 1 (Rabs x) then PInf
          else if Req_b (Rabs x) 1 then NaN else Fin 0
      end
  | NInf =>
      match a with
      | NaN => NaN
      | PInf | NInf => Fin 0
      | Fin x =>
          if Rlt_b 1 (Rabs x) then Fin 0
          else if Req_b (Rabs x) 1 then NaN else PInf
      end
  end.

End JSNumber.
Import JSNumber.

Declare Scope num_scope.
Delimit Scope num_scope with num.
Bind Scope num_scope with num.
Infix "+" := add : num_scope.
Infix "-" := sub : num_scope.
Infix "*" := mul : num_scope.
Infix "/" := div : num_scope.
Notation "- x" := (neg x) : num_scope.
Infix "<?" := ltb (at level 70) : num_scope.
Infix "<=?" := leb (at level 70) : num_scope.
Infix "===" := eqb (at level 70) : num_scope.

Arguments ltb !a !b.
Arguments leb !a !b.
Arguments eqb !a !b.
Arguments add !a !b.
Arguments mul !a !b.
Arguments div !a !b.
Arguments neg !a.
Arguments Math_max !a !b.
Arguments Math_min !a !b.

(** Decides the comparisons of reals in the goal by linear arithmetic. *)
Ltac rcompare :=
  unfold Rlt_b, Rle_b, Req_b;
  repeat match goal with
    | |- context [Rlt_dec ?a ?b] =>
        destruct (Rlt_dec a b); try (exfalso; lra)
    | |- context [Rle_dec ?a ?b] =>
        destruct (Rle_dec a b); try (exfalso; lra)
    | |- context [Req_dec_T ?a ?b] =>
        destruct (Req_dec_T a b); try (exfalso; lra)
    end.

(** ** Automation events *)

(** [AutomationType]: the string tags of the events.  The tag
    ["setTargetAtTime"] belongs to [TargetAutomationEvent] alone
    ([Exclude<AutomationType, "setTargetAtTime">] for the others), so it is
    the constructor of the event that carries it. *)
Module AutomationType.
Inductive t : Type :=
| linearRampToValueAtTime
| exponentialRampToValueAtTime
| setValueAtTime
| cancelScheduledValues.
End AutomationType.

Inductive AutomationEvent : Type :=
| TargetAutomationEvent (time value constant : num)
| NormalAutomationEvent (type : AutomationType.t) (time value : num).

Definition time (e : AutomationEvent) : num :=
  match e with
  | TargetAutomationEvent t _ _ => t
  | NormalAutomationEvent _ t _ => t
  end.

Definition value (e : AutomationEvent) : num :=
  match e with
  | TargetAutomationEvent _ v _ => v
  | NormalAutomationEvent _ _ v => v
  end.

(** [e.type === "setTargetAtTime"] *)
Definition is_setTargetAtTime (e : AutomationEvent) : bool :=
  match e with TargetAutomationEvent _ _ _ => true | _ => false end.

(** [e.type === "setValueAtTime"] *)
Definition is_setValueAtTime (e : AutomationEvent) : bool :=
  match e with
  | NormalAutomationEvent AutomationType.setValueAtTime _ _ => true
  | _ => false
  end.

(** [e.type === "linearRampToValueAtTime"] *)
Definition is_linearRampToValueAtTime (e : AutomationEvent) : bool :=
  match e with
  | NormalAutomationEvent AutomationType.linearRampToValueAtTime _ _ => true
  | _ => false
  end.

(** [e.type === "exponentialRampToValueAtTime"] *)
Definition is_exponentialRampToValueAtTime (e : AutomationEvent) : bool :=
  match e with
  | NormalAutomationEvent AutomationType.exponentialRampToValueAtTime _ _ => true
  | _ => false
  end.

(** ** The timeline store

    [Tone/core/util/Timeline.ts] is not among the sources at hand; the store
    is modelled from section 4.1 of the specification. *)

Module Timeline.

Record t : Type := mk { memory : nat; _timeline : list AutomationEvent }.

(** The last element of a list, if any. *)
Definition last_opt {A : Type} (l : list A) : option A :=
  match rev l with [] => None | x :: _ => Some x end.

(** Insertion in time order, behind the events that are not later. *)
Fixpoint insert (e : AutomationEvent) (l : list AutomationEvent)
  : list AutomationEvent :=
  match l with
  | [] => [e]
  | x :: l' => if (time e <? time x)%num then e :: x :: l' else x :: insert e l'
  end.

(** Modelled from the spec: [Timeline.add] is missing from the sources.
    "inserts preserving time order ... must not reorder prior events; if at
    insertion capacity, discard the single oldest event first"; among events
    of one time the newer one comes later ("last-write-at-time wins"). *)
Definition add (e : AutomationEvent) (s : t) : t :=
  let kept :=
    if (memory s <=? length (_timeline s))%nat then tl (_timeline s)
    else _timeline s in
  mk (memory s) (insert e kept).

(** Modelled from the spec: [Timeline.get] is missing from the sources.
    "returns the event with the greatest time <= given time, or none". *)
Definition get (at_ : num) (s : t) : option AutomationEvent :=
  last_opt (filter (fun e => (time e <=? at_)%num) (_timeline s)).

(** Modelled from the spec: [Timeline.getBefore] is missing from the
    sources.  "returns the event with the greatest time < given time
    (strictly earlier), or none". *)
Definition getBefore (at_ : num) (s : t) : option AutomationEvent :=
  last_opt (filter (fun e => (time e <? at_)%num) (_timeline s)).

(** Modelled from the spec: [Timeline.getAfter] is missing from the
    sources.  "returns the event with the smallest time > given time
    (strictly later), or none". *)
Definition getAfter (at_ : num) (s : t) : option AutomationEvent :=
  hd_error (filter (fun e => (at_ <? time e)%num) (_timeline s)).

(** Modelled from the spec: [Timeline.cancel] is missing from the sources.
    "removes every event with time >= given time". *)
Definition cancel (after : num) (s : t) : t :=
  mk (memory s) (filter (fun e => negb (after <=? time e)%num) (_timeline s)).

End Timeline.

(** ** The parameter *)

(** [UnitName]: the unit names that [Param.ts] tells apart, and the rest. *)
Module UnitName.
Inductive t : Type :=
| number | decibels | normalRange | audioRange | positive
| time | frequency | transportTime | ticks | bpm | hertz | samples
| other (name : String.string).
End UnitName.

(** The commands forwarded to the native [AudioParam], in call order. *)
Inductive SinkCall : Type :=
| sink_setValueAtTime (value time : num)
| sink_linearRampToValueAtTime (value time : num)
| sink_exponentialRampToValueAtTime (value time : num)
| sink_setTargetAtTime (value time constant : num)
| sink_cancelScheduledValues (time : num).

(** The native parameter: its default value and the commands it received. *)
Record AudioParam : Type := mkAudioParam {
  defaultValue : num;
  calls : list SinkCall
}.

Record Param : Type := mkParam {
  units : UnitName.t;
  convert : bool;
  overridden : bool;
  _events : Timeline.t;
  _param : AudioParam;
  _initialValue : num;
  (* of the context *)
  now : num;
  sampleTime : num
}.

(** [private _minOutput = 1e-7] *)
Definition _minOutput : num := Fin 1e-7.

Definition set_events (p : Param) (ev : Timeline.t) : Param :=
  mkParam (units p) (convert p) (overridden p) ev (_param p)
          (_initialValue p) (now p) (sampleTime p).

Definition set_param (p : Param) (a : AudioParam) : Param :=
  mkParam (units p) (convert p) (overridden p) (_events p) a
          (_initialValue p) (now p) (sampleTime p).

(** *** State and exceptions

    A method runs on the parameter and either returns, or throws; a throw
    keeps the state reached so far. *)

Inductive Outcome (A : Type) : Type :=
| Ret (a : A) (p : Param)
| Throw (msg : String.string) (p : Param).
Arguments Ret {A} a p.
Arguments Throw {A} msg p.

Definition M (A : Type) : Type := Param -> Outcome A.

Definition ret {A : Type} (a : A) : M A := fun p => Ret a p.

Definition bind {A B : Type} (m : M A) (k : A -> M B) : M B :=
  fun p => match m p with
           | Ret a p' => k a p'
           | Throw msg p' => Throw msg p'
           end.

Notation "x <- m ;; k" := (bind m (fun x => k))
  (at level 61, m at next level, right associativity).
Notation "m ;; k" := (bind m (fun _ => k))
  (at level 61, right associativity).

Definition gets {A : Type} (f : Param -> A) : M A := fun p => Ret (f p) p.

(** [this.assert(statement, error)]: throws when the statement is false. *)
Definition assert (statement : bool) (error : String.string) : M unit :=
  fun p => if statement then Ret tt p else Throw error p.

(** [this._events.add(e)] *)
Definition events_add (e : AutomationEvent) : M unit :=
  fun p => Ret tt (set_events p (Timeline.add e (_events p))).

(** [this._events.cancel(t)] *)
Definition events_cancel (t : num) : M unit :=
  fun p => Ret tt (set_events p (Timeline.cancel t (_events p))).

(** [this._param.<command>(...)] *)
Definition sink (c : SinkCall) : M unit :=
  fun p => Ret tt (set_param p (mkAudioParam (defaultValue (_param p))
                                             (calls (_param p) ++ [c]))).

(** The state a call leaves behind, and whether it returned. *)
Definition state_of {A : Type} (o : Outcome A) : Param :=
  match o with Ret _ p => p | Throw _ p => p end.

Definition returned {A : Type} (o : Outcome A) : bool :=
  match o with Ret _ _ => true | Throw _ _ => false end.

(** Times are numbers of seconds: [toSeconds] of a number is that number,
    and of a missing argument the current time. *)
Definition Time : Type := num.
Definition toSeconds (t : Time) : num := t.
Definition toSeconds_opt (p : Param) (t : option Time) : num :=
  match t with Some t => toSeconds t | None => now p end.

(** Frequencies are numbers of hertz. *)
Definition toFrequency (f : num) : num := f.

(** Modelled from the spec: [dbToGain] and [gainToDb] of
    [Tone/core/type/Conversions.ts] are missing from the sources; the
    "decibel to linear gain" pair of section 6, a gain of [10^(db/20)].  The
    methods below take the pair as a parameter; this one serves the
    scenarios. *)
Module Conversions.
Definition dbToGain (db : num) : num := Math_pow (Fin 10) (db / Fin 20)%num.
Definition gainToDb (gain : num) : num :=
  (Fin 20 * (Math_log gain / Math_log (Fin 10)))%num.
End Conversions.

Section Methods.

(** [dbToGain] and [gainToDb] of [Tone/core/type/Conversions.ts], which is
    not among the sources at hand. *)
Variables dbToGain gainToDb : num -> num.

(** [_fromType]: from the units of the parameter to the raw value. *)
Definition _fromType (p : Param) (val : num) : num :=
  if convert p && negb (overridden p) then
    match units p with
    | UnitName.time => toSeconds val
    | UnitName.decibels => dbToGain val
    | UnitName.frequency => toFrequency val
    | UnitName.normalRange => Math_min (Math_max val (Fin 0)) (Fin 1)
    | UnitName.audioRange => Math_min (Math_max val (Fin (-1))) (Fin 1)
    | UnitName.positive => Math_max val (Fin 0)
    | UnitName.number => val
    | _ => val
    end
  else val.

(** [_toType]: from the raw value to the units of the parameter. *)
Definition _toType (p : Param) (val : num) : num :=
  match convert p, units p with
  | true, UnitName.decibels => gainToDb val
  | _, _ => val
  end.

(** *** Curve calculations *)

Definition _exponentialApproach (t0 v0 v1 timeConstant t : num) : num :=
  (v1 + (v0 - v1) * Math_exp (- (t - t0) / timeConstant))%num.

Definition _linearInterpolate (t0 v0 t1 v1 t : num) : num :=
  (v0 + (v1 - v0) * ((t - t0) / (t1 - t0)))%num.

Definition _exponentialInterpolate (t0 v0 t1 v1 t : num) : num :=
  (v0 * Math_pow (v1 / v0) ((t - t0) / (t1 - t0)))%num.

(** *** Reading the value *)

(** [previous === null ? this._initialValue : previous.value] for
    [previous = this._events.getBefore(before.time)]. *)
Definition previous_value (p : Param) (before : AutomationEvent) : num :=
  match Timeline.getBefore (time before) (_events p) with
  | None => _initialValue p
  | Some previous => value previous
  end.

Definition getValueAtTime (p : Param) (time_ : Time) : num :=
  let computedTime := Math_max (toSeconds time_) (Fin 0) in
  let after := Timeline.getAfter computedTime (_events p) in
  let before := Timeline.get computedTime (_events p) in
  let value_ :=
    match before with
    | None => _initialValue p
    | Some before =>
        if is_setTargetAtTime before
           && match after with
              | None => true
              | Some after => is_setValueAtTime after
              end
        then
          let previousVal := previous_value p before in
          match before with
          | TargetAutomationEvent t v c =>
              _exponentialApproach t previousVal v c computedTime
          | _ => _initialValue p
          end
        else
          match after with
          | None => value before
          | Some after =>
              if is_linearRampToValueAtTime after
                 || is_exponentialRampToValueAtTime after
              then
                let beforeValue :=
                  if is_setTargetAtTime before then previous_value p before
                  else value before in
                if is_linearRampToValueAtTime after then
                  _linearInterpolate (time before) beforeValue
                                     (time after) (value after) computedTime
                else
                  _exponentialInterpolate (time before) beforeValue
                                          (time after) (value after) computedTime
              else value before
          end
    end in
  _toType p value_.

(** *** Scheduling *)

Local Open Scope string_scope.

Definition setValueAtTime (value_ : num) (time_ : Time) : M unit :=
  let computedTime := toSeconds time_ in
  numericValue <- gets (fun p => _fromType p value_) ;;
  assert (isFinite numericValue && isFinite computedTime)
         "Invalid argument(s) to setValueAtTime" ;;
  events_add (NormalAutomationEvent AutomationType.setValueAtTime
                                    computedTime numericValue) ;;
  sink (sink_setValueAtTime numericValue computedTime).

Definition linearRampToValueAtTime (value_ : num) (endTime : Time) : M unit :=
  numericValue <- gets (fun p => _fromType p value_) ;;
  let computedTime := toSeconds endTime in
  assert (isFinite numericValue && isFinite computedTime)
         "Invalid argument(s) to linearRampToValueAtTime" ;;
  events_add (NormalAutomationEvent AutomationType.linearRampToValueAtTime
                                    computedTime numericValue) ;;
  sink (sink_linearRampToValueAtTime numericValue computedTime).

Definition exponentialRampToValueAtTime (value_ : num) (endTime : Time)
  : M unit :=
  numericValue <- gets (fun p => _fromType p value_) ;;
  let numericValue := Math_max _minOutput numericValue in
  let computedTime := toSeconds endTime in
  assert (isFinite numericValue && isFinite computedTime)
         "Invalid argument(s) to exponentialRampToValueAtTime" ;;
  events_add (NormalAutomationEvent AutomationType.exponentialRampToValueAtTime
                                    computedTime numericValue) ;;
  sink (sink_exponentialRampToValueAtTime numericValue computedTime).

Definition setTargetAtTime (value_ : num) (startTime : Time)
           (timeConstant : num) : M unit :=
  numericValue <- gets (fun p => _fromType p value_) ;;
  assert (isFinite timeConstant && (Fin 0 <? timeConstant)%num)
         "timeConstant must be a number greater than 0" ;;
  let computedTime := toSeconds startTime in
  assert (isFinite numericValue && isFinite computedTime)
         "Invalid argument(s) to setTargetAtTime" ;;
  events_add (TargetAutomationEvent computedTime numericValue timeConstant) ;;
  sink (sink_setTargetAtTime numericValue computedTime timeConstant).

Definition cancelScheduledValues (time_ : Time) : M unit :=
  let computedTime := toSeconds time_ in
  assert (isFinite computedTime) "Invalid argument to cancelScheduledValues" ;;
  events_cancel computedTime ;;
  sink (sink_cancelScheduledValues computedTime).

Definition cancelAndHoldAtTime (time_ : Time) : M unit :=
  let computedTime := toSeconds time_ in
  valueAtTime <- gets (fun p => _fromType p (getValueAtTime p computedTime)) ;;
  assert (isFinite computedTime) "Invalid argument to cancelAndHoldAtTime" ;;
  sink (sink_cancelScheduledValues computedTime) ;;
  before <- gets (fun p => Timeline.get computedTime (_events p)) ;;
  after <- gets (fun p => Timeline.getAfter computedTime (_events p)) ;;
  (if match before with
      | Some before => (time before === computedTime)%num
      | None => false
      end
   then
     match after with
     | Some after => events_cancel (time after)
     | None =>
         st <- gets sampleTime ;;
         events_cancel (computedTime + st)%num
     end
   else
     match after with
     | Some after =>
         events_cancel (time after) ;;
         if is_linearRampToValueAtTime after then
           v <- gets (fun p => _toType p valueAtTime) ;;
           linearRampToValueAtTime v computedTime
         else if is_exponentialRampToValueAtTime after then
           v <- gets (fun p => _toType p valueAtTime) ;;
           exponentialRampToValueAtTime v computedTime
         else ret tt
     | None => ret tt
     end) ;;
  events_add (NormalAutomationEvent AutomationType.setValueAtTime
                                    computedTime valueAtTime) ;;
  sink (sink_setValueAtTime valueAtTime computedTime).

Definition setRampPoint (time_ : Time) : M unit :=
  let time_ := toSeconds time_ in
  currentVal <- gets (fun p => getValueAtTime p time_) ;;
  cancelAndHoldAtTime time_ ;;
  currentVal <- gets (fun p =>
    if (_fromType p currentVal === Fin 0)%num then _toType p _minOutput
    else currentVal) ;;
  setValueAtTime currentVal time_.

Definition exponentialRampTo (value_ : num) (rampTime : Time)
           (startTime : option Time) : M unit :=
  startTime <- gets (fun p => toSeconds_opt p startTime) ;;
  setRampPoint startTime ;;
  exponentialRampToValueAtTime value_ (startTime + toSeconds rampTime)%num.

Definition linearRampTo (value_ : num) (rampTime : Time)
           (startTime : option Time) : M unit :=
  startTime <- gets (fun p => toSeconds_opt p startTime) ;;
  setRampPoint startTime ;;
  linearRampToValueAtTime value_ (startTime + toSeconds rampTime)%num.

Definition exponentialApproachValueAtTime (value_ : num) (time_ rampTime : Time)
  : M unit :=
  let time_ := toSeconds time_ in
  let rampTime := toSeconds rampTime in
  let timeConstant := (Math_log (rampTime + Fin 1) / Math_log (Fin 200))%num in
  setTargetAtTime value_ time_ timeConstant ;;
  cancelAndHoldAtTime (time_ + rampTime * Fin 0.9)%num ;;
  linearRampToValueAtTime value_ (time_ + rampTime)%num.

Definition targetRampTo (value_ : num) (rampTime : Time)
           (startTime : option Time) : M unit :=
  startTime <- gets (fun p => toSeconds_opt p startTime) ;;
  setRampPoint startTime ;;
  exponentialApproachValueAtTime value_ startTime rampTime.

(** The loop of [setValueCurveAtTime], from index [i] on; [values] are the
    elements from that index. *)
Fixpoint setValueCurve_loop (values : list num) (i : nat)
         (startTime segTime scaling : num) : M unit :=
  match values with
  | [] => ret tt
  | v :: rest =>
      numericValue <- gets (fun p => (_fromType p v * scaling)%num) ;;
      x <- gets (fun p => _toType p numericValue) ;;
      linearRampToValueAtTime x (startTime + Fin (INR i) * segTime)%num ;;
      setValueCurve_loop rest (S i) startTime segTime scaling
  end.

(** [values[0]] of an empty array is [undefined], a NaN in arithmetic. *)
Definition setValueCurveAtTime (values : list num) (startTime duration : Time)
           (scaling : num) : M unit :=
  let duration := toSeconds duration in
  let startTime := toSeconds startTime in
  startingValue <- gets (fun p => (_fromType p (nth 0 values NaN) * scaling)%num) ;;
  x <- gets (fun p => _toType p startingValue) ;;
  setValueAtTime x startTime ;;
  let segTime := (duration / (Fin (INR (length values)) - Fin 1))%num in
  setValueCurve_loop (tl values) 1 startTime segTime scaling.

Definition rampTo (value_ : num) (rampTime : Time) (startTime : option Time)
  : M unit :=
  u <- gets units ;;
  match u with
  | UnitName.frequency | UnitName.bpm | UnitName.decibels =>
      exponentialRampTo value_ rampTime startTime
  | _ => linearRampTo value_ rampTime startTime
  end.


(** [new Param(param, units, convert)]: the state before anything is
    scheduled, in a context of the given clock. *)
Definition initial (now_ sampleTime_ : num) (param : AudioParam)
           (units_ : UnitName.t) (convert_ : bool) : Param :=
  mkParam units_ convert_ false (Timeline.mk 1000 []) param
          (defaultValue param) now_ sampleTime_.

(** The constructor with [options.value]. *)
Definition constructor (now_ sampleTime_ : num) (param : AudioParam)
           (units_ : UnitName.t) (convert_ : bool) (value_ : option num)
  : Outcome unit :=
  let this := initial now_ sampleTime_ param units_ convert_ in
  match value_ with
  | Some v =>
      if negb (v === _toType this (_initialValue this))%num
      then setValueAtTime v (Fin 0) this
      else Ret tt this
  | None => Ret tt this
  end.

(** *** Vocabulary of the statements *)

(** The parameter does no unit conversion. *)
Definition unconverted (p : Param) : Prop :=
  convert p = false \/ units p = UnitName.number.

(** The state after an event went to the store and its command to the
    native parameter. *)
Definition record (e : AutomationEvent) (c : SinkCall) (p : Param) : Param :=
  let p1 := set_events p (Timeline.add e (_events p)) in
  set_param p1 (mkAudioParam (defaultValue (_param p1)) (calls (_param p1) ++ [c])).

(** What no scheduling call changes. *)
Definition same_setup (p q : Param) : Prop :=
  units q = units p /\ convert q = convert p /\ overridden q = overridden p
  /\ _initialValue q = _initialValue p /\ now q = now p
  /\ sampleTime q = sampleTime p
  /\ Timeline.memory (_events q) = Timeline.memory (_events p).

(** Events in time order, at finite times. *)
Definition time_le (a b : AutomationEvent) : Prop :=
  (time a <=? time b)%num = true.

Definition finite_times (l : list AutomationEvent) : Prop :=
  Forall (fun e => isFinite (time e) = true) l.

Definition ordered (s : Timeline.t) : Prop :=
  finite_times (Timeline._timeline s)
  /\ StronglySorted time_le (Timeline._timeline s).

(** Every event of the list is at or before [t]. *)
Definition all_upto (t : num) (l : list AutomationEvent) : Prop :=
  Forall (fun e => (time e <=? t)%num = true) l.

(** The store ends with the event [e], the events before it being at or
    before [t]. *)
Definition ends_with (t : num) (e : AutomationEvent) (s : Timeline.t) : Prop :=
  exists l, Timeline._timeline s = l ++ [e] /\ all_upto t l.

(** What [add] keeps of the old events. *)
Definition kept (s : Timeline.t) : list AutomationEvent :=
  if (Timeline.memory s <=? length (Timeline._timeline s))%nat
  then tl (Timeline._timeline s) else Timeline._timeline s.

(** The value that [cancelAndHoldAtTime(t)] holds. *)
Definition held_value (p : Param) (t : num) : num :=
  _fromType p (getValueAtTime p t).

(** Whether [cancelAndHoldAtTime(t)] replays the ramp that follows [t]: no
    event sits at [t] and the next event is a ramp. *)
Definition reanchors (p : Param) (t : num) : bool :=
  negb match Timeline.get t (_events p) with
       | Some before => (time before === t)%num
       | None => false
       end
  && match Timeline.getAfter t (_events p) with
     | Some after =>
         is_linearRampToValueAtTime after || is_exponentialRampToValueAtTime after
     | None => false
     end.

(** The state after the removals of [cancelAndHoldAtTime(t)], and after the
    replay of the ramp if there is one: every event left is at or before
    [t]. *)
Definition trimmed (p q : Param) (t : num) : Prop :=
  same_setup p q /\ ordered (_events q)
  /\ all_upto t (Timeline._timeline (_events q)).

(** The claim C10 as the specification words it: before the earliest event
    the value read is the initial value. *)
Definition initial_value_before_earliest (p : Param) (q : num) : Prop :=
  Forall (fun e => (q <? time e)%num = true) (Timeline._timeline (_events p)) ->
  getValueAtTime p q = _toType p (_initialValue p).

(** No exponential ramp of the store is below the minimum output. *)
Definition floor_kept (s : Timeline.t) : Prop :=
  Forall (fun e => is_exponentialRampToValueAtTime e = true ->
                   exists x, value e = Fin x /\ 1e-7 <= x)
         (Timeline._timeline s).

(** A call keeps the invariant [I] of the store whatever its outcome. *)
Definition preserves {A : Type} (I : Timeline.t -> Prop) (m : M A) : Prop :=
  forall p, I (_events p) -> I (_events (state_of (m p))).

(** The claim C7 for one call with a value and a time: with a converted
    value or a time that is not finite the call throws, store and native
    parameter untouched. *)
Definition fails_on_non_finite (call : num -> Time -> M unit) : Prop :=
  forall (p : Param) (v t : num),
    isFinite (_fromType p v) && isFinite t = false ->
    exists msg, call v t p = Throw msg p.

(** The store cut after [t]: its events at or before [t]. *)
Definition upto (t : num) (s : Timeline.t) : Timeline.t :=
  Timeline.mk (Timeline.memory s)
              (filter (fun e => (time e <=? t)%num) (Timeline._timeline s)).

(** The claim C3 as the specification words it: the call leaves the value
    at [t] as it was, up to the round trip through the units, and no event
    after [t]. *)
Definition hold_keeps_value (p : Param) (t : num) : Prop :=
  let p' := state_of (cancelAndHoldAtTime t p) in
  getValueAtTime p' t = _toType p (_fromType p (getValueAtTime p t))
  /\ Forall (fun e => (t <? time e)%num = false)
            (Timeline._timeline (_events p')).

(** The claim C4 as the specification words it: after the call, the only
    event at or after [t] is the new [setValueAtTime]. *)
Definition only_hold_remains (p p' : Param) (t : num) : Prop :=
  forall e, In e (Timeline._timeline (_events p')) ->
            (t <=? time e)%num = true ->
            e = NormalAutomationEvent AutomationType.setValueAtTime t
                                      (held_value p t).

(** The value that [setRampPoint(t)] schedules at [t], in the units of the
    parameter: the current value, or the minimum output for a raw zero. *)
Definition ramp_point_value (p : Param) (t : num) : num :=
  let currentVal := getValueAtTime p t in
  if (_fromType p currentVal === Fin 0)%num then _toType p _minOutput
  else currentVal.

(** The claim C5 as the specification words it, for the linear ramp: a held
    value of zero is scheduled as zero. *)
Definition linear_ramp_starts_from_zero (p : Param) (v ramp t : num) : Prop :=
  getValueAtTime p t = Fin 0 ->
  forall p', linearRampTo v ramp (Some t) p = Ret tt p' ->
             getValueAtTime p' t = Fin 0.

(** The raw value that [setValueCurveAtTime] stores for the sample [v]: the
    sample is converted, scaled, taken back to the units of the parameter
    and converted again by the scheduling call. *)
Definition curve_raw (p : Param) (scaling v : num) : num :=
  _fromType p (_toType p (_fromType p v * scaling)%num).

(** The events of a value curve in the words of the specification: one
    [setValueAtTime] at the start for the first sample, then one linear ramp
    per further sample, the [i]-th at [startTime + i * segTime]. *)
Fixpoint curve_ramps (raw : num -> num) (samples : list num) (i : nat)
         (startTime segTime : R) : list AutomationEvent :=
  match samples with
  | [] => []
  | v :: rest =>
      NormalAutomationEvent AutomationType.linearRampToValueAtTime
                            (Fin (startTime + INR i * segTime)) (raw v)
      :: curve_ramps raw rest (S i) startTime segTime
  end.

Definition curve_events (raw : num -> num) (values : list num)
           (startTime duration : R) : list AutomationEvent :=
  match values with
  | [] => []
  | v0 :: rest =>
      NormalAutomationEvent AutomationType.setValueAtTime (Fin startTime) (raw v0)
      :: curve_ramps raw rest 1 startTime
                     (duration / (INR (length values) - 1))
  end.

(** The command that goes to the native parameter with an event. *)
Definition sink_of (e : AutomationEvent) : SinkCall :=
  match e with
  | TargetAutomationEvent t v c => sink_setTargetAtTime v t c
  | NormalAutomationEvent AutomationType.linearRampToValueAtTime t v =>
      sink_linearRampToValueAtTime v t
  | NormalAutomationEvent AutomationType.exponentialRampToValueAtTime t v =>
      sink_exponentialRampToValueAtTime v t
  | NormalAutomationEvent AutomationType.setValueAtTime t v =>
      sink_setValueAtTime v t
  | NormalAutomationEvent AutomationType.cancelScheduledValues t _ =>
      sink_cancelScheduledValues t
  end.

(** The events recorded one after the other. *)
Definition record_all (events : list AutomationEvent) (p : Param) : Param :=
  fold_left (fun q e => record e (sink_of e) q) events p.

(** *** The value property and the bounds *)

Definition set_initialValue (p : Param) (v : num) : Param :=
  mkParam (units p) (convert p) (overridden p) (_events p) (_param p)
          v (now p) (sampleTime p).

(** [get value()] *)
Definition get_value (p : Param) : num := getValueAtTime p (now p).

(** [set value(value)] *)
Definition set_value (value_ : num) : M unit :=
  raw <- gets (fun p => _fromType p value_) ;;
  (fun p => Ret tt (set_initialValue p raw)) ;;
  now_ <- gets now ;;
  cancelScheduledValues now_ ;;
  now_ <- gets now ;;
  setValueAtTime value_ now_.

(** [get minValue()]; [param_minValue] is [this._param.minValue]. *)
Definition minValue (p : Param) (param_minValue : num) : num :=
  match units p with
  | UnitName.time | UnitName.frequency | UnitName.normalRange
  | UnitName.positive | UnitName.transportTime | UnitName.ticks
  | UnitName.bpm | UnitName.hertz | UnitName.samples => Fin 0
  | UnitName.audioRange => Fin (-1)
  | UnitName.decibels => NInf
  | _ => param_minValue
  end.

(** [get maxValue()]; [param_maxValue] is [this._param.maxValue]. *)
Definition maxValue (p : Param) (param_maxValue : num) : num :=
  match units p with
  | UnitName.normalRange | UnitName.audioRange => Fin 1
  | _ => param_maxValue
  end.

(** Every value of the store is a finite number. *)
Definition finite_values (s : Timeline.t) : Prop :=
  Forall (fun e => isFinite (value e) = true) (Timeline._timeline s).

(** The units for which [rampTo] ramps exponentially. *)
Definition ramps_exponentially (u : UnitName.t) : bool :=
  match u with
  | UnitName.frequency | UnitName.bpm | UnitName.decibels => true
  | _ => false
  end.

(** *** Sample states *)

(** A new parameter of plain numbers, initial value zero, in a context of
    44100 samples per second. *)
Definition fresh : Param :=
  initial (Fin 0) (Fin (1 / 44100)) (mkAudioParam (Fin 0) []) UnitName.number true.

(** The state after [setValueAtTime(v, t)] on the new parameter. *)
Definition holding (v t : R) : Param :=
  record (NormalAutomationEvent AutomationType.setValueAtTime (Fin t) (Fin v))
         (sink_setValueAtTime (Fin v) (Fin t)) fresh.

(** The state after [setValueAtTime(0, 0)] and
    [linearRampToValueAtTime(1, 1)] on the new parameter. *)
Definition ramp01 : Param :=
  record (NormalAutomationEvent AutomationType.linearRampToValueAtTime
                                (Fin 1) (Fin 1))
         (sink_linearRampToValueAtTime (Fin 1) (Fin 1)) (holding 0 0).

(** The state after [setValueAtTime(0, 0)] and
    [exponentialRampToValueAtTime(1, 1)] on the new parameter: an
    exponential ramp that starts from zero. *)
Definition expramp01 : Param :=
  record (NormalAutomationEvent AutomationType.exponentialRampToValueAtTime
                                (Fin 1) (Fin 1))
         (sink_exponentialRampToValueAtTime (Fin 1) (Fin 1)) (holding 0 0).

(** The state after [setTargetAtTime(1, 1, 0.5)] on the new parameter. *)
Definition target1 : Param :=
  record (TargetAutomationEvent (Fin 1) (Fin 1) (Fin 0.5))
         (sink_setTargetAtTime (Fin 1) (Fin 1) (Fin 0.5)) fresh.

(** ** Properties *)

(** *** Comparisons *)

Lemma Rlt_b_true (a b : R) : a < b -> Rlt_b a b = true.
Proof. unfold Rlt_b; destruct (Rlt_dec a b); tauto. Qed.

Lemma Rlt_b_false (a b : R) : b <= a -> Rlt_b a b = false.
Proof. unfold Rlt_b; destruct (Rlt_dec a b); auto; lra. Qed.

Lemma Rle_b_true (a b : R) : a <= b -> Rle_b a b = true.
Proof. unfold Rle_b; destruct (Rle_dec a b); tauto. Qed.

Lemma Rle_b_false (a b : R) : b < a -> Rle_b a b = false.
Proof. unfold Rle_b; destruct (Rle_dec a b); auto; lra. Qed.

Lemma Req_b_true (a b : R) : a = b -> Req_b a b = true.
Proof. unfold Req_b; destruct (Req_dec_T a b); tauto. Qed.

Lemma Req_b_false (a b : R) : a <> b -> Req_b a b = false.
Proof. unfold Req_b; destruct (Req_dec_T a b); tauto. Qed.

Lemma Rlt_b_spec (a b : R) : Rlt_b a b = true <-> a < b.
Proof. unfold Rlt_b; destruct (Rlt_dec a b); split; auto; discriminate. Qed.

Lemma Rle_b_spec (a b : R) : Rle_b a b = true <-> a <= b.
Proof. unfold Rle_b; destruct (Rle_dec a b); split; auto; discriminate. Qed.

Lemma leb_ltb_false (a b : num) : (a <=? b)%num = true -> (b <? a)%num = false.
Proof.
  destruct a, b; simpl; try discriminate; auto.
  intros H. apply Rle_b_spec in H. now apply Rlt_b_false.
Qed.

Lemma ltb_false_leb (a b : R) : (Fin a <? Fin b)%num = false -> (Fin b <=? Fin a)%num = true.
Proof.
  simpl. unfold Rlt_b, Rle_b.
  destruct (Rlt_dec a b), (Rle_dec b a); auto; try discriminate; lra.
Qed.

Lemma leb_refl_fin (t : num) : isFinite t = true -> (t <=? t)%num = true.
Proof. destruct t; try discriminate. intros _. simpl. apply Rle_b_true. lra. Qed.

Lemma leb_trans (a b c : num) :
  (a <=? b)%num = true -> (b <=? c)%num = true -> (a <=? c)%num = true.
Proof.
  destruct a, b, c; simpl; try discriminate; auto.
  rewrite !Rle_b_spec. lra.
Qed.

Lemma leb_ltb_trans (a b c : num) :
  (a <=? b)%num = true -> (b <? c)%num = true -> (a <? c)%num = true.
Proof.
  destruct a, b, c; simpl; try discriminate; auto.
  rewrite Rle_b_spec, !Rlt_b_spec. lra.
Qed.

Lemma ltb_leb_false (a b : num) : (a <? b)%num = true -> (b <=? a)%num = false.
Proof.
  destruct a, b; simpl; try discriminate; auto.
  rewrite Rlt_b_spec. intros. now apply Rle_b_false.
Qed.

Lemma Math_max_0 (t : R) : Math_max (Fin t) (Fin 0) = Fin (Rmax t 0).
Proof.
  simpl. unfold Rlt_b, Rmax.
  destruct (Rlt_dec t 0), (Rle_dec t 0); auto; try lra.
  f_equal; lra.
Qed.

Lemma Math_max_0_nonneg (t : R) : 0 <= t -> Math_max (Fin t) (Fin 0) = Fin t.
Proof. intros. simpl. now rewrite Rlt_b_false. Qed.

(** *** Conversions without conversion *)

Lemma unconverted_fromType (p : Param) (v : num) :
  unconverted p -> _fromType p v = v.
Proof.
  unfold _fromType. intros [H | H]; rewrite H; auto.
  destruct (convert p && negb (overridden p)); auto.
Qed.

Lemma unconverted_toType (p : Param) (v : num) :
  unconverted p -> _toType p v = v.
Proof.
  unfold _toType. intros [H | H]; rewrite H; auto.
  destruct (convert p); auto.
Qed.

(** The conversions read the unit, [convert] and [overridden] only. *)
Lemma fromType_same_setup (p q : Param) (v : num) :
  same_setup p q -> _fromType q v = _fromType p v.
Proof.
  intros (Hu & Hc & Ho & _). unfold _fromType. now rewrite Hu, Hc, Ho.
Qed.

Lemma toType_same_setup (p q : Param) (v : num) :
  same_setup p q -> _toType q v = _toType p v.
Proof.
  intros (Hu & Hc & _). unfold _toType. now rewrite Hu, Hc.
Qed.

Lemma same_setup_refl (p : Param) : same_setup p p.
Proof. repeat split. Qed.

Lemma same_setup_trans (p q r : Param) :
  same_setup p q -> same_setup q r -> same_setup p r.
Proof.
  unfold same_setup. intros (A1 & A2 & A3 & A4 & A5 & A6 & A7)
                            (B1 & B2 & B3 & B4 & B5 & B6 & B7).
  repeat split; congruence.
Qed.

Lemma unconverted_same_setup (p q : Param) :
  same_setup p q -> unconverted p -> unconverted q.
Proof.
  intros (Hu & Hc & _) [H | H]; [left | right]; congruence.
Qed.

(** *** The store *)

Lemma last_opt_app {A : Type} (l : list A) (x : A) :
  Timeline.last_opt (l ++ [x]) = Some x.
Proof. unfold Timeline.last_opt. now rewrite rev_app_distr. Qed.

Lemma all_upto_weaken (t t' : num) (l : list AutomationEvent) :
  (t <=? t')%num = true -> all_upto t l -> all_upto t' l.
Proof.
  intros Ht H. unfold all_upto in *. rewrite Forall_forall in *.
  intros e He. eapply leb_trans; eauto.
Qed.

Lemma all_upto_tl (t : num) (l : list AutomationEvent) :
  all_upto t l -> all_upto t (tl l).
Proof. intros H. destruct l; auto. now inversion H. Qed.

Lemma all_upto_app (t : num) (l : list AutomationEvent) (e : AutomationEvent) :
  all_upto t l -> (time e <=? t)%num = true -> all_upto t (l ++ [e]).
Proof. intros. apply Forall_app. split; auto. Qed.

Lemma insert_last (e : AutomationEvent) (l : list AutomationEvent) :
  all_upto (time e) l -> Timeline.insert e l = l ++ [e].
Proof.
  induction l as [| x l IH]; intros H; simpl; auto.
  inversion H; subst. rewrite (leb_ltb_false _ _ H2). now rewrite IH.
Qed.

Lemma filter_all {A : Type} (f : A -> bool) (l : list A) :
  Forall (fun x => f x = true) l -> filter f l = l.
Proof.
  induction 1 as [| x l Hx _ IH]; simpl; auto. now rewrite Hx, IH.
Qed.

Lemma filter_none {A : Type} (f : A -> bool) (l : list A) :
  Forall (fun x => f x = false) l -> filter f l = [].
Proof.
  induction 1 as [| x l Hx _ IH]; simpl; auto. now rewrite Hx, IH.
Qed.

Lemma get_last (t : num) (s : Timeline.t) (l : list AutomationEvent)
      (e : AutomationEvent) :
  Timeline._timeline s = l ++ [e] -> (time e <=? t)%num = true ->
  Timeline.get t s = Some e.
Proof.
  intros Hl He. unfold Timeline.get. rewrite Hl, filter_app. simpl.
  rewrite He. apply last_opt_app.
Qed.

Lemma getAfter_none (t : num) (s : Timeline.t) :
  all_upto t (Timeline._timeline s) -> Timeline.getAfter t s = None.
Proof.
  intros H. unfold Timeline.getAfter. rewrite filter_none; auto.
  eapply Forall_impl; [| exact H]. intros e. apply leb_ltb_false.
Qed.

Lemma get_none (t : num) (s : Timeline.t) :
  Forall (fun e => (t <? time e)%num = true) (Timeline._timeline s) ->
  Timeline.get t s = None.
Proof.
  intros H. unfold Timeline.get. rewrite filter_none; auto.
  eapply Forall_impl; [| exact H]. intros e. apply ltb_leb_false.
Qed.

Lemma all_upto_kept (t : num) (s : Timeline.t) :
  all_upto t (Timeline._timeline s) -> all_upto t (kept s).
Proof. unfold kept. destruct (_ <=? _)%nat; auto using all_upto_tl. Qed.

Lemma add_last (e : AutomationEvent) (s : Timeline.t) :
  all_upto (time e) (Timeline._timeline s) ->
  Timeline._timeline (Timeline.add e s) = kept s ++ [e].
Proof.
  intros H. unfold Timeline.add. simpl. fold (kept s).
  apply insert_last. now apply all_upto_kept.
Qed.

Lemma add_ends_with (e : AutomationEvent) (s : Timeline.t) :
  all_upto (time e) (Timeline._timeline s) ->
  ends_with (time e) e (Timeline.add e s).
Proof.
  intros H. exists (kept s). split; [now apply add_last | now apply all_upto_kept].
Qed.

Lemma ends_with_all_upto (t : num) (e : AutomationEvent) (s : Timeline.t) :
  ends_with t e s -> (time e <=? t)%num = true ->
  all_upto t (Timeline._timeline s).
Proof. intros (l & -> & Hl) He. now apply all_upto_app. Qed.

(** Order is kept by insertion, by removal and by eviction. *)

Lemma finite_times_insert (e : AutomationEvent) (l : list AutomationEvent) :
  isFinite (time e) = true -> finite_times l ->
  finite_times (Timeline.insert e l).
Proof.
  intros He. induction 1 as [| x l Hx Hl IH]; simpl.
  - repeat constructor; auto.
  - destruct (_ <? _)%num; repeat constructor; auto.
Qed.

Lemma insert_In (e x : AutomationEvent) (l : list AutomationEvent) :
  In x (Timeline.insert e l) -> x = e \/ In x l.
Proof.
  induction l as [| y l IH]; simpl.
  - intros [H | []]; auto.
  - destruct (_ <? _)%num; simpl.
    + intros [H | [H | H]]; auto.
    + intros [H | H]; auto. destruct (IH H); auto.
Qed.

Lemma sorted_insert (e : AutomationEvent) (l : list AutomationEvent) :
  isFinite (time e) = true -> finite_times l ->
  StronglySorted time_le l -> StronglySorted time_le (Timeline.insert e l).
Proof.
  intros He Hf Hs. induction Hs as [| x l Hs IH Hx]; simpl.
  - repeat constructor.
  - inversion Hf as [| ? ? Hfx Hfl]; subst.
    destruct (time e <? time x)%num eqn:Hlt.
    + constructor; [constructor; auto |].
      assert (Hex : time_le e x).
      { unfold time_le. destruct (time e), (time x); try discriminate.
        simpl in *. apply Rlt_b_spec in Hlt. apply Rle_b_true. lra. }
      constructor; auto.
      eapply Forall_impl; [| exact Hx]. intros a Ha.
      unfold time_le in *. eapply leb_trans; eauto.
    + constructor; auto.
      rewrite Forall_forall. intros a Ha.
      destruct (insert_In _ _ _ Ha) as [-> | Hin].
      * unfold time_le. destruct (time e), (time x); try discriminate.
        now apply ltb_false_leb.
      * rewrite Forall_forall in Hx. auto.
Qed.

Lemma sorted_filter (f : AutomationEvent -> bool) (l : list AutomationEvent) :
  StronglySorted time_le l -> StronglySorted time_le (filter f l).
Proof.
  induction 1 as [| x l Hs IH Hx]; simpl; [constructor |].
  destruct (f x); auto. constructor; auto.
  rewrite Forall_forall in *. intros a Ha. apply filter_In in Ha. apply Hx, Ha.
Qed.

Lemma finite_times_filter (f : AutomationEvent -> bool) (l : list AutomationEvent) :
  finite_times l -> finite_times (filter f l).
Proof.
  unfold finite_times. rewrite !Forall_forall. intros H a Ha.
  apply filter_In in Ha. apply H, Ha.
Qed.

Lemma ordered_cancel (t : num) (s : Timeline.t) :
  ordered s -> ordered (Timeline.cancel t s).
Proof.
  intros [Hf Hs]. split; simpl; auto using finite_times_filter, sorted_filter.
Qed.

Lemma ordered_add (e : AutomationEvent) (s : Timeline.t) :
  isFinite (time e) = true -> ordered s -> ordered (Timeline.add e s).
Proof.
  intros He [Hf Hs]. unfold Timeline.add.
  assert (Hk : finite_times (kept s) /\ StronglySorted time_le (kept s)).
  { unfold kept. destruct (_ <=? _)%nat; auto.
    destruct (Timeline._timeline s); auto.
    inversion Hf; inversion Hs; subst; auto. }
  destruct Hk. split; simpl; fold (kept s).
  - now apply finite_times_insert.
  - now apply sorted_insert.
Qed.

(** *** The scheduling calls, step by step *)

Lemma record_events (e : AutomationEvent) (c : SinkCall) (p : Param) :
  _events (record e c p) = Timeline.add e (_events p).
Proof. reflexivity. Qed.

Lemma record_calls (e : AutomationEvent) (c : SinkCall) (p : Param) :
  calls (_param (record e c p)) = calls (_param p) ++ [c].
Proof. reflexivity. Qed.

Lemma record_same_setup (e : AutomationEvent) (c : SinkCall) (p : Param) :
  same_setup p (record e c p).
Proof. repeat split. Qed.

Lemma setValueAtTime_returns (p : Param) (v t : num) :
  isFinite (_fromType p v) = true -> isFinite t = true ->
  setValueAtTime v t p =
  Ret tt (record (NormalAutomationEvent AutomationType.setValueAtTime t (_fromType p v))
                 (sink_setValueAtTime (_fromType p v) t) p).
Proof.
  intros Hv Ht. unfold setValueAtTime, bind, gets, assert, toSeconds.
  now rewrite Hv, Ht.
Qed.

Lemma linearRampToValueAtTime_returns (p : Param) (v t : num) :
  isFinite (_fromType p v) = true -> isFinite t = true ->
  linearRampToValueAtTime v t p =
  Ret tt (record (NormalAutomationEvent AutomationType.linearRampToValueAtTime t
                                        (_fromType p v))
                 (sink_linearRampToValueAtTime (_fromType p v) t) p).
Proof.
  intros Hv Ht. unfold linearRampToValueAtTime, bind, gets, assert, toSeconds.
  now rewrite Hv, Ht.
Qed.

Lemma exponentialRampToValueAtTime_returns (p : Param) (v t : num) :
  isFinite (Math_max _minOutput (_fromType p v)) = true -> isFinite t = true ->
  exponentialRampToValueAtTime v t p =
  Ret tt (record (NormalAutomationEvent AutomationType.exponentialRampToValueAtTime t
                                        (Math_max _minOutput (_fromType p v)))
                 (sink_exponentialRampToValueAtTime
                    (Math_max _minOutput (_fromType p v)) t) p).
Proof.
  intros Hv Ht.
  unfold exponentialRampToValueAtTime, bind, gets, assert, toSeconds.
  now rewrite Hv, Ht.
Qed.

Lemma setTargetAtTime_returns (p : Param) (v t c : num) :
  isFinite c = true -> (Fin 0 <? c)%num = true ->
  isFinite (_fromType p v) = true -> isFinite t = true ->
  setTargetAtTime v t c p =
  Ret tt (record (TargetAutomationEvent t (_fromType p v) c)
                 (sink_setTargetAtTime (_fromType p v) t c) p).
Proof.
  intros Hc Hc' Hv Ht. unfold setTargetAtTime, bind, gets, assert, toSeconds.
  now rewrite Hc, Hc', Hv, Ht.
Qed.

(** The floor of the exponential ramps is a finite number exactly when the
    requested value is neither NaN nor the positive infinity. *)
Lemma Math_max_minOutput_fin (r : R) :
  Math_max _minOutput (Fin r) = Fin (Rmax 1e-7 r).
Proof.
  unfold _minOutput. simpl. unfold Rlt_b, Rmax.
  destruct (Rlt_dec 1e-7 r), (Rle_dec 1e-7 r); auto; try lra.
  f_equal; lra.
Qed.

(** *** Reading a store that ends with a held value *)

Lemma getValueAtTime_held (p : Param) (t q : num) (e : AutomationEvent) :
  ends_with t e (_events p) ->
  is_setTargetAtTime e = false ->
  (time e <=? t)%num = true ->
  (t <=? Math_max q (Fin 0))%num = true ->
  getValueAtTime p q = _toType p (value e).
Proof.
  intros Hends He Het Htq. unfold getValueAtTime, toSeconds.
  destruct Hends as (l & Hl & Hup).
  rewrite (get_last _ _ l e Hl) by (eapply leb_trans; eauto).
  rewrite getAfter_none.
  - now rewrite He.
  - rewrite Hl. apply all_upto_app.
    + eapply all_upto_weaken; eauto.
    + eapply leb_trans; eauto.
Qed.

Lemma leb_Math_max_0 (t : num) :
  isFinite t = true -> (t <=? Math_max t (Fin 0))%num = true.
Proof.
  destruct t as [r | | |]; try discriminate. intros _.
  rewrite Math_max_0. simpl. apply Rle_b_true. apply Rmax_l.
Qed.

Lemma all_upto_filter (t : num) (f : AutomationEvent -> bool)
      (l : list AutomationEvent) :
  all_upto t l -> all_upto t (filter f l).
Proof.
  unfold all_upto. rewrite !Forall_forall. intros H a Ha.
  apply filter_In in Ha. apply H, Ha.
Qed.

Lemma all_upto_filter_leb (t : num) (l : list AutomationEvent) :
  all_upto t (filter (fun e => (time e <=? t)%num) l).
Proof.
  unfold all_upto. rewrite Forall_forall. intros a Ha.
  apply filter_In in Ha. apply Ha.
Qed.

Lemma getAfter_none_all_upto (r : R) (s : Timeline.t) :
  finite_times (Timeline._timeline s) ->
  Timeline.getAfter (Fin r) s = None ->
  all_upto (Fin r) (Timeline._timeline s).
Proof.
  unfold Timeline.getAfter. destruct s as [m l]. simpl. intros Hf.
  induction Hf as [| x l Hx Hl IH]; simpl; intros H; [constructor |].
  destruct (Fin r <? time x)%num eqn:E; simpl in H; [discriminate |].
  constructor; [| now apply IH].
  destruct (time x); simpl in *; try discriminate; auto.
  now apply ltb_false_leb.
Qed.

Lemma getAfter_later (t : num) (s : Timeline.t) (a : AutomationEvent) :
  Timeline.getAfter t s = Some a -> (t <? time a)%num = true.
Proof.
  unfold Timeline.getAfter. intros H.
  assert (Hin : In a (filter (fun e => (t <? time e)%num) (Timeline._timeline s))).
  { destruct (filter _ _); [discriminate |]. simpl in H. injection H as ->. now left. }
  apply filter_In in Hin. apply Hin.
Qed.

(** Cancelling from the event after [t] keeps the events up to [t]. *)
Lemma cancel_getAfter (r : R) (s : Timeline.t) (a : AutomationEvent) :
  ordered s -> Timeline.getAfter (Fin r) s = Some a ->
  Timeline._timeline (Timeline.cancel (time a) s)
  = filter (fun e => (time e <=? Fin r)%num) (Timeline._timeline s).
Proof.
  intros [Hf Hs] Ha. pose proof (getAfter_later _ _ _ Ha) as Hlater.
  unfold Timeline.cancel. unfold Timeline.getAfter in Ha.
  destruct s as [m l]. simpl in *.
  induction Hs as [| x l Hs IH Hx]; simpl; auto.
  inversion Hf as [| ? ? Hfx Hfl]; subst. simpl in Ha.
  destruct (Fin r <? time x)%num eqn:E.
  - injection Ha as ->.
    rewrite (leb_refl_fin _ Hfx), (ltb_leb_false _ _ E). simpl.
    rewrite !filter_none; auto.
    + eapply Forall_impl; [| exact Hx]. intros e He.
      destruct (time e <=? Fin r)%num eqn:E'; auto.
      pose proof (leb_ltb_trans _ _ _ E' E) as H1.
      apply ltb_leb_false in H1. unfold time_le in He. congruence.
    + eapply Forall_impl; [| exact Hx]. intros e He.
      unfold time_le in He. now rewrite He.
  - assert (Hxr : (time x <=? Fin r)%num = true).
    { destruct (time x); simpl in *; try discriminate; auto.
      now apply ltb_false_leb. }
    rewrite Hxr, (ltb_leb_false _ _ (leb_ltb_trans _ _ _ Hxr Hlater)). simpl.
    f_equal. auto.
Qed.

(** *** cancelAndHoldAtTime *)

Lemma add_hold (p : Param) (c : SinkCall) (r : R) (v : num) :
  ordered (_events p) ->
  all_upto (Fin r) (Timeline._timeline (_events p)) ->
  let e := NormalAutomationEvent AutomationType.setValueAtTime (Fin r) v in
  same_setup p (record e c p)
  /\ ordered (_events (record e c p))
  /\ ends_with (Fin r) e (_events (record e c p)).
Proof.
  intros Ho Hup e. split; [apply record_same_setup |].
  rewrite record_events. split.
  - now apply ordered_add.
  - now apply (add_ends_with e).
Qed.

Lemma trimmed_cancel (p q : Param) (r : R) (x : num) :
  same_setup p q -> ordered (_events q) ->
  all_upto (Fin r) (Timeline._timeline (Timeline.cancel x (_events q))) ->
  trimmed p (set_events q (Timeline.cancel x (_events q))) (Fin r).
Proof.
  intros Hs Ho Hup. split; [| split]; auto.
  now apply ordered_cancel.
Qed.

Lemma trimmed_record (p q : Param) (r : R) (e : AutomationEvent) (c : SinkCall) :
  trimmed p q (Fin r) -> time e = Fin r ->
  trimmed p (record e c q) (Fin r).
Proof.
  intros (Hs & Ho & Hup) He. split; [| split].
  - eapply same_setup_trans; [exact Hs | apply record_same_setup].
  - rewrite record_events. apply ordered_add; auto. now rewrite He.
  - rewrite record_events, add_last by now rewrite He.
    apply all_upto_app; [now apply all_upto_kept |].
    rewrite He. now apply leb_refl_fin.
Qed.

Lemma cancelAndHoldAtTime_returns (p : Param) (r : R) :
  ordered (_events p) ->
  (reanchors p (Fin r) = true ->
   isFinite (_fromType p (_toType p (held_value p (Fin r)))) = true) ->
  exists p',
    cancelAndHoldAtTime (Fin r) p = Ret tt p'
    /\ same_setup p p'
    /\ ordered (_events p')
    /\ ends_with (Fin r)
         (NormalAutomationEvent AutomationType.setValueAtTime (Fin r)
                                (held_value p (Fin r)))
         (_events p').
Proof.
  intros Ho Hfin.
  unfold cancelAndHoldAtTime, bind, gets, assert, sink, toSeconds.
  cbn [isFinite set_param _events].
  fold (held_value p (Fin r)).
  set (V := held_value p (Fin r)) in *.
  set (p1 := set_param p _).
  assert (Hs1 : same_setup p p1) by (repeat split).
  assert (Ho1 : ordered (_events p1)) by exact Ho.
  match goal with
  | |- exists p', match ?mid p1 with _ => _ end = _ /\ _ =>
      assert (Hmid : exists p2, mid p1 = Ret tt p2 /\ trimmed p p2 (Fin r))
  end.
  { unfold reanchors in Hfin.
    destruct (Timeline.getAfter (Fin r) (_events p)) as [a |] eqn:Ea.
    - assert (Hc : trimmed p (set_events p1 (Timeline.cancel (time a) (_events p1)))
                           (Fin r)).
      { apply trimmed_cancel; auto.
        change (_events p1) with (_events p).
        rewrite (cancel_getAfter r _ a Ho Ea). apply all_upto_filter_leb. }
      destruct (match Timeline.get (Fin r) (_events p) with
                | Some before => (time before === Fin r)%num
                | None => false
                end) eqn:Eb.
      + eexists. split; [reflexivity | exact Hc].
      + simpl in Hfin. unfold events_cancel.
        set (p2 := set_events p1 _) in *.
        destruct Hc as (Hs2 & Ho2 & Hup2).
        destruct (is_linearRampToValueAtTime a) eqn:El;
          [| destruct (is_exponentialRampToValueAtTime a) eqn:Ee].
        * specialize (Hfin eq_refl).
          rewrite linearRampToValueAtTime_returns;
            rewrite ?(fromType_same_setup p p2), ?(toType_same_setup p p2); auto.
          eexists. split; [reflexivity |].
          apply trimmed_record; [exact (conj Hs2 (conj Ho2 Hup2)) | reflexivity].
        * specialize (Hfin eq_refl).
          assert (Hm : isFinite (Math_max _minOutput (_fromType p (_toType p V)))
                       = true).
          { destruct (_fromType p (_toType p V)); try discriminate.
            now rewrite Math_max_minOutput_fin. }
          rewrite exponentialRampToValueAtTime_returns;
            rewrite ?(fromType_same_setup p p2), ?(toType_same_setup p p2); auto.
          eexists. split; [reflexivity |].
          apply trimmed_record; [exact (conj Hs2 (conj Ho2 Hup2)) | reflexivity].
        * eexists. split; [reflexivity |]. exact (conj Hs2 (conj Ho2 Hup2)).
    - assert (Hup : all_upto (Fin r) (Timeline._timeline (_events p))).
      { apply getAfter_none_all_upto; [apply Ho | exact Ea]. }
      destruct (match Timeline.get (Fin r) (_events p) with
                | Some before => (time before === Fin r)%num
                | None => false
                end) eqn:Eb.
      + eexists. split; [reflexivity |].
        apply trimmed_cancel; auto. now apply all_upto_filter.
      + eexists. split; [reflexivity |]. exact (conj Hs1 (conj Ho1 Hup)). }
  destruct Hmid as (p2 & Hmid & Hs2 & Ho2 & Hup2). rewrite Hmid.
  unfold events_add.
  match goal with
  | |- exists p', Ret tt ?q = _ /\ _ => exists q
  end.
  split; [reflexivity |].
  pose proof (add_hold p2 (sink_setValueAtTime V (Fin r)) r V Ho2 Hup2)
    as (Hs3 & Ho3 & He3).
  split; [eapply same_setup_trans; eauto | split; auto].
Qed.

(** *** Two trailing events *)

Lemma ends_with_add_later (s : Timeline.t) (t0 : num) (e1 e2 : AutomationEvent) :
  ends_with t0 e1 s -> (time e1 <=? t0)%num = true ->
  (t0 <=? time e2)%num = true -> (2 <= Timeline.memory s)%nat ->
  exists l, Timeline._timeline (Timeline.add e2 s) = l ++ [e1; e2]
            /\ all_upto t0 l.
Proof.
  intros (l & Hl & Hup) He1 He2 Hm.
  rewrite add_last.
  - unfold kept. rewrite Hl.
    destruct (_ <=? _)%nat eqn:E.
    + destruct l as [| x l'].
      * apply Nat.leb_le in E. simpl in E. lia.
      * exists l'. simpl. rewrite <- app_assoc. split; auto. now inversion Hup.
    + exists l. rewrite <- app_assoc. auto.
  - rewrite Hl. apply all_upto_app.
    + eapply all_upto_weaken; eauto.
    + eapply leb_trans; eauto.
Qed.

Lemma filter_two_trailing (f : AutomationEvent -> bool)
      (l : list AutomationEvent) (e1 e2 : AutomationEvent) :
  Forall (fun x => f x = true) l -> f e1 = true -> f e2 = false ->
  filter f (l ++ [e1; e2]) = l ++ [e1].
Proof.
  intros Hl H1 H2. rewrite filter_app, (filter_all f l Hl). simpl.
  now rewrite H1, H2.
Qed.

(** Between a held value and the linear ramp that follows it. *)
Lemma getValueAtTime_linear_segment (p : Param) (l : list AutomationEvent)
      (e1 : AutomationEvent) (t0 t1 q : R) (v1 : num) :
  Timeline._timeline (_events p)
  = l ++ [e1; NormalAutomationEvent AutomationType.linearRampToValueAtTime
                                    (Fin t1) v1] ->
  all_upto (Fin t0) l -> time e1 = Fin t0 -> is_setTargetAtTime e1 = false ->
  0 <= q -> t0 <= q < t1 ->
  getValueAtTime p (Fin q)
  = _toType p (_linearInterpolate (Fin t0) (value e1) (Fin t1) v1 (Fin q)).
Proof.
  intros Hl Hup He1 Htgt Hq0 Hq.
  set (e2 := NormalAutomationEvent _ _ _) in Hl.
  assert (Hlq : Forall (fun e => (time e <=? Fin q)%num = true) l).
  { eapply Forall_impl; [| exact Hup]. intros e He.
    eapply leb_trans; [exact He |]. simpl. apply Rle_b_true. lra. }
  assert (Hget : Timeline.get (Fin q) (_events p) = Some e1).
  { unfold Timeline.get. rewrite Hl, filter_two_trailing; auto.
    - apply last_opt_app.
    - rewrite He1. simpl. apply Rle_b_true. lra.
    - simpl. apply Rle_b_false. lra. }
  assert (Haft : Timeline.getAfter (Fin q) (_events p) = Some e2).
  { unfold Timeline.getAfter. rewrite Hl, filter_app, filter_none.
    - cbn [filter app]. rewrite He1. simpl. rcompare. reflexivity.
    - eapply Forall_impl; [| exact Hlq]. intros e. apply leb_ltb_false. }
  unfold getValueAtTime, toSeconds. rewrite Math_max_0_nonneg by lra.
  rewrite Hget, Haft, Htgt, He1. reflexivity.
Qed.

Lemma linearInterpolate_fin (t0 v0 t1 v1 t : R) :
  t0 < t1 ->
  _linearInterpolate (Fin t0) (Fin v0) (Fin t1) (Fin v1) (Fin t)
  = Fin (v0 + (v1 - v0) * (t - t0) / (t1 - t0)).
Proof.
  intros H. unfold _linearInterpolate, sub. simpl.
  rewrite Req_b_false by lra. simpl. f_equal. field. lra.
Qed.

Lemma exponentialApproach_fin (t0 v0 v1 c t : R) :
  c <> 0 ->
  _exponentialApproach (Fin t0) (Fin v0) (Fin v1) (Fin c) (Fin t)
  = Fin (v1 + (v0 - v1) * exp (- (t - t0) / c)).
Proof.
  intros H. unfold _exponentialApproach, sub. simpl.
  rewrite Req_b_false by lra. reflexivity.
Qed.

(** ** The statements of the specification *)

(** C1. On a parameter without unit conversion whose store holds nothing
    after [t0] (a new parameter for one), [setValueAtTime(v0, t0)] followed by
    [linearRampToValueAtTime(v1, t1)], [0 <= t0 < t1], makes
    [getValueAtTime(t)] the linear interpolation
    [v0 + (v1 - v0) * (t - t0) / (t1 - t0)] for every [t] of [[t0, t1]] and
    [v1] for every [t > t1]; so [v0] at [t0], [v1] at [t1] and
    [(v0 + v1) / 2] at the midpoint. *)
Theorem linear_ramp_exact (p : Param) (v0 t0 v1 t1 : R) :
  unconverted p ->
  (2 <= Timeline.memory (_events p))%nat ->
  all_upto (Fin t0) (Timeline._timeline (_events p)) ->
  0 <= t0 -> t0 < t1 ->
  exists p',
    (setValueAtTime (Fin v0) (Fin t0) ;;
     linearRampToValueAtTime (Fin v1) (Fin t1)) p = Ret tt p'
    /\ (forall t, t0 <= t <= t1 ->
        getValueAtTime p' (Fin t) = Fin (v0 + (v1 - v0) * (t - t0) / (t1 - t0)))
    /\ (forall t, t1 < t -> getValueAtTime p' (Fin t) = Fin v1)
    /\ getValueAtTime p' (Fin t0) = Fin v0
    /\ getValueAtTime p' (Fin t1) = Fin v1
    /\ getValueAtTime p' (Fin ((t0 + t1) / 2)) = Fin ((v0 + v1) / 2).
Proof.
  intros Hu Hm Hup Ht0 Ht.
  unfold bind at 1.
  rewrite setValueAtTime_returns by (rewrite ?unconverted_fromType; auto).
  rewrite unconverted_fromType by auto.
  set (e1 := NormalAutomationEvent AutomationType.setValueAtTime (Fin t0) (Fin v0)).
  set (p1 := record e1 _ p).
  assert (Hu1 : unconverted p1).
  { eapply unconverted_same_setup; [apply record_same_setup | exact Hu]. }
  rewrite linearRampToValueAtTime_returns by (rewrite ?unconverted_fromType; auto).
  rewrite unconverted_fromType by auto.
  set (e2 := NormalAutomationEvent AutomationType.linearRampToValueAtTime
                                   (Fin t1) (Fin v1)).
  set (p2 := record e2 _ p1).
  assert (Hu2 : unconverted p2).
  { eapply unconverted_same_setup; [apply record_same_setup | exact Hu1]. }
  assert (He1 : ends_with (Fin t0) e1 (_events p1)).
  { apply (add_ends_with e1). exact Hup. }
  destruct (ends_with_add_later (_events p1) (Fin t0) e1 e2 He1) as (l & Hl & Hl0).
  { simpl. apply Rle_b_true. lra. }
  { simpl. apply Rle_b_true. lra. }
  { exact Hm. }
  exists p2. split; [reflexivity |].
  assert (Hin : forall t, t0 <= t <= t1 ->
                getValueAtTime p2 (Fin t)
                = Fin (v0 + (v1 - v0) * (t - t0) / (t1 - t0)));
    [| split; [exact Hin | split; [| repeat split]]].
  - intros t [Hlo Hhi]. destruct (Rlt_dec t t1) as [Hlt | Hge].
    + rewrite (getValueAtTime_linear_segment p2 l e1 t0 t1 t (Fin v1));
        auto; try lra.
      rewrite unconverted_toType by auto.
      now apply linearInterpolate_fin.
    + assert (t = t1) by lra. subst t.
      rewrite (getValueAtTime_held p2 (Fin t1) (Fin t1) e2); auto.
      * rewrite unconverted_toType by auto. simpl. f_equal. field. lra.
      * exists (l ++ [e1]). split.
        -- rewrite <- app_assoc. exact Hl.
        -- apply all_upto_app.
           ++ eapply all_upto_weaken; [| exact Hl0]. simpl. apply Rle_b_true. lra.
           ++ simpl. apply Rle_b_true. lra.
      * simpl. apply Rle_b_true. lra.
      * now apply leb_Math_max_0.
  - intros t Hlt.
    rewrite (getValueAtTime_held p2 (Fin t1) (Fin t) e2); auto.
    + now rewrite unconverted_toType by auto.
    + exists (l ++ [e1]). split.
      * rewrite <- app_assoc. exact Hl.
      * apply all_upto_app.
        -- eapply all_upto_weaken; [| exact Hl0]. simpl. apply Rle_b_true. lra.
        -- simpl. apply Rle_b_true. lra.
    + simpl. apply Rle_b_true. lra.
    + rewrite Math_max_0_nonneg by lra. simpl. apply Rle_b_true. lra.
  - rewrite Hin by lra. f_equal. field. lra.
  - rewrite Hin by lra. f_equal. field. lra.
  - rewrite Hin by lra. f_equal. field. lra.
Qed.

(** C2. When the event in effect at the query time [t >= 0] is a target
    approach recorded by [setTargetAtTime(v1, t0, tau)] and no event follows
    it but, possibly, a [setValueAtTime], the value at [t] is
    [v1 + (v0 - v1) * exp (- (t - t0) / tau)] in the units of the parameter,
    [v0] being the value of the event just before [t0], or the initial value
    when there is none. *)
Theorem target_approach_value (p : Param) (t t0 v1 tau v0 : R) :
  0 <= t ->
  Timeline.get (Fin t) (_events p)
  = Some (TargetAutomationEvent (Fin t0) (Fin v1) (Fin tau)) ->
  match Timeline.getAfter (Fin t) (_events p) with
  | None => True
  | Some after => is_setValueAtTime after = true
  end ->
  0 < tau ->
  match Timeline.getBefore (Fin t0) (_events p) with
  | Some previous => value previous
  | None => _initialValue p
  end = Fin v0 ->
  getValueAtTime p (Fin t)
  = _toType p (Fin (v1 + (v0 - v1) * exp (- (t - t0) / tau)))
  /\ (unconverted p ->
      getValueAtTime p (Fin t) = Fin (v1 + (v0 - v1) * exp (- (t - t0) / tau))).
Proof.
  intros Ht Hget Hafter Htau Hprev.
  assert (H : getValueAtTime p (Fin t)
              = _toType p (Fin (v1 + (v0 - v1) * exp (- (t - t0) / tau)))).
  { unfold getValueAtTime, toSeconds. rewrite Math_max_0_nonneg by lra.
    rewrite Hget. cbn [is_setTargetAtTime andb].
    unfold previous_value. cbn [time]. rewrite Hprev.
    rewrite <- (exponentialApproach_fin t0 v0 v1 tau t) by lra.
    destruct (Timeline.getAfter (Fin t) (_events p)) as [a |]; auto.
    now rewrite Hafter. }
  split; [exact H |]. intros Hu. rewrite H. now apply unconverted_toType.
Qed.

(** C10, amended.  The query time is clamped at zero first: for every query
    time whose clamp [max(t, 0)] is strictly before every recorded event, and
    for every query time when the store is empty, [getValueAtTime] is the
    initial value in the units of the parameter. *)
Theorem initial_value_before_first_event (p : Param) (q : num) :
  Forall (fun e => (Math_max q (Fin 0) <? time e)%num = true)
         (Timeline._timeline (_events p)) ->
  getValueAtTime p q = _toType p (_initialValue p).
Proof.
  intros H. unfold getValueAtTime, toSeconds. now rewrite get_none.
Qed.

(** *** The floor of the exponential ramps *)

Lemma floor_kept_cancel (t : num) (s : Timeline.t) :
  floor_kept s -> floor_kept (Timeline.cancel t s).
Proof.
  unfold floor_kept. simpl. rewrite !Forall_forall. intros H e He.
  apply filter_In in He. apply H, He.
Qed.

Lemma floor_kept_add (e : AutomationEvent) (s : Timeline.t) :
  (is_exponentialRampToValueAtTime e = true ->
   exists x, value e = Fin x /\ 1e-7 <= x) ->
  floor_kept s -> floor_kept (Timeline.add e s).
Proof.
  unfold floor_kept. intros He H. rewrite Forall_forall in *.
  intros a Ha. unfold Timeline.add in Ha. simpl in Ha.
  apply insert_In in Ha. destruct Ha as [-> | Ha]; auto.
  apply H. destruct (_ <=? _)%nat; auto.
  destruct (Timeline._timeline s); auto. now right.
Qed.

Lemma Math_max_minOutput_floor (v : num) (x : R) :
  Math_max _minOutput v = Fin x -> 1e-7 <= x.
Proof.
  destruct v as [r | | |]; try discriminate.
  - rewrite Math_max_minOutput_fin. intros H. injection H as <-. apply Rmax_l.
  - unfold _minOutput. simpl. intros H. injection H as <-. lra.
Qed.

Lemma preserves_bind {A B : Type} (I : Timeline.t -> Prop)
      (m : M A) (k : A -> M B) :
  preserves I m -> (forall a, preserves I (k a)) -> preserves I (bind m k).
Proof.
  intros Hm Hk p Hp. unfold bind. specialize (Hm p Hp).
  destruct (m p) as [a p' | msg p']; simpl in *; auto.
  now apply Hk.
Qed.

Lemma preserves_gets {A : Type} (I : Timeline.t -> Prop) (f : Param -> A) :
  preserves I (gets f).
Proof. intros p Hp. exact Hp. Qed.

Lemma preserves_ret {A : Type} (I : Timeline.t -> Prop) (a : A) :
  preserves I (ret a).
Proof. intros p Hp. exact Hp. Qed.

Lemma preserves_assert (I : Timeline.t -> Prop) (b : bool) (msg : String.string) :
  preserves I (assert b msg).
Proof. intros p Hp. unfold assert. now destruct b. Qed.

Lemma preserves_sink (I : Timeline.t -> Prop) (c : SinkCall) :
  preserves I (sink c).
Proof. intros p Hp. exact Hp. Qed.

Lemma floor_events_cancel (t : num) : preserves floor_kept (events_cancel t).
Proof. intros p Hp. now apply floor_kept_cancel. Qed.

Lemma floor_events_add (e : AutomationEvent) :
  (is_exponentialRampToValueAtTime e = true ->
   exists x, value e = Fin x /\ 1e-7 <= x) ->
  preserves floor_kept (events_add e).
Proof. intros He p Hp. now apply floor_kept_add. Qed.

Ltac preserves_step :=
  first [ apply preserves_bind; [| intros ?]
        | apply preserves_gets | apply preserves_ret
        | apply preserves_assert | apply preserves_sink
        | apply floor_events_cancel
        | apply floor_events_add; simpl; discriminate ].

Lemma floor_setValueAtTime (v t : num) : preserves floor_kept (setValueAtTime v t).
Proof. unfold setValueAtTime. repeat preserves_step. Qed.

Lemma floor_linearRampToValueAtTime (v t : num) :
  preserves floor_kept (linearRampToValueAtTime v t).
Proof. unfold linearRampToValueAtTime. repeat preserves_step. Qed.

Lemma floor_setTargetAtTime (v t c : num) :
  preserves floor_kept (setTargetAtTime v t c).
Proof. unfold setTargetAtTime. repeat preserves_step. Qed.

Lemma floor_exponentialRampToValueAtTime (v t : num) :
  preserves floor_kept (exponentialRampToValueAtTime v t).
Proof.
  unfold exponentialRampToValueAtTime.
  apply preserves_bind; [apply preserves_gets | intros x].
  intros p Hp. unfold bind, assert.
  destruct (isFinite (Math_max _minOutput x) && isFinite (toSeconds t)) eqn:E;
    simpl; auto.
  apply floor_kept_add; auto. intros _. simpl.
  apply andb_prop in E. destruct E as [E _].
  destruct (Math_max _minOutput x) as [y | | |] eqn:Ey; try discriminate.
  exists y. split; auto. eapply Math_max_minOutput_floor; eauto.
Qed.

Lemma floor_cancelScheduledValues (t : num) :
  preserves floor_kept (cancelScheduledValues t).
Proof. unfold cancelScheduledValues. repeat preserves_step. Qed.

Lemma floor_cancelAndHoldAtTime (t : num) :
  preserves floor_kept (cancelAndHoldAtTime t).
Proof.
  unfold cancelAndHoldAtTime. repeat preserves_step.
  match goal with
  | |- preserves _ (if ?c then _ else _) => destruct c
  end;
    match goal with
    | |- preserves _ (match ?o with Some _ => _ | None => _ end) =>
        destruct o as [after |]
    end; repeat preserves_step.
  destruct (is_linearRampToValueAtTime after);
    [| destruct (is_exponentialRampToValueAtTime after)];
    repeat first [ apply floor_linearRampToValueAtTime
                 | apply floor_exponentialRampToValueAtTime
                 | preserves_step ].
Qed.

Lemma floor_setRampPoint (t : num) : preserves floor_kept (setRampPoint t).
Proof.
  unfold setRampPoint.
  repeat first [ apply floor_cancelAndHoldAtTime
               | apply floor_setValueAtTime
               | preserves_step ].
Qed.

(** C6. A call [exponentialRampToValueAtTime(value, endTime)] that returns
    has stored the event with the raw value [max(1e-7, converted value)], a
    number that is at least [1e-7]; it returns whenever that maximum and the
    time are finite; a converted value of zero is stored as [1e-7]; and the
    store keeps having no exponential ramp below [1e-7]. *)
Theorem exponential_ramp_floor (p : Param) (v t : num) :
  (forall p', exponentialRampToValueAtTime v t p = Ret tt p' ->
     exists x,
       Math_max _minOutput (_fromType p v) = Fin x /\ 1e-7 <= x
       /\ p' = record
                 (NormalAutomationEvent
                    AutomationType.exponentialRampToValueAtTime t (Fin x))
                 (sink_exponentialRampToValueAtTime (Fin x) t) p)
  /\ (isFinite (Math_max _minOutput (_fromType p v)) = true ->
      isFinite t = true ->
      returned (exponentialRampToValueAtTime v t p) = true)
  /\ (_fromType p v = Fin 0 -> isFinite t = true ->
      exponentialRampToValueAtTime v t p
      = Ret tt (record
                  (NormalAutomationEvent
                     AutomationType.exponentialRampToValueAtTime t (Fin 1e-7))
                  (sink_exponentialRampToValueAtTime (Fin 1e-7) t) p))
  /\ (floor_kept (_events p) ->
      floor_kept (_events (state_of (exponentialRampToValueAtTime v t p)))).
Proof.
  split; [| split; [| split]].
  - intros p' H.
    unfold exponentialRampToValueAtTime, bind, gets, assert, toSeconds in H.
    destruct (isFinite (Math_max _minOutput (_fromType p v)) && isFinite t) eqn:E;
      [| discriminate].
    apply andb_prop in E. destruct E as [E _].
    destruct (Math_max _minOutput (_fromType p v)) as [x | | |] eqn:Ex;
      try discriminate.
    exists x. split; [reflexivity |]. split.
    + eapply Math_max_minOutput_floor; eauto.
    + simpl in H. injection H as <-. reflexivity.
  - intros Hv Ht. now rewrite exponentialRampToValueAtTime_returns.
  - intros Hv Ht.
    assert (Hm : Math_max _minOutput (_fromType p v) = Fin 1e-7).
    { rewrite Hv. unfold _minOutput. simpl. now rewrite Rlt_b_false by lra. }
    rewrite exponentialRampToValueAtTime_returns; rewrite ?Hm; auto.
  - apply floor_exponentialRampToValueAtTime.
Qed.

(** C7, amended.  Every scheduling call checks its numbers before it
    touches the store or the native parameter, and throws, the state
    unchanged, when one is not finite; [setTargetAtTime] also when the time
    constant is not a finite number above zero.  The check of
    [exponentialRampToValueAtTime] is on the floored value
    [max(1e-7, converted value)]: NaN and the positive infinity fail, the
    negative infinity is stored as [1e-7]. *)
Theorem invalid_arguments_fail :
  fails_on_non_finite setValueAtTime
  /\ fails_on_non_finite linearRampToValueAtTime
  /\ (forall p v t,
        isFinite (Math_max _minOutput (_fromType p v)) && isFinite t = false ->
        exists msg, exponentialRampToValueAtTime v t p = Throw msg p)
  /\ (forall p v t,
        _fromType p v = NaN \/ _fromType p v = PInf \/ isFinite t = false ->
        exists msg, exponentialRampToValueAtTime v t p = Throw msg p)
  /\ (forall p v t,
        _fromType p v = NInf -> isFinite t = true ->
        exponentialRampToValueAtTime v t p
        = Ret tt (record
                    (NormalAutomationEvent
                       AutomationType.exponentialRampToValueAtTime t (Fin 1e-7))
                    (sink_exponentialRampToValueAtTime (Fin 1e-7) t) p))
  /\ (forall p v t c,
        isFinite c && (Fin 0 <? c)%num = false ->
        exists msg, setTargetAtTime v t c p = Throw msg p)
  /\ (forall c, fails_on_non_finite (fun v t => setTargetAtTime v t c))
  /\ (forall p t, isFinite t = false ->
        exists msg, cancelScheduledValues t p = Throw msg p)
  /\ (forall p t, isFinite t = false ->
        exists msg, cancelAndHoldAtTime t p = Throw msg p).
Proof.
  assert (Hexp : forall p v t,
        isFinite (Math_max _minOutput (_fromType p v)) && isFinite t = false ->
        exists msg, exponentialRampToValueAtTime v t p = Throw msg p).
  { intros p v t H.
    unfold exponentialRampToValueAtTime, bind, gets, assert, toSeconds.
    rewrite H. eauto. }
  repeat split.
  - intros p v t H. unfold setValueAtTime, bind, gets, assert, toSeconds.
    rewrite H. eauto.
  - intros p v t H. unfold linearRampToValueAtTime, bind, gets, assert, toSeconds.
    rewrite H. eauto.
  - exact Hexp.
  - intros p v t [H | [H | H]]; apply Hexp; rewrite H; auto.
    apply andb_false_r.
  - intros p v t Hv Ht.
    rewrite exponentialRampToValueAtTime_returns; rewrite ?Hv; auto.
  - intros p v t c H. unfold setTargetAtTime, bind, gets, assert, toSeconds.
    rewrite H. eauto.
  - intros c p v t H. unfold setTargetAtTime, bind, gets, assert, toSeconds.
    destruct (isFinite c && (Fin 0 <? c)%num); [rewrite H |]; eauto.
  - intros p t H. unfold cancelScheduledValues, bind, assert, toSeconds.
    rewrite H. eauto.
  - intros p t H. unfold cancelAndHoldAtTime, bind, gets, assert, toSeconds.
    rewrite H. eauto.
Qed.

(** C3, amended.  For every finite [t] and every ordered store,
    [cancelAndHoldAtTime(t)] returns, leaves [getValueAtTime(t)] as it was up
    to the round trip through the units of the parameter, and leaves no
    event after [t] in the store, provided the held value is a finite number
    when a ramp that follows [t] is replayed up to [t]. *)
Theorem cancel_and_hold_keeps_value (p : Param) (t : R) :
  ordered (_events p) ->
  (reanchors p (Fin t) = true ->
   isFinite (_fromType p (_toType p (held_value p (Fin t)))) = true) ->
  exists p',
    cancelAndHoldAtTime (Fin t) p = Ret tt p'
    /\ getValueAtTime p' (Fin t)
       = _toType p (_fromType p (getValueAtTime p (Fin t)))
    /\ Forall (fun e => (Fin t <? time e)%num = false)
              (Timeline._timeline (_events p')).
Proof.
  intros Ho Hfin.
  destruct (cancelAndHoldAtTime_returns p t Ho Hfin)
    as (p' & Hret & Hs & Ho' & Hends).
  exists p'. split; [exact Hret |]. split.
  - rewrite (getValueAtTime_held p' (Fin t) (Fin t) _ Hends); auto.
    + now rewrite (toType_same_setup p p').
    + simpl. apply Rle_b_true. lra.
    + now apply leb_Math_max_0.
  - apply ends_with_all_upto in Hends.
    + eapply Forall_impl; [| exact Hends]. intros e. apply leb_ltb_false.
    + simpl. apply Rle_b_true. lra.
Qed.

Lemma last_opt_In {A : Type} (l : list A) (x : A) :
  Timeline.last_opt l = Some x -> In x l.
Proof.
  unfold Timeline.last_opt. intros H. apply in_rev.
  destruct (rev l); [discriminate |]. injection H as ->. now left.
Qed.

Lemma get_In (t : num) (s : Timeline.t) (b : AutomationEvent) :
  Timeline.get t s = Some b ->
  In b (filter (fun e => (time e <=? t)%num) (Timeline._timeline s)).
Proof. apply last_opt_In. Qed.

Lemma cancel_none_after (r st : R) (s : Timeline.t) :
  ordered s -> 0 < st -> Timeline.getAfter (Fin r) s = None ->
  Timeline.cancel (Fin r + Fin st) s = upto (Fin r) s.
Proof.
  intros [Hf _] Hst Ha. unfold Timeline.cancel, upto. f_equal.
  pose proof (getAfter_none_all_upto r s Hf Ha) as Hup.
  rewrite (filter_all (fun e => (time e <=? Fin r)%num)) by exact Hup.
  apply filter_all. eapply Forall_impl; [| exact Hup]. intros e He.
  cbv beta in He.
  destruct (time e); simpl in *; try discriminate; auto.
  apply Rle_b_spec in He. rewrite Rle_b_false; auto. lra.
Qed.

Lemma cancel_some_after (r : R) (s : Timeline.t) (a : AutomationEvent) :
  ordered s -> Timeline.getAfter (Fin r) s = Some a ->
  Timeline.cancel (time a) s = upto (Fin r) s.
Proof.
  intros Ho Ha. unfold upto. rewrite <- (cancel_getAfter r s a Ho Ha).
  reflexivity.
Qed.

Lemma cancelAndHoldAtTime_at_event (p : Param) (t st : R) (b : AutomationEvent) :
  ordered (_events p) ->
  sampleTime p = Fin st -> 0 < st ->
  Timeline.get (Fin t) (_events p) = Some b -> time b = Fin t ->
  exists p',
    cancelAndHoldAtTime (Fin t) p = Ret tt p'
    /\ _events p'
       = Timeline.add (NormalAutomationEvent AutomationType.setValueAtTime
                                             (Fin t) (held_value p (Fin t)))
                      (upto (Fin t) (_events p)).
Proof.
  intros Ho Hst Hpos Hb Hbt.
  unfold cancelAndHoldAtTime, bind, gets, assert, sink, toSeconds.
  cbn [isFinite set_param _events sampleTime].
  fold (held_value p (Fin t)). rewrite Hb, Hbt. simpl (Fin t === Fin t)%num.
  rewrite Req_b_true by reflexivity.
  destruct (Timeline.getAfter (Fin t) (_events p)) as [a |] eqn:Ea.
  - unfold events_cancel, events_add. cbn [_events set_events set_param].
    rewrite (cancel_some_after t _ a Ho Ea).
    eexists. split; reflexivity.
  - unfold events_cancel, events_add.
    cbn [_events set_events set_param sampleTime].
    rewrite Hst, (cancel_none_after t st _ Ho Hpos Ea).
    eexists. split; reflexivity.
Qed.

(** An event that the store gives for [t] is still there after the cut at
    [t] and the insertion of a later event, when no event is evicted. *)
Lemma add_upto_In (s : Timeline.t) (t : R) (b e : AutomationEvent) :
  Timeline.get (Fin t) s = Some b -> time e = Fin t ->
  (length (Timeline._timeline s) < Timeline.memory s)%nat ->
  In b (Timeline._timeline (Timeline.add e (upto (Fin t) s))).
Proof.
  intros Hb He Hlen.
  rewrite add_last by (rewrite He; apply all_upto_filter_leb).
  apply in_or_app. left. unfold kept. simpl.
  pose proof (filter_length_le (fun e => (time e <=? Fin t)%num)
                               (Timeline._timeline s)) as Hle.
  destruct (_ <=? _)%nat eqn:E.
  - apply Nat.leb_le in E. lia.
  - apply (get_In _ _ _ Hb).
Qed.

(** C4, amended.  When an event is recorded at exactly [t],
    [cancelAndHoldAtTime(t)] removes the events after [t] and keeps the
    events at [t]; it then records, behind them, a [setValueAtTime] at [t]
    with the value that [getValueAtTime] computes at [t].  After the call no
    event is after [t] and the event that the store gives for [t] is the new
    one. *)
Theorem cancel_and_hold_at_event (p : Param) (t st : R) (b : AutomationEvent) :
  ordered (_events p) ->
  sampleTime p = Fin st -> 0 < st ->
  Timeline.get (Fin t) (_events p) = Some b -> time b = Fin t ->
  let hold := NormalAutomationEvent AutomationType.setValueAtTime (Fin t)
                                    (held_value p (Fin t)) in
  exists p',
    cancelAndHoldAtTime (Fin t) p = Ret tt p'
    /\ _events p' = Timeline.add hold (upto (Fin t) (_events p))
    /\ Timeline.get (Fin t) (_events p') = Some hold
    /\ Forall (fun e => (Fin t <? time e)%num = false)
              (Timeline._timeline (_events p'))
    /\ ((length (Timeline._timeline (_events p)) < Timeline.memory (_events p))%nat ->
        In b (Timeline._timeline (_events p'))).
Proof.
  intros Ho Hst Hpos Hb Hbt hold.
  destruct (cancelAndHoldAtTime_at_event p t st b Ho Hst Hpos Hb Hbt)
    as (p' & Hret & Hev).
  fold hold in Hev.
  assert (Hup : all_upto (Fin t) (Timeline._timeline (upto (Fin t) (_events p)))).
  { apply all_upto_filter_leb. }
  pose proof (add_last hold _ Hup) as Hl.
  exists p'. split; [exact Hret |]. split; [exact Hev |].
  split; [| split].
  - rewrite Hev. eapply get_last; [exact Hl |].
    simpl. apply Rle_b_true. lra.
  - rewrite Hev, Hl. apply Forall_app. split.
    + eapply Forall_impl; [| apply all_upto_kept, Hup].
      intros e. apply leb_ltb_false.
    + constructor; [| constructor]. simpl. apply Rlt_b_false. lra.
  - intros Hlen. rewrite Hev. now apply add_upto_In.
Qed.

(** *** setRampPoint *)

Lemma setRampPoint_returns (p : Param) (t : R) :
  ordered (_events p) ->
  (reanchors p (Fin t) = true ->
   isFinite (_fromType p (_toType p (held_value p (Fin t)))) = true) ->
  isFinite (_fromType p (ramp_point_value p (Fin t))) = true ->
  exists p',
    setRampPoint (Fin t) p = Ret tt p'
    /\ same_setup p p'
    /\ ordered (_events p')
    /\ ends_with (Fin t)
         (NormalAutomationEvent AutomationType.setValueAtTime (Fin t)
                                (_fromType p (ramp_point_value p (Fin t))))
         (_events p').
Proof.
  intros Ho Hfin Hv.
  destruct (cancelAndHoldAtTime_returns p t Ho Hfin)
    as (p1 & Hret & Hs1 & Ho1 & Hends1).
  unfold setRampPoint, toSeconds.
  unfold bind at 1. unfold gets at 1. unfold bind at 1. rewrite Hret.
  unfold bind at 1. unfold gets at 1.
  rewrite (fromType_same_setup p p1), (toType_same_setup p p1) by auto.
  fold (ramp_point_value p (Fin t)).
  rewrite setValueAtTime_returns;
    rewrite ?(fromType_same_setup p p1) by auto; auto.
  eexists. split; [reflexivity |].
  assert (Hup1 : all_upto (Fin t) (Timeline._timeline (_events p1))).
  { eapply ends_with_all_upto; [exact Hends1 |]. simpl. apply Rle_b_true. lra. }
  pose proof (add_hold p1 (sink_setValueAtTime
                             (_fromType p (ramp_point_value p (Fin t))) (Fin t))
                       t (_fromType p (ramp_point_value p (Fin t))) Ho1 Hup1)
    as (Hs2 & Ho2 & He2).
  split; [eapply same_setup_trans; eauto | split; auto].
Qed.

(** [linearRampTo] from the ramp point: the ramp starts from the value that
    [setRampPoint] schedules. *)
Lemma linearRampTo_returns (p : Param) (v : num) (t ramp start : R) :
  ordered (_events p) ->
  (reanchors p (Fin t) = true ->
   isFinite (_fromType p (_toType p (held_value p (Fin t)))) = true) ->
  _fromType p (ramp_point_value p (Fin t)) = Fin start ->
  isFinite (_fromType p v) = true -> 0 <= t -> 0 < ramp ->
  (2 <= Timeline.memory (_events p))%nat ->
  exists p'',
    linearRampTo v (Fin ramp) (Some (Fin t)) p = Ret tt p''
    /\ Timeline.get (Fin t) (_events p'')
       = Some (NormalAutomationEvent AutomationType.setValueAtTime
                                     (Fin t) (Fin start))
    /\ getValueAtTime p'' (Fin t) = _toType p (Fin start).
Proof.
  intros Ho Hfin Hrpv Hv Ht Hramp Hm.
  destruct (setRampPoint_returns p t Ho Hfin) as (p1 & Hret & Hs1 & Ho1 & He1).
  { now rewrite Hrpv. }
  rewrite Hrpv in He1.
  unfold linearRampTo, toSeconds_opt, toSeconds.
  unfold bind at 1. unfold gets at 1. unfold bind at 1. rewrite Hret.
  destruct (_fromType p v) as [x | | |] eqn:Ex; try discriminate.
  simpl (Fin t + Fin ramp)%num.
  rewrite linearRampToValueAtTime_returns;
    rewrite ?(fromType_same_setup p p1), ?Ex by auto; auto.
  eexists. split; [reflexivity |].
  set (e1 := NormalAutomationEvent AutomationType.setValueAtTime
                                   (Fin t) (Fin start)) in *.
  set (e2 := NormalAutomationEvent AutomationType.linearRampToValueAtTime
                                   (Fin (t + ramp)) (Fin x)).
  destruct (ends_with_add_later (_events p1) (Fin t) e1 e2 He1) as (l & Hl & Hl0).
  { simpl. apply Rle_b_true. lra. }
  { simpl. apply Rle_b_true. lra. }
  { destruct Hs1 as (_ & _ & _ & _ & _ & _ & Hmem). rewrite Hmem. exact Hm. }
  split.
  { unfold Timeline.get. rewrite record_events, Hl, filter_two_trailing.
    - apply last_opt_app.
    - eapply Forall_impl; [| exact Hl0]. auto.
    - simpl. apply Rle_b_true. lra.
    - simpl. apply Rle_b_false. lra. }
  rewrite (getValueAtTime_linear_segment _ l e1 t (t + ramp) t (Fin x));
    auto; try lra.
  rewrite (toType_same_setup p1), (toType_same_setup p p1) by
      (auto; apply record_same_setup).
  simpl (value e1). rewrite linearInterpolate_fin by lra.
  do 2 f_equal. field. lra.
Qed.

(** C5, amended.  [setRampPoint(t)] computes the value at [t], calls
    [cancelAndHoldAtTime(t)] and schedules a [setValueAtTime] at [t]; when
    the held raw value is exactly zero it schedules the minimum output
    [1e-7] in its place whatever ramp follows: after [linearRampTo] too the
    value at the start of the ramp is [1e-7] (in the units of the
    parameter). *)
Theorem ramp_point_substitutes_zero (p : Param) (t : R) :
  ordered (_events p) ->
  (reanchors p (Fin t) = true ->
   isFinite (_fromType p (_toType p (held_value p (Fin t)))) = true) ->
  held_value p (Fin t) = Fin 0 ->
  forall floor : R,
  _fromType p (_toType p _minOutput) = Fin floor ->
  (exists p',
      setRampPoint (Fin t) p = Ret tt p'
      /\ Timeline.get (Fin t) (_events p')
         = Some (NormalAutomationEvent AutomationType.setValueAtTime
                                       (Fin t) (Fin floor))
      /\ getValueAtTime p' (Fin t) = _toType p (Fin floor))
  /\ (forall (v : num) (ramp : R),
        isFinite (_fromType p v) = true -> 0 <= t -> 0 < ramp ->
        (2 <= Timeline.memory (_events p))%nat ->
        exists p'',
          linearRampTo v (Fin ramp) (Some (Fin t)) p = Ret tt p''
          /\ Timeline.get (Fin t) (_events p'')
             = Some (NormalAutomationEvent AutomationType.setValueAtTime
                                           (Fin t) (Fin floor))
          /\ getValueAtTime p'' (Fin t) = _toType p (Fin floor))
  /\ (unconverted p -> floor = 1e-7).
Proof.
  intros Ho Hfin Hzero floor Hfloor.
  assert (Hrpv : _fromType p (ramp_point_value p (Fin t)) = Fin floor).
  { unfold ramp_point_value. fold (held_value p (Fin t)). rewrite Hzero.
    simpl (Fin 0 === Fin 0)%num. rewrite Req_b_true by reflexivity.
    exact Hfloor. }
  split; [| split].
  - destruct (setRampPoint_returns p t Ho Hfin) as (p1 & Hret & Hs1 & Ho1 & He1).
    { now rewrite Hrpv. }
    rewrite Hrpv in He1.
    exists p1. split; [exact Hret |]. split.
    + destruct He1 as (l & Hl & Hup). eapply get_last; [exact Hl |].
      simpl. apply Rle_b_true. lra.
    + rewrite (getValueAtTime_held p1 (Fin t) (Fin t) _ He1); auto.
      * now rewrite (toType_same_setup p p1).
      * simpl. apply Rle_b_true. lra.
      * now apply leb_Math_max_0.
  - intros v ramp Hv Ht Hramp Hm.
    now apply linearRampTo_returns.
  - intros Hu. rewrite !unconverted_fromType, unconverted_toType in Hfloor by auto.
    unfold _minOutput in Hfloor. now injection Hfloor as <-.
Qed.

(** *** exponentialApproachValueAtTime *)

Lemma ln_200_pos : 0 < ln 200.
Proof. rewrite <- ln_1. apply ln_increasing; lra. Qed.

Lemma timeConstant_fin (ramp : R) :
  0 < ramp ->
  (Math_log (Fin ramp + Fin 1) / Math_log (Fin 200))%num
  = Fin (ln (ramp + 1) / ln 200)
  /\ 0 < ln (ramp + 1) / ln 200.
Proof.
  intros H. pose proof ln_200_pos as H200.
  assert (Hln : 0 < ln (ramp + 1)).
  { rewrite <- ln_1. apply ln_increasing; lra. }
  split.
  - simpl. rewrite !Rlt_b_true by lra. simpl.
    rewrite Req_b_false by lra. reflexivity.
  - now apply Rdiv_lt_0_compat.
Qed.

Lemma reanchors_none_after (p : Param) (t : num) :
  all_upto t (Timeline._timeline (_events p)) -> reanchors p t = false.
Proof.
  intros H. unfold reanchors. rewrite (getAfter_none _ _ H).
  apply andb_false_r.
Qed.

(** C9. [exponentialApproachValueAtTime(value, time, rampTime)] is, in
    this order, [setTargetAtTime] at [time] with the time constant
    [ln(rampTime + 1) / ln(200)], [cancelAndHoldAtTime] at
    [time + 0.9 * rampTime] and [linearRampToValueAtTime] to [value] at
    [time + rampTime]; the call returns and then the value at
    [time + rampTime] is [value] (up to the round trip through the units of
    the parameter, and exactly without conversion).  This for a ramp time
    above zero, a finite converted value and an ordered store, provided the
    held value is a finite number when the hold has a ramp to replay. *)
Theorem exponential_approach_arrives (p : Param) (v : num) (t ramp : R) :
  ordered (_events p) -> 0 < ramp -> isFinite (_fromType p v) = true ->
  let timeConstant := Fin (ln (ramp + 1) / ln 200) in
  let afterTarget :=
    record (TargetAutomationEvent (Fin t) (_fromType p v) timeConstant)
           (sink_setTargetAtTime (_fromType p v) (Fin t) timeConstant) p in
  let holdTime := Fin (t + ramp * 0.9) in
  (reanchors afterTarget holdTime = true ->
   isFinite (_fromType p (_toType p (held_value afterTarget holdTime))) = true) ->
  exponentialApproachValueAtTime v (Fin t) (Fin ramp)
  = (setTargetAtTime v (Fin t) timeConstant ;;
     cancelAndHoldAtTime holdTime ;;
     linearRampToValueAtTime v (Fin (t + ramp)))
  /\ exists p',
      exponentialApproachValueAtTime v (Fin t) (Fin ramp) p = Ret tt p'
      /\ getValueAtTime p' (Fin (t + ramp)) = _toType p (_fromType p v)
      /\ (unconverted p -> getValueAtTime p' (Fin (t + ramp)) = v).
Proof.
  intros Ho Hramp Hv timeConstant p1 holdTime Hfin.
  destruct (timeConstant_fin ramp Hramp) as [Htc Htcpos].
  assert (Hsteps : exponentialApproachValueAtTime v (Fin t) (Fin ramp)
                   = (setTargetAtTime v (Fin t) timeConstant ;;
                      cancelAndHoldAtTime holdTime ;;
                      linearRampToValueAtTime v (Fin (t + ramp)))).
  { unfold exponentialApproachValueAtTime, toSeconds. rewrite Htc. reflexivity. }
  split; [exact Hsteps |]. rewrite Hsteps.
  unfold bind at 1.
  rewrite setTargetAtTime_returns; auto;
    [| simpl; now apply Rlt_b_true].
  fold timeConstant. fold p1.
  assert (Hs1 : same_setup p p1) by (unfold p1; apply record_same_setup).
  assert (Ho1 : ordered (_events p1)).
  { unfold p1. rewrite record_events. now apply ordered_add. }
  destruct (cancelAndHoldAtTime_returns p1 (t + ramp * 0.9) Ho1)
    as (p2 & Hret & Hs2 & Ho2 & He2).
  { intros H.
    rewrite (fromType_same_setup p p1), (toType_same_setup p p1) by auto.
    apply Hfin, H. }
  unfold bind at 1. fold holdTime in Hret. rewrite Hret.
  assert (Hs : same_setup p p2) by exact (same_setup_trans _ _ _ Hs1 Hs2).
  rewrite linearRampToValueAtTime_returns;
    rewrite ?(fromType_same_setup p p2) by auto; auto.
  set (e := NormalAutomationEvent AutomationType.linearRampToValueAtTime
                                  (Fin (t + ramp)) (_fromType p v)).
  set (p3 := record e _ p2).
  assert (Hup2 : all_upto (Fin (t + ramp * 0.9)) (Timeline._timeline (_events p2))).
  { eapply ends_with_all_upto; [exact He2 |]. simpl. apply Rle_b_true. lra. }
  assert (He3 : ends_with (Fin (t + ramp)) e (_events p3)).
  { apply (add_ends_with e). eapply all_upto_weaken; [| exact Hup2].
    simpl. apply Rle_b_true. lra. }
  assert (Hval : getValueAtTime p3 (Fin (t + ramp)) = _toType p (_fromType p v)).
  { rewrite (getValueAtTime_held p3 (Fin (t + ramp)) (Fin (t + ramp)) e He3); auto.
    - rewrite (toType_same_setup p2), (toType_same_setup p p2); auto.
      apply record_same_setup.
    - simpl. apply Rle_b_true. lra.
    - now apply leb_Math_max_0. }
  exists p3. split; [reflexivity |]. split; [exact Hval |].
  intros Hu. rewrite Hval.
  now rewrite unconverted_toType, unconverted_fromType.
Qed.

(** *** setValueCurveAtTime *)

Lemma record_all_same_setup (events : list AutomationEvent) (p : Param) :
  same_setup p (record_all events p).
Proof.
  revert p. induction events as [| e es IH]; intros p; simpl.
  - apply same_setup_refl.
  - eapply same_setup_trans; [apply record_same_setup | apply IH].
Qed.

Lemma setValueCurve_loop_returns (p : Param) (scaling : num) (s seg : R)
      (samples : list num) :
  Forall (fun v => isFinite (curve_raw p scaling v) = true) samples ->
  forall (i : nat) (q : Param),
    same_setup p q ->
    setValueCurve_loop samples i (Fin s) (Fin seg) scaling q
    = Ret tt (record_all (curve_ramps (curve_raw p scaling) samples i s seg) q).
Proof.
  induction 1 as [| v rest Hv _ IH]; intros i q Hq; [reflexivity |].
  cbn [setValueCurve_loop curve_ramps]. unfold bind at 1. unfold gets at 1.
  unfold bind at 1. unfold gets at 1. unfold bind at 1.
  simpl (Fin s + Fin (INR i) * Fin seg)%num.
  assert (Hraw : _fromType q (_toType q (_fromType q v * scaling)%num)
                 = curve_raw p scaling v).
  { unfold curve_raw.
    now rewrite !(fromType_same_setup p q), (toType_same_setup p q). }
  rewrite linearRampToValueAtTime_returns by (rewrite ?Hraw; auto).
  rewrite Hraw. apply IH.
  eapply same_setup_trans; [exact Hq | apply record_same_setup].
Qed.

Lemma curve_ramps_length (raw : num -> num) (samples : list num) (i : nat)
      (s seg : R) :
  length (curve_ramps raw samples i s seg) = length samples.
Proof.
  revert i. induction samples as [| v rest IH]; intros i; simpl; auto.
Qed.

Lemma curve_ramps_nth (raw : num -> num) (samples : list num) (s seg : R)
      (d : AutomationEvent) :
  forall (i j : nat),
    (j < length samples)%nat ->
    nth j (curve_ramps raw samples i s seg) d
    = NormalAutomationEvent AutomationType.linearRampToValueAtTime
        (Fin (s + INR (i + j) * seg)) (raw (nth j samples NaN)).
Proof.
  induction samples as [| v rest IH]; intros i j Hj; simpl in Hj; [lia |].
  destruct j as [| j]; cbn [curve_ramps nth].
  - now rewrite Nat.add_0_r.
  - rewrite IH by lia. now replace (S i + j)%nat with (i + S j)%nat by lia.
Qed.

(** C8. For a list of [n >= 2] samples, [setValueCurveAtTime(values,
    startTime, duration, scaling)] records, in this order, one
    [setValueAtTime] at [startTime] for [values[0]] and then [n - 1] linear
    ramps, the [i]-th at [startTime + i * (duration / (n - 1))] for
    [values[i]]; the raw values are the samples times [scaling] on a
    parameter without unit conversion (in general the scaled raw value goes
    through the units of the parameter and back before it is stored). *)
Theorem value_curve_events (p : Param) (values : list num) (startTime duration : R)
        (scaling : num) :
  (2 <= length values)%nat ->
  Forall (fun v => isFinite (curve_raw p scaling v) = true) values ->
  let raw := curve_raw p scaling in
  let events := curve_events raw values startTime duration in
  setValueCurveAtTime values (Fin startTime) (Fin duration) scaling p
  = Ret tt (record_all events p)
  /\ length events = length values
  /\ nth 0 events (TargetAutomationEvent NaN NaN NaN)
     = NormalAutomationEvent AutomationType.setValueAtTime (Fin startTime)
                             (raw (nth 0 values NaN))
  /\ (forall i, (1 <= i < length values)%nat ->
        nth i events (TargetAutomationEvent NaN NaN NaN)
        = NormalAutomationEvent AutomationType.linearRampToValueAtTime
            (Fin (startTime + INR i * (duration / (INR (length values) - 1))))
            (raw (nth i values NaN)))
  /\ (unconverted p ->
      forall x k : R, curve_raw p (Fin k) (Fin x) = Fin (x * k)).
Proof.
  intros Hn Hfin raw events.
  destruct values as [| v0 rest]; [simpl in Hn; lia |].
  inversion Hfin as [| ? ? Hv0 Hrest]; subst.
  assert (Hlen : INR (length (v0 :: rest)) - 1 <> 0).
  { apply le_INR in Hn. simpl (INR 2) in Hn. lra. }
  split; [| split; [| split; [| split]]].
  - unfold setValueCurveAtTime, toSeconds.
    unfold bind at 1. unfold gets at 1. unfold bind at 1. unfold gets at 1.
    unfold bind at 1. cbn [nth tl].
    rewrite setValueAtTime_returns; auto.
    fold (curve_raw p scaling v0).
    replace (Fin duration / (Fin (INR (length (v0 :: rest))) - Fin 1))%num
      with (Fin (duration / (INR (length (v0 :: rest)) - 1))).
    + rewrite (setValueCurve_loop_returns p); auto.
      apply record_same_setup.
    + unfold sub. cbn [neg add div].
      rewrite Req_b_false by exact Hlen. reflexivity.
  - unfold events. simpl. now rewrite curve_ramps_length.
  - reflexivity.
  - intros i [Hi1 Hi2]. unfold events. cbn [curve_events].
    destruct i as [| i]; [lia |]. cbn [nth].
    rewrite curve_ramps_nth by (simpl in Hi2; lia).
    reflexivity.
  - intros Hu x k. unfold curve_raw.
    now rewrite !unconverted_fromType, unconverted_toType.
Qed.

(** ** Further properties *)

(** *** The order of the store is kept *)

Lemma ordered_events_cancel (t : num) : preserves ordered (events_cancel t).
Proof. intros p Hp. now apply ordered_cancel. Qed.

Lemma ordered_events_add (e : AutomationEvent) :
  isFinite (time e) = true -> preserves ordered (events_add e).
Proof. intros He p Hp. now apply ordered_add. Qed.

(** A call that throws at once keeps every invariant. *)
Lemma preserves_throw {A : Type} (I : Timeline.t -> Prop) (m : M A) :
  (forall p, exists msg, m p = Throw msg p) -> preserves I m.
Proof. intros H p Hp. destruct (H p) as (msg & ->). exact Hp. Qed.

Ltac ordered_step :=
  first [ apply preserves_bind; [| intros ?]
        | apply preserves_gets | apply preserves_ret
        | apply preserves_assert | apply preserves_sink
        | apply ordered_events_cancel
        | apply ordered_events_add; reflexivity ].

Lemma ordered_setValueAtTime (v t : num) : preserves ordered (setValueAtTime v t).
Proof.
  destruct t as [r | | |]; unfold setValueAtTime, toSeconds;
    [repeat ordered_step | | |];
    apply preserves_throw; intros p; unfold bind, gets, assert;
    rewrite andb_false_r; eauto.
Qed.

Lemma ordered_linearRampToValueAtTime (v t : num) :
  preserves ordered (linearRampToValueAtTime v t).
Proof.
  destruct t as [r | | |]; unfold linearRampToValueAtTime, toSeconds;
    [repeat ordered_step | | |];
    apply preserves_throw; intros p; unfold bind, gets, assert;
    rewrite andb_false_r; eauto.
Qed.

Lemma ordered_exponentialRampToValueAtTime (v t : num) :
  preserves ordered (exponentialRampToValueAtTime v t).
Proof.
  destruct t as [r | | |]; unfold exponentialRampToValueAtTime, toSeconds;
    [repeat ordered_step | | |];
    apply preserves_throw; intros p; unfold bind, gets, assert;
    rewrite andb_false_r; eauto.
Qed.

Lemma ordered_setTargetAtTime (v t c : num) :
  preserves ordered (setTargetAtTime v t c).
Proof.
  destruct t as [r | | |]; unfold setTargetAtTime, toSeconds;
    [repeat ordered_step | | |];
    apply preserves_throw; intros p; unfold bind, gets, assert;
    rewrite andb_false_r; destruct (isFinite c && (Fin 0 <? c)%num); eauto.
Qed.

Lemma ordered_cancelScheduledValues (t : num) :
  preserves ordered (cancelScheduledValues t).
Proof. unfold cancelScheduledValues. repeat ordered_step. Qed.

Lemma ordered_cancelAndHoldAtTime (t : num) :
  preserves ordered (cancelAndHoldAtTime t).
Proof.
  destruct t as [r | | |]; unfold cancelAndHoldAtTime, toSeconds;
    [| apply preserves_throw; intros p; unfold bind, gets, assert; simpl; eauto ..].
  repeat ordered_step.
  match goal with
  | |- preserves _ (if ?c then _ else _) => destruct c
  end;
    match goal with
    | |- preserves _ (match ?o with Some _ => _ | None => _ end) =>
        destruct o as [after |]
    end; repeat ordered_step.
  destruct (is_linearRampToValueAtTime after);
    [| destruct (is_exponentialRampToValueAtTime after)];
    repeat first [ apply ordered_linearRampToValueAtTime
                 | apply ordered_exponentialRampToValueAtTime
                 | ordered_step ].
Qed.

Ltac ordered_calls :=
  repeat first [ apply ordered_setValueAtTime
               | apply ordered_linearRampToValueAtTime
               | apply ordered_exponentialRampToValueAtTime
               | apply ordered_setTargetAtTime
               | apply ordered_cancelScheduledValues
               | apply ordered_cancelAndHoldAtTime
               | ordered_step ].

Lemma ordered_setRampPoint (t : num) : preserves ordered (setRampPoint t).
Proof. unfold setRampPoint. ordered_calls. Qed.

Lemma ordered_linearRampTo (v ramp : num) (start : option Time) :
  preserves ordered (linearRampTo v ramp start).
Proof.
  unfold linearRampTo.
  repeat first [ apply ordered_setRampPoint | ordered_calls ].
Qed.

Lemma ordered_exponentialRampTo (v ramp : num) (start : option Time) :
  preserves ordered (exponentialRampTo v ramp start).
Proof.
  unfold exponentialRampTo.
  repeat first [ apply ordered_setRampPoint | ordered_calls ].
Qed.

Lemma ordered_exponentialApproachValueAtTime (v t ramp : num) :
  preserves ordered (exponentialApproachValueAtTime v t ramp).
Proof. unfold exponentialApproachValueAtTime. ordered_calls. Qed.

Lemma ordered_targetRampTo (v ramp : num) (start : option Time) :
  preserves ordered (targetRampTo v ramp start).
Proof.
  unfold targetRampTo.
  repeat first [ apply ordered_setRampPoint
               | apply ordered_exponentialApproachValueAtTime
               | ordered_step ].
Qed.

Lemma ordered_rampTo (v ramp : num) (start : option Time) :
  preserves ordered (rampTo v ramp start).
Proof.
  unfold rampTo. apply preserves_bind; [apply preserves_gets | intros u].
  destruct u; first [apply ordered_exponentialRampTo | apply ordered_linearRampTo].
Qed.

Lemma ordered_setValueCurve_loop (values : list num) :
  forall (i : nat) (s seg scaling : num),
    preserves ordered (setValueCurve_loop values i s seg scaling).
Proof.
  induction values as [| v rest IH]; intros i s seg scaling; simpl.
  - apply preserves_ret.
  - repeat first [ apply IH | apply ordered_linearRampToValueAtTime | ordered_step ].
Qed.

Lemma ordered_setValueCurveAtTime (values : list num) (s d scaling : num) :
  preserves ordered (setValueCurveAtTime values s d scaling).
Proof.
  unfold setValueCurveAtTime.
  repeat first [ apply ordered_setValueCurve_loop | apply ordered_setValueAtTime
               | ordered_step ].
Qed.

Lemma ordered_set_value (v : num) : preserves ordered (set_value v).
Proof.
  unfold set_value. apply preserves_bind; [apply preserves_gets | intros raw].
  apply preserves_bind; [intros p Hp; exact Hp | intros _].
  ordered_calls.
Qed.

(** X1. Every scheduling method, and the assignment of [value], leaves
    the store in time order with finite times, whether the call returns or
    throws. *)
Theorem scheduling_keeps_order (p : Param) :
  ordered (_events p) ->
  (forall v t, ordered (_events (state_of (setValueAtTime v t p))))
  /\ (forall v t, ordered (_events (state_of (linearRampToValueAtTime v t p))))
  /\ (forall v t, ordered (_events (state_of (exponentialRampToValueAtTime v t p))))
  /\ (forall v t c, ordered (_events (state_of (setTargetAtTime v t c p))))
  /\ (forall t, ordered (_events (state_of (cancelScheduledValues t p))))
  /\ (forall t, ordered (_events (state_of (cancelAndHoldAtTime t p))))
  /\ (forall t, ordered (_events (state_of (setRampPoint t p))))
  /\ (forall v r s, ordered (_events (state_of (linearRampTo v r s p))))
  /\ (forall v r s, ordered (_events (state_of (exponentialRampTo v r s p))))
  /\ (forall v r s, ordered (_events (state_of (targetRampTo v r s p))))
  /\ (forall v r s, ordered (_events (state_of (rampTo v r s p))))
  /\ (forall v t r,
        ordered (_events (state_of (exponentialApproachValueAtTime v t r p))))
  /\ (forall vs s d k,
        ordered (_events (state_of (setValueCurveAtTime vs s d k p))))
  /\ (forall v, ordered (_events (state_of (set_value v p)))).
Proof.
  intros Hp. repeat match goal with |- _ /\ _ => split end; intros.
  - now apply ordered_setValueAtTime.
  - now apply ordered_linearRampToValueAtTime.
  - now apply ordered_exponentialRampToValueAtTime.
  - now apply ordered_setTargetAtTime.
  - now apply ordered_cancelScheduledValues.
  - now apply ordered_cancelAndHoldAtTime.
  - now apply ordered_setRampPoint.
  - now apply ordered_linearRampTo.
  - now apply ordered_exponentialRampTo.
  - now apply ordered_targetRampTo.
  - now apply ordered_rampTo.
  - now apply ordered_exponentialApproachValueAtTime.
  - now apply ordered_setValueCurveAtTime.
  - now apply ordered_set_value.
Qed.

(** *** The floor of the exponential ramps is kept *)

Ltac floor_calls :=
  repeat first [ apply floor_setValueAtTime
               | apply floor_linearRampToValueAtTime
               | apply floor_exponentialRampToValueAtTime
               | apply floor_setTargetAtTime
               | apply floor_cancelScheduledValues
               | apply floor_cancelAndHoldAtTime
               | apply floor_setRampPoint
               | preserves_step ].

Lemma floor_linearRampTo (v ramp : num) (start : option Time) :
  preserves floor_kept (linearRampTo v ramp start).
Proof. unfold linearRampTo. floor_calls. Qed.

Lemma floor_exponentialRampTo (v ramp : num) (start : option Time) :
  preserves floor_kept (exponentialRampTo v ramp start).
Proof. unfold exponentialRampTo. floor_calls. Qed.

Lemma floor_exponentialApproachValueAtTime (v t ramp : num) :
  preserves floor_kept (exponentialApproachValueAtTime v t ramp).
Proof. unfold exponentialApproachValueAtTime. floor_calls. Qed.

Lemma floor_targetRampTo (v ramp : num) (start : option Time) :
  preserves floor_kept (targetRampTo v ramp start).
Proof.
  unfold targetRampTo.
  repeat first [ apply floor_exponentialApproachValueAtTime | floor_calls ].
Qed.

Lemma floor_rampTo (v ramp : num) (start : option Time) :
  preserves floor_kept (rampTo v ramp start).
Proof.
  unfold rampTo. apply preserves_bind; [apply preserves_gets | intros u].
  destruct u; first [apply floor_exponentialRampTo | apply floor_linearRampTo].
Qed.

Lemma floor_setValueCurve_loop (values : list num) :
  forall (i : nat) (s seg scaling : num),
    preserves floor_kept (setValueCurve_loop values i s seg scaling).
Proof.
  induction values as [| v rest IH]; intros i s seg scaling; simpl.
  - apply preserves_ret.
  - repeat first [ apply IH | floor_calls ].
Qed.

Lemma floor_setValueCurveAtTime (values : list num) (s d scaling : num) :
  preserves floor_kept (setValueCurveAtTime values s d scaling).
Proof.
  unfold setValueCurveAtTime.
  repeat first [ apply floor_setValueCurve_loop | floor_calls ].
Qed.

Lemma floor_set_value (v : num) : preserves floor_kept (set_value v).
Proof.
  unfold set_value. apply preserves_bind; [apply preserves_gets | intros raw].
  apply preserves_bind; [intros p Hp; exact Hp | intros _].
  floor_calls.
Qed.

(** X2. No method ever leaves an exponential ramp with a value below
    [1e-7] (zero in particular) in the store: the floor holds after every
    call, returned or thrown, when it held before. *)
Theorem exponential_floor_is_invariant (p : Param) :
  floor_kept (_events p) ->
  (forall v t, floor_kept (_events (state_of (setValueAtTime v t p))))
  /\ (forall v t, floor_kept (_events (state_of (linearRampToValueAtTime v t p))))
  /\ (forall v t,
        floor_kept (_events (state_of (exponentialRampToValueAtTime v t p))))
  /\ (forall v t c, floor_kept (_events (state_of (setTargetAtTime v t c p))))
  /\ (forall t, floor_kept (_events (state_of (cancelScheduledValues t p))))
  /\ (forall t, floor_kept (_events (state_of (cancelAndHoldAtTime t p))))
  /\ (forall t, floor_kept (_events (state_of (setRampPoint t p))))
  /\ (forall v r s, floor_kept (_events (state_of (linearRampTo v r s p))))
  /\ (forall v r s, floor_kept (_events (state_of (exponentialRampTo v r s p))))
  /\ (forall v r s, floor_kept (_events (state_of (targetRampTo v r s p))))
  /\ (forall v r s, floor_kept (_events (state_of (rampTo v r s p))))
  /\ (forall v t r,
        floor_kept (_events (state_of (exponentialApproachValueAtTime v t r p))))
  /\ (forall vs s d k,
        floor_kept (_events (state_of (setValueCurveAtTime vs s d k p))))
  /\ (forall v, floor_kept (_events (state_of (set_value v p)))).
Proof.
  intros Hp. repeat match goal with |- _ /\ _ => split end; intros.
  - now apply floor_setValueAtTime.
  - now apply floor_linearRampToValueAtTime.
  - now apply floor_exponentialRampToValueAtTime.
  - now apply floor_setTargetAtTime.
  - now apply floor_cancelScheduledValues.
  - now apply floor_cancelAndHoldAtTime.
  - now apply floor_setRampPoint.
  - now apply floor_linearRampTo.
  - now apply floor_exponentialRampTo.
  - now apply floor_targetRampTo.
  - now apply floor_rampTo.
  - now apply floor_exponentialApproachValueAtTime.
  - now apply floor_setValueCurveAtTime.
  - now apply floor_set_value.
Qed.

(** *** Insertion in the middle of the store *)

Lemma ltb_leb_trans (a b c : num) :
  (a <? b)%num = true -> (b <=? c)%num = true -> (a <? c)%num = true.
Proof.
  destruct a, b, c; simpl; try discriminate; auto.
  rewrite Rle_b_spec, !Rlt_b_spec. lra.
Qed.

(** The new event goes behind the events that are not later and before the
    later ones. *)
Lemma insert_split (e : AutomationEvent) (r : R) (l : list AutomationEvent) :
  finite_times l -> StronglySorted time_le l -> time e = Fin r ->
  exists l1 l2,
    Timeline.insert e l = l1 ++ e :: l2 /\ l = l1 ++ l2
    /\ all_upto (Fin r) l1
    /\ Forall (fun x => (Fin r <? time x)%num = true) l2.
Proof.
  intros Hf Hs He. induction Hs as [| x l Hs IH Hx]; simpl.
  - exists [], []. repeat split; constructor.
  - inversion Hf as [| ? ? Hfx Hfl]; subst. rewrite He.
    destruct (Fin r <? time x)%num eqn:E.
    + exists [], (x :: l). repeat split; try constructor; auto.
      eapply Forall_impl; [| exact Hx]. intros a Ha.
      eapply ltb_leb_trans; eauto.
    + destruct (IH Hfl) as (l1 & l2 & Hi & Hl & H1 & H2).
      exists (x :: l1), l2. rewrite Hi. split; [reflexivity |].
      split; [simpl; now f_equal |]. split; [| exact H2].
      constructor; auto.
      destruct (time x); simpl in *; try discriminate; auto.
      now apply ltb_false_leb.
Qed.

Lemma ordered_kept (s : Timeline.t) :
  ordered s -> finite_times (kept s) /\ StronglySorted time_le (kept s).
Proof.
  intros [Hf Hs]. unfold kept. destruct (_ <=? _)%nat; auto.
  destruct (Timeline._timeline s); auto.
  inversion Hf; inversion Hs; subst; auto.
Qed.

Lemma sorted_app_r (l1 l2 : list AutomationEvent) :
  StronglySorted time_le (l1 ++ l2) -> StronglySorted time_le l2.
Proof.
  induction l1 as [| x l1 IH]; simpl; auto. intros H. inversion H; auto.
Qed.

(** The lookups around an event that has only later events behind it. *)
Lemma get_middle (s : Timeline.t) (l1 l2 : list AutomationEvent)
      (e : AutomationEvent) (r q : R) :
  Timeline._timeline s = l1 ++ e :: l2 ->
  all_upto (Fin r) l1 -> time e = Fin r -> r <= q ->
  Forall (fun x => (Fin q <? time x)%num = true) l2 ->
  Timeline.get (Fin q) s = Some e
  /\ Timeline.getAfter (Fin q) s = hd_error l2.
Proof.
  intros Hl H1 He Hq H2.
  assert (Hrq : (Fin r <=? Fin q)%num = true) by (simpl; now apply Rle_b_true).
  assert (H1q : all_upto (Fin q) l1) by (eapply all_upto_weaken; eauto).
  unfold Timeline.get, Timeline.getAfter. rewrite Hl, !filter_app. simpl.
  rewrite He, Hrq, (leb_ltb_false _ _ Hrq). split.
  - rewrite (filter_all _ l1 H1q), filter_none.
    + apply last_opt_app.
    + eapply Forall_impl; [| exact H2]. intros x. apply ltb_leb_false.
  - rewrite filter_none, (filter_all _ l2 H2); auto.
    eapply Forall_impl; [| exact H1q]. intros x. apply leb_ltb_false.
Qed.

Lemma sorted_after_head (a : AutomationEvent) (l : list AutomationEvent) (q : R) :
  StronglySorted time_le (a :: l) -> (Fin q <? time a)%num = true ->
  Forall (fun x => (Fin q <? time x)%num = true) (a :: l).
Proof.
  intros Hs Ha. inversion Hs as [| ? ? _ Hx]; subst. constructor; auto.
  eapply Forall_impl; [| exact Hx]. intros x Hax.
  eapply ltb_leb_trans; eauto.
Qed.

(** *** setValueAtTime, read back *)

(** At the time of a [setValueAtTime] the ramp that follows it, if any, has
    not started. *)
Lemma interpolate_at_start (t ta v va : R) (w : num) :
  t < ta ->
  _linearInterpolate (Fin t) (Fin v) (Fin ta) (Fin va) (Fin t) = Fin v
  /\ _exponentialInterpolate (Fin t) (Fin v) (Fin ta) w (Fin t) = Fin v.
Proof.
  intros H. split.
  - rewrite linearInterpolate_fin by lra. f_equal. field. lra.
  - unfold _exponentialInterpolate, sub. cbn [neg add].
    replace (Fin (t + - t) / Fin (ta + - t))%num with (Fin 0).
    + replace (Math_pow (w / Fin v) (Fin 0)) with (Fin 1).
      * simpl. f_equal. lra.
      * unfold Math_pow. now rewrite Req_b_true.
    + simpl. rewrite Req_b_false by lra. f_equal. field. lra.
Qed.

(** X3. After [setValueAtTime(v, t)], [t >= 0], the value at [t] is [v]
    (through the units and back) whatever else is scheduled, and it stays
    [v] up to the next event unless that event is a ramp; with no next event
    it stays [v] for ever.  The store is ordered and its values finite. *)
Theorem setValueAtTime_reads_back (p : Param) (v : num) (t x : R) :
  ordered (_events p) -> finite_values (_events p) ->
  0 <= t -> _fromType p v = Fin x ->
  exists p',
    setValueAtTime v (Fin t) p = Ret tt p'
    /\ getValueAtTime p' (Fin t) = _toType p (Fin x)
    /\ (forall q, t <= q ->
        match Timeline.getAfter (Fin t) (_events p') with
        | None => True
        | Some next =>
            (Fin q <? time next)%num = true
            /\ is_linearRampToValueAtTime next
               || is_exponentialRampToValueAtTime next = false
        end ->
        getValueAtTime p' (Fin q) = _toType p (Fin x)).
Proof.
  intros Ho Hv Ht Hx.
  rewrite setValueAtTime_returns by (rewrite ?Hx; reflexivity). rewrite Hx.
  set (e := NormalAutomationEvent AutomationType.setValueAtTime (Fin t) (Fin x)).
  set (p' := record e _ p).
  destruct (ordered_kept _ Ho) as [Hkf Hks].
  destruct (insert_split e t (kept (_events p)) Hkf Hks eq_refl)
    as (l1 & l2 & Hi & Hk & H1 & H2).
  assert (Hl : Timeline._timeline (_events p') = l1 ++ e :: l2) by exact Hi.
  assert (Hs2 : StronglySorted time_le l2).
  { rewrite Hk in Hks. eapply sorted_app_r; eauto. }
  assert (Hkv : Forall (fun a => isFinite (value a) = true) (kept (_events p))).
  { unfold kept. destruct (_ <=? _)%nat; auto.
    destruct (Timeline._timeline (_events p)) eqn:E; auto.
    unfold finite_values in Hv. rewrite E in Hv. now inversion Hv. }
  assert (Htype : forall w, _toType p' w = _toType p w).
  { intros w. apply toType_same_setup. apply record_same_setup. }
  assert (Hread : forall q, t <= q ->
            Forall (fun a => (Fin q <? time a)%num = true) l2 ->
            match hd_error l2 with
            | None => True
            | Some next =>
                t = q \/ is_linearRampToValueAtTime next
                         || is_exponentialRampToValueAtTime next = false
            end ->
            getValueAtTime p' (Fin q) = _toType p (Fin x)).
  { intros q Hq Hq2 Hnext.
    destruct (get_middle (_events p') l1 l2 e t q Hl H1 eq_refl Hq Hq2)
      as [Hget Haft].
    unfold getValueAtTime, toSeconds. rewrite Math_max_0_nonneg by lra.
    rewrite Hget, Haft, Htype. cbn [is_setTargetAtTime andb].
    destruct l2 as [| a l2']; [reflexivity |]. cbn [hd_error] in *.
    destruct (is_linearRampToValueAtTime a || is_exponentialRampToValueAtTime a)
      eqn:Eramp; [| reflexivity].
    destruct Hnext as [<- | Hnext]; [| discriminate].
    assert (Hfa : isFinite (time a) = true /\ isFinite (value a) = true).
    { rewrite Hk in Hkf, Hkv. apply Forall_app in Hkf, Hkv.
      destruct Hkf as [_ Hkf], Hkv as [_ Hkv].
      inversion Hkf; inversion Hkv; auto. }
    inversion Hq2 as [| ? ? Hta _]; subst.
    destruct a as [ta va ca | ty ta va]; [discriminate |].
    destruct Hfa as [Hfta Hfva]. cbn [time value] in *.
    destruct ta as [ta | | |]; try discriminate.
    simpl in Hta. apply Rlt_b_spec in Hta.
    destruct (interpolate_at_start t ta x 0 va Hta) as [_ Hexp].
    destruct ty; try discriminate; cbn [is_linearRampToValueAtTime]; f_equal.
    - destruct va as [va | | |]; try discriminate.
      now destruct (interpolate_at_start t ta x va (Fin va) Hta).
    - exact Hexp. }
  exists p'. split; [reflexivity |]. split.
  - apply Hread; [lra | exact H2 |]. destruct (hd_error l2); auto.
  - intros q Hq Hnext.
    assert (Haft : Timeline.getAfter (Fin t) (_events p') = hd_error l2).
    { apply (get_middle (_events p') l1 l2 e t t Hl H1 eq_refl); [lra | exact H2]. }
    rewrite Haft in Hnext.
    apply Hread; auto.
    + destruct l2 as [| a l2']; [constructor |]. cbn [hd_error] in Hnext.
      apply sorted_after_head; [exact Hs2 | apply Hnext].
    + destruct (hd_error l2); auto. right. apply Hnext.
Qed.

(** *** cancelScheduledValues *)

Lemma cancel_timeline (t : R) (s : Timeline.t) :
  finite_times (Timeline._timeline s) ->
  Timeline._timeline (Timeline.cancel (Fin t) s)
  = filter (fun e => (time e <? Fin t)%num) (Timeline._timeline s).
Proof.
  intros Hf. unfold Timeline.cancel. simpl. apply filter_ext_in.
  intros e He. unfold finite_times in Hf. rewrite Forall_forall in Hf.
  specialize (Hf e He). destruct (time e); try discriminate. simpl.
  unfold Rle_b, Rlt_b. destruct (Rle_dec t r), (Rlt_dec r t); auto; lra.
Qed.

(** X4. [cancelScheduledValues(t)] removes the events at or after [t] and
    no other, forwards the cancellation to the native parameter, and from
    [t] on the value is the one held by the last event left, when that is
    not a target approach, or the initial value when no event is left. *)
Theorem cancelScheduledValues_truncates (p : Param) (t : R) :
  finite_times (Timeline._timeline (_events p)) ->
  exists p',
    cancelScheduledValues (Fin t) p = Ret tt p'
    /\ Timeline._timeline (_events p')
       = filter (fun e => (time e <? Fin t)%num) (Timeline._timeline (_events p))
    /\ calls (_param p') = calls (_param p) ++ [sink_cancelScheduledValues (Fin t)]
    /\ (forall q, t <= Rmax q 0 ->
        match Timeline.getBefore (Fin t) (_events p) with
        | None => getValueAtTime p' (Fin q) = _toType p (_initialValue p)
        | Some e =>
            is_setTargetAtTime e = false ->
            getValueAtTime p' (Fin q) = _toType p (value e)
        end).
Proof.
  intros Hf. eexists. split; [reflexivity |].
  match goal with |- Timeline._timeline (_events ?q) = _ /\ _ => set (p' := q) end.
  assert (Hl : Timeline._timeline (_events p')
               = filter (fun e => (time e <? Fin t)%num)
                        (Timeline._timeline (_events p))).
  { apply (cancel_timeline t (_events p) Hf). }
  split; [exact Hl |]. split; [reflexivity |].
  intros q Hq.
  assert (Hup : all_upto (Fin (Rmax q 0)) (Timeline._timeline (_events p'))).
  { rewrite Hl. unfold all_upto. rewrite Forall_forall. intros e He.
    apply filter_In in He. destruct He as [_ He].
    destruct (time e); simpl in *; try discriminate; auto.
    apply Rlt_b_spec in He. apply Rle_b_true. lra. }
  assert (Hget : Timeline.get (Fin (Rmax q 0)) (_events p')
                 = Timeline.getBefore (Fin t) (_events p)).
  { unfold Timeline.get, Timeline.getBefore.
    rewrite (filter_all _ _ Hup). now rewrite Hl. }
  unfold getValueAtTime, toSeconds. rewrite Math_max_0, Hget.
  rewrite (getAfter_none _ _ Hup).
  destruct (Timeline.getBefore (Fin t) (_events p)) as [e |]; [| reflexivity].
  intros He. now rewrite He.
Qed.

(** *** The value property *)

Lemma cancel_all_upto (t : R) (s : Timeline.t) :
  finite_times (Timeline._timeline s) ->
  all_upto (Fin t) (Timeline._timeline (Timeline.cancel (Fin t) s)).
Proof.
  intros Hf. rewrite cancel_timeline by exact Hf.
  unfold all_upto. rewrite Forall_forall. intros e He.
  apply filter_In in He. destruct He as [_ He].
  destruct (time e); simpl in *; try discriminate; auto.
  apply Rlt_b_spec in He. apply Rle_b_true. lra.
Qed.

(** X5. Assigning [value] and reading it back: when the converted value
    and the current time are finite, the assignment returns, the value read
    at the current time is the assigned one (through the units and back), it
    is the new initial value, and nothing is scheduled after the current
    time. *)
Theorem set_value_reads_back (p : Param) (v : num) (n x : R) :
  finite_times (Timeline._timeline (_events p)) ->
  now p = Fin n -> _fromType p v = Fin x ->
  exists p',
    set_value v p = Ret tt p'
    /\ get_value p' = _toType p (Fin x)
    /\ _initialValue p' = Fin x
    /\ all_upto (Fin n) (Timeline._timeline (_events p')).
Proof.
  intros Hf Hn Hx.
  unfold set_value, cancelScheduledValues.
  unfold bind, gets, assert, toSeconds, events_cancel, sink.
  cbn [now set_initialValue set_events set_param _events _param].
  rewrite Hn, Hx. cbn [isFinite].
  match goal with
  | |- exists p', setValueAtTime _ _ ?q = _ /\ _ => set (p1 := q)
  end.
  assert (Hs1 : _fromType p1 v = Fin x) by exact Hx.
  change (now p1) with (now p). rewrite Hn.
  rewrite setValueAtTime_returns by (rewrite ?Hs1; reflexivity). rewrite Hs1.
  set (e := NormalAutomationEvent AutomationType.setValueAtTime (Fin n) (Fin x)).
  eexists. split; [reflexivity |].
  match goal with |- get_value ?q = _ /\ _ => set (p' := q) end.
  assert (Hup1 : all_upto (Fin n) (Timeline._timeline (_events p1))).
  { apply (cancel_all_upto n (_events p) Hf). }
  assert (He : ends_with (Fin n) e (_events p')).
  { apply (add_ends_with e). exact Hup1. }
  assert (Hle : (Fin n <=? Fin n)%num = true) by (simpl; apply Rle_b_true; lra).
  split; [| split; [reflexivity |]].
  - unfold get_value. change (now p') with (now p). rewrite Hn.
    rewrite (getValueAtTime_held p' (Fin n) (Fin n) e He); auto.
    now apply leb_Math_max_0.
  - now apply (ends_with_all_upto (Fin n) e).
Qed.

(** X6. The assignment of [value] is not atomic: with a converted value
    that is not finite (the current time being finite) it throws only after
    the initial value was overwritten with it and the schedule from the
    current time on was cancelled, in the store and in the native
    parameter. *)
Theorem set_value_failure_is_not_atomic (p : Param) (v : num) (n : R) :
  finite_times (Timeline._timeline (_events p)) ->
  now p = Fin n -> isFinite (_fromType p v) = false ->
  exists msg p',
    set_value v p = Throw msg p'
    /\ _initialValue p' = _fromType p v
    /\ Timeline._timeline (_events p')
       = filter (fun e => (time e <? Fin n)%num) (Timeline._timeline (_events p))
    /\ calls (_param p') = calls (_param p) ++ [sink_cancelScheduledValues (Fin n)].
Proof.
  intros Hf Hn Hx.
  unfold set_value, cancelScheduledValues.
  unfold bind, gets, assert, toSeconds, events_cancel, sink.
  cbn [now set_initialValue set_events set_param _events _param].
  rewrite Hn. cbn [isFinite].
  unfold setValueAtTime, bind, gets, assert, toSeconds.
  match goal with
  | |- context [isFinite (_fromType ?q v)] =>
      change (_fromType q v) with (_fromType p v)
  end.
  rewrite Hx. cbn [andb].
  do 2 eexists. split; [reflexivity |]. split; [reflexivity |].
  split; [| reflexivity].
  apply (cancel_timeline n (_events p) Hf).
Qed.

Lemma eqb_eq (a b : num) : (a === b)%num = true -> a = b.
Proof.
  destruct a, b; simpl; try discriminate; auto.
  unfold Req_b. destruct (Req_dec_T r r0); [now subst | discriminate].
Qed.

(** X7. What a constructed parameter reads.  With no value given, or
    with the default value of the native parameter given, nothing is
    scheduled and every time reads the default; with another value, of
    finite conversion, the constructor schedules it at time 0 and every time
    reads it (through the units and back); with another value that does not
    convert to a finite number the constructor throws. *)
Theorem constructor_reads_value (now_ sampleTime_ : num) (param : AudioParam)
        (units_ : UnitName.t) (convert_ : bool) :
  let this := initial now_ sampleTime_ param units_ convert_ in
  (constructor now_ sampleTime_ param units_ convert_ None = Ret tt this
   /\ forall q : R,
       getValueAtTime this (Fin q) = _toType this (defaultValue param))
  /\ (forall v,
        (v === _toType this (defaultValue param))%num = true ->
        constructor now_ sampleTime_ param units_ convert_ (Some v) = Ret tt this
        /\ forall q : R, getValueAtTime this (Fin q) = v)
  /\ (forall v x,
        (v === _toType this (defaultValue param))%num = false ->
        _fromType this v = Fin x ->
        exists p',
          constructor now_ sampleTime_ param units_ convert_ (Some v) = Ret tt p'
          /\ forall q : R, getValueAtTime p' (Fin q) = _toType this (Fin x))
  /\ (forall v,
        (v === _toType this (defaultValue param))%num = false ->
        isFinite (_fromType this v) = false ->
        exists msg,
          constructor now_ sampleTime_ param units_ convert_ (Some v)
          = Throw msg this).
Proof.
  intros this.
  assert (Hdef : forall q : R,
             getValueAtTime this (Fin q) = _toType this (defaultValue param)).
  { intros q. unfold getValueAtTime, toSeconds. rewrite Math_max_0. reflexivity. }
  split; [split; [reflexivity | exact Hdef] |].
  split; [| split].
  - intros v Hv. unfold constructor. fold this.
    change (_initialValue this) with (defaultValue param). rewrite Hv.
    split; [reflexivity |]. intros q. rewrite Hdef.
    symmetry. now apply eqb_eq.
  - intros v x Hv Hx. unfold constructor. fold this.
    change (_initialValue this) with (defaultValue param). rewrite Hv.
    cbn [negb]. rewrite setValueAtTime_returns by (rewrite ?Hx; reflexivity).
    rewrite Hx. eexists. split; [reflexivity |]. intros q.
    set (e := NormalAutomationEvent AutomationType.setValueAtTime (Fin 0) (Fin x)).
    rewrite (getValueAtTime_held _ (Fin 0) (Fin q) e); auto.
    + apply (add_ends_with e). constructor.
    + simpl. apply Rle_b_true. lra.
    + rewrite Math_max_0. simpl. apply Rle_b_true. apply Rmax_r.
  - intros v Hv Hx. unfold constructor. fold this.
    change (_initialValue this) with (defaultValue param). rewrite Hv.
    cbn [negb]. unfold setValueAtTime, bind, gets, assert, toSeconds.
    rewrite Hx. cbn [andb]. eauto.
Qed.

(** *** Ramps from a set value *)

(** The store after a [setValueAtTime] at [t0] and a later event, nothing
    being scheduled after [t0] before. *)
Lemma set_then_event_store (p : Param) (v0 : num) (t0 t1 : R)
      (e2 : AutomationEvent) (c1 c2 : SinkCall) :
  all_upto (Fin t0) (Timeline._timeline (_events p)) ->
  (2 <= Timeline.memory (_events p))%nat ->
  time e2 = Fin t1 -> t0 <= t1 ->
  let e1 := NormalAutomationEvent AutomationType.setValueAtTime (Fin t0) v0 in
  exists l,
    Timeline._timeline (_events (record e2 c2 (record e1 c1 p))) = l ++ [e1; e2]
    /\ all_upto (Fin t0) l.
Proof.
  intros Hup Hm He2 Ht e1.
  assert (He1 : ends_with (Fin t0) e1 (_events (record e1 c1 p))).
  { apply (add_ends_with e1). exact Hup. }
  apply (ends_with_add_later _ (Fin t0) e1 e2 He1).
  - simpl. apply Rle_b_true. lra.
  - rewrite He2. simpl. now apply Rle_b_true.
  - exact Hm.
Qed.

(** The lookups between the two last events of a store. *)
Lemma lookups_in_last_segment (s : Timeline.t) (l : list AutomationEvent)
      (e1 e2 : AutomationEvent) (t0 t1 q : R) :
  Timeline._timeline s = l ++ [e1; e2] -> all_upto (Fin t0) l ->
  time e1 = Fin t0 -> time e2 = Fin t1 -> t0 <= q < t1 ->
  Timeline.get (Fin q) s = Some e1 /\ Timeline.getAfter (Fin q) s = Some e2.
Proof.
  intros Hl Hup He1 He2 Hq.
  assert (Hlq : Forall (fun e => (time e <=? Fin q)%num = true) l).
  { eapply Forall_impl; [| exact Hup]. intros e He.
    eapply leb_trans; [exact He |]. simpl. apply Rle_b_true. lra. }
  split.
  - unfold Timeline.get. rewrite Hl, filter_two_trailing; auto.
    + apply last_opt_app.
    + rewrite He1. simpl. apply Rle_b_true. lra.
    + rewrite He2. simpl. apply Rle_b_false. lra.
  - unfold Timeline.getAfter. rewrite Hl, filter_app, filter_none.
    + cbn [filter app]. rewrite He1, He2. simpl.
      rewrite Rlt_b_false, Rlt_b_true by lra. reflexivity.
    + eapply Forall_impl; [| exact Hlq]. intros e. apply leb_ltb_false.
Qed.

Lemma exponentialInterpolate_fin (t0 v0 t1 v1 t : R) :
  0 < v0 -> 0 < v1 -> t0 < t1 ->
  _exponentialInterpolate (Fin t0) (Fin v0) (Fin t1) (Fin v1) (Fin t)
  = Fin (v0 * Rpower (v1 / v0) ((t - t0) / (t1 - t0))).
Proof.
  intros H0 H1 Ht. unfold _exponentialInterpolate, sub. cbn [neg add].
  assert (Hr : 0 < v1 / v0) by now apply Rdiv_lt_0_compat.
  replace (Fin v1 / Fin v0)%num with (Fin (v1 / v0))
    by (simpl; now rewrite Req_b_false by lra).
  replace (Fin (t + - t0) / Fin (t1 + - t0))%num
    with (Fin ((t - t0) / (t1 - t0)))
    by (simpl; now rewrite Req_b_false by lra).
  unfold Math_pow. unfold Req_b at 1.
  destruct (Req_dec_T ((t - t0) / (t1 - t0)) 0) as [E | E].
  - rewrite E, Rpower_O by exact Hr. reflexivity.
  - now rewrite Rlt_b_true by exact Hr.
Qed.

(** X8. On a parameter without unit conversion, [setValueAtTime(v0, t0)]
    with [v0 > 0] followed by [exponentialRampToValueAtTime(v1, t1)],
    [0 <= t0 < t1], nothing being scheduled after [t0]: with
    [w = max(1e-7, v1)] the value is [v0 * (w / v0) ^ ((t - t0) / (t1 - t0))]
    on [[t0, t1]] and [w] after [t1]; it is [v0] at [t0], [w] at [t1], the
    geometric mean of the two at the midpoint, and a number above zero at
    every time from [t0] on. *)
Theorem exponential_ramp_exact (p : Param) (v0 t0 v1 t1 : R) :
  unconverted p ->
  (2 <= Timeline.memory (_events p))%nat ->
  all_upto (Fin t0) (Timeline._timeline (_events p)) ->
  0 <= t0 -> t0 < t1 -> 0 < v0 ->
  let w := Rmax 1e-7 v1 in
  exists p',
    (setValueAtTime (Fin v0) (Fin t0) ;;
     exponentialRampToValueAtTime (Fin v1) (Fin t1)) p = Ret tt p'
    /\ (forall t, t0 <= t <= t1 ->
        getValueAtTime p' (Fin t)
        = Fin (v0 * Rpower (w / v0) ((t - t0) / (t1 - t0))))
    /\ (forall t, t1 < t -> getValueAtTime p' (Fin t) = Fin w)
    /\ getValueAtTime p' (Fin t0) = Fin v0
    /\ getValueAtTime p' (Fin t1) = Fin w
    /\ getValueAtTime p' (Fin ((t0 + t1) / 2)) = Fin (sqrt (v0 * w))
    /\ (forall t, t0 <= t ->
        exists y, getValueAtTime p' (Fin t) = Fin y /\ 0 < y).
Proof.
  intros Hu Hm Hup Ht0 Ht Hv0 w.
  assert (Hw : 0 < w).
  { unfold w. pose proof (Rmax_l 1e-7 v1). lra. }
  assert (Hr : 0 < w / v0) by now apply Rdiv_lt_0_compat.
  unfold bind at 1.
  rewrite setValueAtTime_returns by (rewrite ?unconverted_fromType; auto).
  rewrite unconverted_fromType by auto.
  set (e1 := NormalAutomationEvent AutomationType.setValueAtTime (Fin t0) (Fin v0)).
  set (p1 := record e1 _ p).
  assert (Hu1 : unconverted p1).
  { eapply unconverted_same_setup; [apply record_same_setup | exact Hu]. }
  rewrite exponentialRampToValueAtTime_returns;
    rewrite ?unconverted_fromType, ?Math_max_minOutput_fin by auto; auto.
  fold w.
  set (e2 := NormalAutomationEvent AutomationType.exponentialRampToValueAtTime
                                   (Fin t1) (Fin w)).
  set (p2 := record e2 _ p1).
  assert (Hu2 : unconverted p2).
  { eapply unconverted_same_setup; [apply record_same_setup | exact Hu1]. }
  destruct (set_then_event_store p (Fin v0) t0 t1 e2
              (sink_setValueAtTime (Fin v0) (Fin t0))
              (sink_exponentialRampToValueAtTime (Fin w) (Fin t1)) Hup Hm eq_refl)
    as (l & Hl & Hl0); [lra |].
  fold e1 p1 p2 in Hl.
  assert (Hends : ends_with (Fin t1) e2 (_events p2)).
  { exists (l ++ [e1]). split.
    - rewrite <- app_assoc. exact Hl.
    - apply all_upto_app.
      + eapply all_upto_weaken; [| exact Hl0]. simpl. apply Rle_b_true. lra.
      + simpl. apply Rle_b_true. lra. }
  assert (Hout : forall t, t1 <= t -> getValueAtTime p2 (Fin t) = Fin w).
  { intros t Hle.
    rewrite (getValueAtTime_held p2 (Fin t1) (Fin t) e2 Hends); auto.
    - now rewrite unconverted_toType by auto.
    - simpl. apply Rle_b_true. lra.
    - rewrite Math_max_0_nonneg by lra. simpl. apply Rle_b_true. lra. }
  assert (Hin : forall t, t0 <= t <= t1 ->
                getValueAtTime p2 (Fin t)
                = Fin (v0 * Rpower (w / v0) ((t - t0) / (t1 - t0)))).
  { intros t [Hlo Hhi]. destruct (Rlt_dec t t1) as [Hlt | Hge].
    - destruct (lookups_in_last_segment (_events p2) l e1 e2 t0 t1 t Hl Hl0
                  eq_refl eq_refl) as [Hget Haft]; [lra |].
      unfold getValueAtTime, toSeconds. rewrite Math_max_0_nonneg by lra.
      rewrite Hget, Haft. cbn.
      rewrite unconverted_toType by auto.
      now apply exponentialInterpolate_fin.
    - assert (t = t1) by lra. subst t. rewrite Hout by lra. f_equal.
      replace ((t1 - t0) / (t1 - t0)) with 1 by (field; lra).
      rewrite Rpower_1 by exact Hr. field. lra. }
  exists p2. split; [reflexivity |]. split; [exact Hin |].
  split; [intros t Hlt; apply Hout; lra |].
  split; [| split; [apply Hout; lra | split]].
  - rewrite Hin by lra. f_equal.
    replace ((t0 - t0) / (t1 - t0)) with 0 by (field; lra).
    rewrite Rpower_O by exact Hr. lra.
  - rewrite Hin by lra. f_equal.
    replace (((t0 + t1) / 2 - t0) / (t1 - t0)) with (/ 2) by (field; lra).
    rewrite Rpower_sqrt by exact Hr.
    replace (v0 * w) with (v0 * v0 * (w / v0)) by (field; lra).
    rewrite sqrt_mult by nra. rewrite sqrt_square by lra. reflexivity.
  - intros t Hlo. destruct (Rle_dec t t1) as [Hle | Hgt].
    + eexists. split; [apply Hin; lra |].
      apply Rmult_lt_0_compat; [exact Hv0 | apply exp_pos].
    + exists w. split; [apply Hout; lra | exact Hw].
Qed.


(** *** Target approaches *)

Lemma get_upto (t : num) (s : Timeline.t) (b : AutomationEvent) :
  Timeline.get t s = Some b -> (time b <=? t)%num = true.
Proof. intros H. apply get_In in H. apply filter_In in H. apply H. Qed.



(** X11. A ramp that follows a target approach starts from the value
    before the target event, at the time of the target event: between the
    two the target and its time constant have no influence on the value. *)
Theorem ramp_after_target_ignores_target (p : Param) (t t0 t1 v0 v1 : R)
        (target constant : num) :
  0 <= t ->
  Timeline.get (Fin t) (_events p)
  = Some (TargetAutomationEvent (Fin t0) target constant) ->
  match Timeline.getBefore (Fin t0) (_events p) with
  | Some previous => value previous
  | None => _initialValue p
  end = Fin v0 ->
  (Timeline.getAfter (Fin t) (_events p)
   = Some (NormalAutomationEvent AutomationType.linearRampToValueAtTime
                                 (Fin t1) (Fin v1)) ->
   getValueAtTime p (Fin t)
   = _toType p (Fin (v0 + (v1 - v0) * (t - t0) / (t1 - t0))))
  /\ (Timeline.getAfter (Fin t) (_events p)
      = Some (NormalAutomationEvent AutomationType.exponentialRampToValueAtTime
                                    (Fin t1) (Fin v1)) ->
      0 < v0 -> 0 < v1 ->
      getValueAtTime p (Fin t)
      = _toType p (Fin (v0 * Rpower (v1 / v0) ((t - t0) / (t1 - t0))))).
Proof.
  intros Ht Hget Hprev.
  assert (Hle : t0 <= t).
  { apply get_upto in Hget. simpl in Hget. now apply Rle_b_spec in Hget. }
  assert (Hlt : forall a, Timeline.getAfter (Fin t) (_events p) = Some a ->
                          time a = Fin t1 -> t < t1).
  { intros a Ha Hta. apply getAfter_later in Ha. rewrite Hta in Ha.
    simpl in Ha. now apply Rlt_b_spec in Ha. }
  split.
  - intros Haft. specialize (Hlt _ Haft eq_refl).
    unfold getValueAtTime, toSeconds. rewrite Math_max_0_nonneg by lra.
    rewrite Hget, Haft.
    cbn [is_setTargetAtTime is_setValueAtTime is_linearRampToValueAtTime
         is_exponentialRampToValueAtTime andb orb time value].
    unfold previous_value. cbn [time]. rewrite Hprev.
    now rewrite linearInterpolate_fin by lra.
  - intros Haft H0 H1. specialize (Hlt _ Haft eq_refl).
    unfold getValueAtTime, toSeconds. rewrite Math_max_0_nonneg by lra.
    rewrite Hget, Haft.
    cbn [is_setTargetAtTime is_setValueAtTime is_linearRampToValueAtTime
         is_exponentialRampToValueAtTime andb orb time value].
    unfold previous_value. cbn [time]. rewrite Hprev.
    now rewrite exponentialInterpolate_fin by lra.
Qed.

(** *** Ramps from the current value *)

(** The store after [setRampPoint(t)] and one more event at [t + ramp]. *)
Lemma ramp_from_point (p : Param) (t ramp start : R)
      (e2 : AutomationEvent) (c2 : SinkCall) :
  ordered (_events p) ->
  (reanchors p (Fin t) = true ->
   isFinite (_fromType p (_toType p (held_value p (Fin t)))) = true) ->
  _fromType p (ramp_point_value p (Fin t)) = Fin start ->
  time e2 = Fin (t + ramp) -> 0 <= ramp ->
  (2 <= Timeline.memory (_events p))%nat ->
  exists p1 l,
    setRampPoint (Fin t) p = Ret tt p1
    /\ same_setup p p1
    /\ Timeline._timeline (_events (record e2 c2 p1))
       = l ++ [NormalAutomationEvent AutomationType.setValueAtTime
                                     (Fin t) (Fin start); e2]
    /\ all_upto (Fin t) l.
Proof.
  intros Ho Hfin Hrpv He2 Hramp Hm.
  destruct (setRampPoint_returns p t Ho Hfin) as (p1 & Hret & Hs1 & Ho1 & He1).
  { now rewrite Hrpv. }
  rewrite Hrpv in He1.
  exists p1.
  destruct (ends_with_add_later (_events p1) (Fin t) _ e2 He1) as (l & Hl & Hl0).
  { simpl. apply Rle_b_true. lra. }
  { rewrite He2. simpl. apply Rle_b_true. lra. }
  { destruct Hs1 as (_ & _ & _ & _ & _ & _ & Hmem). rewrite Hmem. exact Hm. }
  exists l. repeat split; auto; apply Hs1.
Qed.

(** The value at and after the last event of a store, a ramp or a set
    value. *)
Lemma getValueAtTime_last (p : Param) (l : list AutomationEvent)
      (e1 e2 : AutomationEvent) (t0 t1 : R) (q : num) :
  Timeline._timeline (_events p) = l ++ [e1; e2] ->
  all_upto (Fin t0) l -> time e1 = Fin t0 -> time e2 = Fin t1 -> t0 <= t1 ->
  is_setTargetAtTime e2 = false ->
  (Fin t1 <=? Math_max q (Fin 0))%num = true ->
  getValueAtTime p q = _toType p (value e2).
Proof.
  intros Hl Hup He1 He2 Ht Htgt Hq.
  apply (getValueAtTime_held p (Fin t1) q e2); auto.
  - exists (l ++ [e1]). split.
    + now rewrite <- app_assoc.
    + apply all_upto_app.
      * eapply all_upto_weaken; [| exact Hup]. simpl. now apply Rle_b_true.
      * rewrite He1. simpl. now apply Rle_b_true.
  - rewrite He2. simpl. apply Rle_b_true. lra.
Qed.

(** X12. [linearRampTo(v, rampTime, startTime)] from a current raw value
    [s <> 0]: the value at [startTime] is kept, it then moves linearly to [v]
    over [rampTime] and stays at [v]; whatever was scheduled after
    [startTime] is gone (values read in the units of the parameter). *)
Theorem linearRampTo_ramps (p : Param) (v : num) (t ramp s x : R) :
  ordered (_events p) ->
  (reanchors p (Fin t) = true ->
   isFinite (_fromType p (_toType p (held_value p (Fin t)))) = true) ->
  held_value p (Fin t) = Fin s -> s <> 0 ->
  _fromType p v = Fin x ->
  0 <= t -> 0 < ramp ->
  (2 <= Timeline.memory (_events p))%nat ->
  exists p',
    linearRampTo v (Fin ramp) (Some (Fin t)) p = Ret tt p'
    /\ getValueAtTime p' (Fin t) = _toType p (Fin s)
    /\ (forall q, t <= q <= t + ramp ->
        getValueAtTime p' (Fin q)
        = _toType p (Fin (s + (x - s) * (q - t) / ramp)))
    /\ (forall q, t + ramp <= q -> getValueAtTime p' (Fin q) = _toType p (Fin x))
    /\ all_upto (Fin (t + ramp)) (Timeline._timeline (_events p')).
Proof.
  intros Ho Hfin Hs Hs0 Hx Ht Hramp Hm.
  assert (Hrpv : _fromType p (ramp_point_value p (Fin t)) = Fin s).
  { unfold ramp_point_value. fold (held_value p (Fin t)). rewrite Hs.
    simpl (Fin s === Fin 0)%num. rewrite Req_b_false by exact Hs0. exact Hs. }
  set (e2 := NormalAutomationEvent AutomationType.linearRampToValueAtTime
                                   (Fin (t + ramp)) (Fin x)).
  destruct (ramp_from_point p t ramp s e2
              (sink_linearRampToValueAtTime (Fin x) (Fin (t + ramp)))
              Ho Hfin Hrpv eq_refl) as (p1 & l & Hret & Hs1 & Hl & Hl0);
    [lra | exact Hm |].
  unfold linearRampTo, toSeconds_opt, toSeconds.
  unfold bind at 1. unfold gets at 1. unfold bind at 1. rewrite Hret.
  simpl (Fin t + Fin ramp)%num.
  rewrite linearRampToValueAtTime_returns;
    rewrite ?(fromType_same_setup p p1), ?Hx by auto; auto.
  fold e2. set (p2 := record e2 _ p1) in *.
  assert (Htype : forall w, _toType p2 w = _toType p w).
  { intros w. rewrite (toType_same_setup p1), (toType_same_setup p p1); auto.
    apply record_same_setup. }
  assert (Hin : forall q, t <= q <= t + ramp ->
                getValueAtTime p2 (Fin q)
                = _toType p (Fin (s + (x - s) * (q - t) / ramp))).
  { intros q [Hlo Hhi]. destruct (Rlt_dec q (t + ramp)) as [Hlt | Hge].
    - rewrite (getValueAtTime_linear_segment p2 l _ t (t + ramp) q (Fin x) Hl);
        auto; try lra.
      rewrite Htype. cbn [value]. rewrite linearInterpolate_fin by lra.
      do 2 f_equal. field. lra.
    - assert (q = t + ramp) by lra. subst q.
      rewrite (getValueAtTime_last p2 l _ e2 t (t + ramp) (Fin (t + ramp)) Hl);
        auto; try lra.
      + rewrite Htype. cbn [value e2]. do 2 f_equal. field. lra.
      + now apply leb_Math_max_0. }
  exists p2. split; [reflexivity |]. split; [| split; [exact Hin | split]].
  - rewrite Hin by lra. do 2 f_equal. field. lra.
  - intros q Hq.
    rewrite (getValueAtTime_last p2 l _ e2 t (t + ramp) (Fin q) Hl);
      auto; try lra.
    rewrite Math_max_0_nonneg by lra. simpl. apply Rle_b_true. lra.
  - rewrite Hl. apply Forall_app. split.
    + eapply all_upto_weaken; [| exact Hl0]. simpl. apply Rle_b_true. lra.
    + repeat constructor; simpl; apply Rle_b_true; lra.
Qed.

(** Between a held value and the exponential ramp that follows it. *)
Lemma getValueAtTime_exponential_segment (p : Param) (l : list AutomationEvent)
      (e1 : AutomationEvent) (t0 t1 q : R) (v1 : num) :
  Timeline._timeline (_events p)
  = l ++ [e1; NormalAutomationEvent AutomationType.exponentialRampToValueAtTime
                                    (Fin t1) v1] ->
  all_upto (Fin t0) l -> time e1 = Fin t0 -> is_setTargetAtTime e1 = false ->
  0 <= q -> t0 <= q < t1 ->
  getValueAtTime p (Fin q)
  = _toType p (_exponentialInterpolate (Fin t0) (value e1) (Fin t1) v1 (Fin q)).
Proof.
  intros Hl Hup He1 Htgt Hq0 Hq.
  destruct (lookups_in_last_segment (_events p) l e1 _ t0 t1 q Hl Hup He1 eq_refl Hq)
    as [Hget Haft].
  unfold getValueAtTime, toSeconds. rewrite Math_max_0_nonneg by lra.
  rewrite Hget, Haft, Htgt, He1. reflexivity.
Qed.

(** X13. [exponentialRampTo(v, rampTime, startTime)] on a parameter
    without unit conversion whose current value is [s >= 0]: the ramp starts
    from [s], or from [1e-7] when [s] is zero, goes geometrically to
    [max(1e-7, v)] over [rampTime] and stays there; every value read from
    [startTime] on is a number above zero. *)
Theorem exponentialRampTo_ramps (p : Param) (v t ramp s : R) :
  unconverted p -> ordered (_events p) ->
  getValueAtTime p (Fin t) = Fin s -> 0 <= s ->
  0 <= t -> 0 < ramp ->
  (2 <= Timeline.memory (_events p))%nat ->
  let start := if Req_dec_T s 0 then 1e-7 else s in
  let w := Rmax 1e-7 v in
  exists p',
    exponentialRampTo (Fin v) (Fin ramp) (Some (Fin t)) p = Ret tt p'
    /\ (forall q, t <= q <= t + ramp ->
        getValueAtTime p' (Fin q)
        = Fin (start * Rpower (w / start) ((q - t) / ramp)))
    /\ (forall q, t + ramp <= q -> getValueAtTime p' (Fin q) = Fin w)
    /\ (forall q, t <= q ->
        exists y, getValueAtTime p' (Fin q) = Fin y /\ 0 < y).
Proof.
  intros Hu Ho Hs Hs0 Ht Hramp Hm start w.
  assert (Hstart : 0 < start).
  { unfold start. destruct (Req_dec_T s 0); lra. }
  assert (Hw : 0 < w).
  { unfold w. pose proof (Rmax_l 1e-7 v). lra. }
  assert (Hr : 0 < w / start) by now apply Rdiv_lt_0_compat.
  assert (Hheld : held_value p (Fin t) = Fin s).
  { unfold held_value. now rewrite Hs, unconverted_fromType. }
  assert (Hfin : reanchors p (Fin t) = true ->
                 isFinite (_fromType p (_toType p (held_value p (Fin t)))) = true).
  { intros _. now rewrite Hheld, unconverted_toType, unconverted_fromType. }
  assert (Hrpv : _fromType p (ramp_point_value p (Fin t)) = Fin start).
  { unfold ramp_point_value. fold (held_value p (Fin t)). rewrite Hheld, Hs.
    simpl (Fin s === Fin 0)%num. unfold Req_b, start.
    destruct (Req_dec_T s 0);
      now rewrite ?unconverted_toType, unconverted_fromType. }
  set (e2 := NormalAutomationEvent AutomationType.exponentialRampToValueAtTime
                                   (Fin (t + ramp)) (Fin w)).
  destruct (ramp_from_point p t ramp start e2
              (sink_exponentialRampToValueAtTime (Fin w) (Fin (t + ramp)))
              Ho Hfin Hrpv eq_refl) as (p1 & l & Hret & Hs1 & Hl & Hl0);
    [lra | exact Hm |].
  assert (Hu1 : unconverted p1) by (eapply unconverted_same_setup; eauto).
  unfold exponentialRampTo, toSeconds_opt, toSeconds.
  unfold bind at 1. unfold gets at 1. unfold bind at 1. rewrite Hret.
  simpl (Fin t + Fin ramp)%num.
  rewrite exponentialRampToValueAtTime_returns;
    rewrite ?unconverted_fromType, ?Math_max_minOutput_fin by auto; auto.
  fold w e2. set (p2 := record e2 _ p1) in *.
  assert (Hu2 : unconverted p2).
  { eapply unconverted_same_setup; [apply record_same_setup | exact Hu1]. }
  assert (Hout : forall q, t + ramp <= q -> getValueAtTime p2 (Fin q) = Fin w).
  { intros q Hq.
    rewrite (getValueAtTime_last p2 l _ e2 t (t + ramp) (Fin q) Hl);
      auto; try lra.
    - now rewrite unconverted_toType.
    - rewrite Math_max_0_nonneg by lra. simpl. apply Rle_b_true. lra. }
  assert (Hin : forall q, t <= q <= t + ramp ->
                getValueAtTime p2 (Fin q)
                = Fin (start * Rpower (w / start) ((q - t) / ramp))).
  { intros q [Hlo Hhi]. destruct (Rlt_dec q (t + ramp)) as [Hlt | Hge].
    - rewrite (getValueAtTime_exponential_segment p2 l _ t (t + ramp) q (Fin w) Hl);
        auto; try lra.
      rewrite unconverted_toType by auto. cbn [value].
      rewrite exponentialInterpolate_fin by lra.
      do 3 f_equal. field. lra.
    - assert (q = t + ramp) by lra. subst q. rewrite Hout by lra. f_equal.
      replace ((t + ramp - t) / ramp) with 1 by (field; lra).
      rewrite Rpower_1 by exact Hr. field. lra. }
  exists p2. split; [reflexivity |]. split; [exact Hin |]. split; [exact Hout |].
  intros q Hq. destruct (Rle_dec q (t + ramp)) as [Hle | Hgt].
  - eexists. split; [apply Hin; lra |].
    apply Rmult_lt_0_compat; [exact Hstart | apply exp_pos].
  - exists w. split; [apply Hout; lra | exact Hw].
Qed.

(** The last event of a ramp from the ramp point: it is the value from its
    time on. *)
Lemma ramp_point_then_event (p : Param) (t ramp : R) (e2 : AutomationEvent)
      (c2 : SinkCall) :
  ordered (_events p) ->
  (reanchors p (Fin t) = true ->
   isFinite (_fromType p (_toType p (held_value p (Fin t)))) = true) ->
  isFinite (_fromType p (ramp_point_value p (Fin t))) = true ->
  time e2 = Fin (t + ramp) -> 0 <= ramp -> is_setTargetAtTime e2 = false ->
  exists p1,
    setRampPoint (Fin t) p = Ret tt p1
    /\ same_setup p p1
    /\ (forall q, t + ramp <= Rmax q 0 ->
        getValueAtTime (record e2 c2 p1) (Fin q) = _toType p (value e2))
    /\ all_upto (Fin (t + ramp)) (Timeline._timeline (_events (record e2 c2 p1))).
Proof.
  intros Ho Hfin Hv He2 Hramp Htgt.
  destruct (setRampPoint_returns p t Ho Hfin Hv) as (p1 & Hret & Hs1 & Ho1 & He1).
  exists p1. split; [exact Hret |]. split; [exact Hs1 |].
  assert (Hup1 : all_upto (Fin (t + ramp)) (Timeline._timeline (_events p1))).
  { eapply all_upto_weaken; [| eapply ends_with_all_upto; [exact He1 |]];
      simpl; apply Rle_b_true; lra. }
  assert (Hends : ends_with (Fin (t + ramp)) e2 (_events (record e2 c2 p1))).
  { rewrite <- He2. apply (add_ends_with e2). now rewrite He2. }
  assert (Hle : (time e2 <=? Fin (t + ramp))%num = true).
  { rewrite He2. simpl. apply Rle_b_true. lra. }
  split.
  - intros q Hq.
    rewrite (getValueAtTime_held _ (Fin (t + ramp)) (Fin q) e2 Hends); auto.
    + rewrite (toType_same_setup p1), (toType_same_setup p p1); auto.
      apply record_same_setup.
    + rewrite Math_max_0. simpl. now apply Rle_b_true.
  - now apply (ends_with_all_upto _ e2).
Qed.

(** X14. [rampTo(v, rampTime, startTime)] arrives: when the call has
    finite numbers to work with it returns, and from [startTime + rampTime]
    on the value is [v] for the units that ramp linearly and
    [max(1e-7, v)] for frequency, bpm and decibels, which ramp
    exponentially (raw values, read in the units of the parameter); nothing
    is scheduled after that time. *)
Theorem rampTo_arrives (p : Param) (v : num) (t ramp x : R) :
  ordered (_events p) ->
  (reanchors p (Fin t) = true ->
   isFinite (_fromType p (_toType p (held_value p (Fin t)))) = true) ->
  isFinite (_fromType p (ramp_point_value p (Fin t))) = true ->
  0 <= ramp ->
  (if ramps_exponentially (units p)
   then Math_max _minOutput (_fromType p v) else _fromType p v) = Fin x ->
  exists p',
    rampTo v (Fin ramp) (Some (Fin t)) p = Ret tt p'
    /\ (forall q, t + ramp <= Rmax q 0 ->
        getValueAtTime p' (Fin q) = _toType p (Fin x))
    /\ all_upto (Fin (t + ramp)) (Timeline._timeline (_events p')).
Proof.
  intros Ho Hfin Hv Hramp Hx.
  assert (Hlin : ramps_exponentially (units p) = false ->
                 exists p',
                   linearRampTo v (Fin ramp) (Some (Fin t)) p = Ret tt p'
                   /\ (forall q, t + ramp <= Rmax q 0 ->
                       getValueAtTime p' (Fin q) = _toType p (Fin x))
                   /\ all_upto (Fin (t + ramp))
                               (Timeline._timeline (_events p'))).
  { intros E. rewrite E in Hx.
    set (e2 := NormalAutomationEvent AutomationType.linearRampToValueAtTime
                                     (Fin (t + ramp)) (Fin x)).
    destruct (ramp_point_then_event p t ramp e2
                (sink_linearRampToValueAtTime (Fin x) (Fin (t + ramp)))
                Ho Hfin Hv eq_refl Hramp eq_refl)
      as (p1 & Hret & Hs1 & Hval & Hup).
    unfold linearRampTo, toSeconds_opt, toSeconds.
    unfold bind at 1. unfold gets at 1. unfold bind at 1. rewrite Hret.
    simpl (Fin t + Fin ramp)%num.
    rewrite linearRampToValueAtTime_returns;
      rewrite ?(fromType_same_setup p p1), ?Hx by auto; auto.
    eexists. split; [reflexivity |]. split; [exact Hval | exact Hup]. }
  assert (Hexp : ramps_exponentially (units p) = true ->
                 exists p',
                   exponentialRampTo v (Fin ramp) (Some (Fin t)) p = Ret tt p'
                   /\ (forall q, t + ramp <= Rmax q 0 ->
                       getValueAtTime p' (Fin q) = _toType p (Fin x))
                   /\ all_upto (Fin (t + ramp))
                               (Timeline._timeline (_events p'))).
  { intros E. rewrite E in Hx.
    set (e2 := NormalAutomationEvent AutomationType.exponentialRampToValueAtTime
                                     (Fin (t + ramp)) (Fin x)).
    destruct (ramp_point_then_event p t ramp e2
                (sink_exponentialRampToValueAtTime (Fin x) (Fin (t + ramp)))
                Ho Hfin Hv eq_refl Hramp eq_refl)
      as (p1 & Hret & Hs1 & Hval & Hup).
    unfold exponentialRampTo, toSeconds_opt, toSeconds.
    unfold bind at 1. unfold gets at 1. unfold bind at 1. rewrite Hret.
    simpl (Fin t + Fin ramp)%num.
    rewrite exponentialRampToValueAtTime_returns;
      rewrite ?(fromType_same_setup p p1), ?Hx by auto; auto.
    eexists. split; [reflexivity |]. split; [exact Hval | exact Hup]. }
  unfold rampTo. unfold bind at 1. unfold gets at 1.
  destruct (units p); first [now apply Hexp | now apply Hlin].
Qed.

(** X15. [targetRampTo(v, rampTime, startTime)] arrives: for a ramp time
    above zero the call returns, the value is [v] from
    [startTime + rampTime] on, and nothing is scheduled after that time.
    The hold at [startTime + 0.9 * rampTime] never has a ramp to replay
    here, the ramp point having removed what lay after [startTime]. *)
Theorem targetRampTo_arrives (p : Param) (v : num) (t ramp x : R) :
  ordered (_events p) ->
  (reanchors p (Fin t) = true ->
   isFinite (_fromType p (_toType p (held_value p (Fin t)))) = true) ->
  isFinite (_fromType p (ramp_point_value p (Fin t))) = true ->
  0 < ramp -> _fromType p v = Fin x ->
  exists p',
    targetRampTo v (Fin ramp) (Some (Fin t)) p = Ret tt p'
    /\ (forall q, t + ramp <= Rmax q 0 ->
        getValueAtTime p' (Fin q) = _toType p (Fin x))
    /\ all_upto (Fin (t + ramp)) (Timeline._timeline (_events p')).
Proof.
  intros Ho Hfin Hv Hramp Hx.
  destruct (setRampPoint_returns p t Ho Hfin Hv) as (p0 & Hret0 & Hs0 & Ho0 & He0).
  destruct (timeConstant_fin ramp Hramp) as [Htc Htcpos].
  unfold targetRampTo, toSeconds_opt, toSeconds.
  unfold bind at 1. unfold gets at 1. unfold bind at 1. rewrite Hret0.
  unfold exponentialApproachValueAtTime, toSeconds. rewrite Htc.
  simpl (Fin t + Fin ramp * Fin 0.9)%num. simpl (Fin t + Fin ramp)%num.
  unfold bind at 1.
  rewrite setTargetAtTime_returns;
    rewrite ?(fromType_same_setup p p0), ?Hx by auto; auto;
    [| simpl; now apply Rlt_b_true].
  set (e1 := TargetAutomationEvent (Fin t) (Fin x) (Fin (ln (ramp + 1) / ln 200))).
  set (p1 := record e1 _ p0).
  assert (Hs1 : same_setup p p1).
  { eapply same_setup_trans; [exact Hs0 | apply record_same_setup]. }
  assert (Ho1 : ordered (_events p1)).
  { unfold p1. rewrite record_events. now apply ordered_add. }
  assert (He1 : ends_with (Fin t) e1 (_events p1)).
  { apply (add_ends_with e1). eapply ends_with_all_upto; [exact He0 |].
    now apply leb_refl_fin. }
  assert (Hup1 : all_upto (Fin (t + ramp * 0.9)) (Timeline._timeline (_events p1))).
  { eapply all_upto_weaken; [| eapply ends_with_all_upto; [exact He1 |]];
      simpl; apply Rle_b_true; nra. }
  destruct (cancelAndHoldAtTime_returns p1 (t + ramp * 0.9) Ho1)
    as (p2 & Hret & Hs2 & Ho2 & He2).
  { intros H. rewrite (reanchors_none_after _ _ Hup1) in H. discriminate. }
  unfold bind at 1. rewrite Hret.
  assert (Hs : same_setup p p2) by exact (same_setup_trans _ _ _ Hs1 Hs2).
  rewrite linearRampToValueAtTime_returns;
    rewrite ?(fromType_same_setup p p2), ?Hx by auto; auto.
  set (e := NormalAutomationEvent AutomationType.linearRampToValueAtTime
                                  (Fin (t + ramp)) (Fin x)).
  set (p3 := record e _ p2).
  assert (Hup2 : all_upto (Fin (t + ramp)) (Timeline._timeline (_events p2))).
  { eapply all_upto_weaken; [| eapply ends_with_all_upto; [exact He2 |]];
      simpl; apply Rle_b_true; nra. }
  assert (He3 : ends_with (Fin (t + ramp)) e (_events p3)).
  { now apply (add_ends_with e). }
  exists p3. split; [reflexivity |]. split.
  - intros q Hq.
    rewrite (getValueAtTime_held p3 (Fin (t + ramp)) (Fin q) e He3); auto.
    + rewrite (toType_same_setup p2), (toType_same_setup p p2); auto.
      apply record_same_setup.
    + now apply leb_refl_fin.
    + rewrite Math_max_0. simpl. now apply Rle_b_true.
  - eapply ends_with_all_upto; [exact He3 |]. now apply leb_refl_fin.
Qed.

(** *** Ranges *)

(** X16. The conversion of a converting parameter clamps: for the units
    normalRange and audioRange the raw value of any number lies between
    [minValue] and [maxValue], for positive it is at least [minValue]; a
    value already in the range is not changed, and converting twice is
    converting once.  (NaN is not a number of any range and passes
    through.) *)
Theorem fromType_clamps_to_range (p : Param) (val lo hi : num) :
  convert p = true -> overridden p = false -> val <> NaN ->
  let raw := _fromType p val in
  (units p = UnitName.normalRange \/ units p = UnitName.audioRange ->
   (minValue p lo <=? raw)%num = true
   /\ (raw <=? maxValue p hi)%num = true
   /\ ((minValue p lo <=? val)%num = true ->
       (val <=? maxValue p hi)%num = true -> raw = val)
   /\ _fromType p raw = raw)
  /\ (units p = UnitName.positive ->
      (minValue p lo <=? raw)%num = true
      /\ ((minValue p lo <=? val)%num = true -> raw = val)
      /\ _fromType p raw = raw).
Proof.
  intros Hc Ho Hval raw. unfold raw, _fromType, minValue, maxValue.
  rewrite Hc, Ho. simpl.
  split; [intros [Hu | Hu] | intros Hu]; rewrite Hu;
    destruct val as [x | | |]; try congruence; simpl;
    repeat (rcompare; simpl);
    repeat split; try reflexivity; try discriminate;
    try (apply Rle_b_true; lra);
    try (intros H1 H2; apply Rle_b_spec in H1; apply Rle_b_spec in H2;
         exfalso; lra);
    try (intros H1; apply Rle_b_spec in H1; exfalso; lra);
    repeat (rcompare; simpl); try reflexivity.
Qed.

(** *** The value curve, read back *)

Lemma setValueCurveAtTime_returns (p : Param) (values : list num)
      (startTime duration : R) (scaling : num) :
  (2 <= length values)%nat ->
  Forall (fun v => isFinite (curve_raw p scaling v) = true) values ->
  setValueCurveAtTime values (Fin startTime) (Fin duration) scaling p
  = Ret tt (record_all (curve_events (curve_raw p scaling) values
                                     startTime duration) p).
Proof.
  intros Hn Hfin.
  destruct values as [| v0 rest]; [simpl in Hn; lia |].
  inversion Hfin as [| ? ? Hv0 Hrest]; subst.
  assert (Hlen : INR (length (v0 :: rest)) - 1 <> 0).
  { apply le_INR in Hn. simpl (INR 2) in Hn. lra. }
  unfold setValueCurveAtTime, toSeconds.
  unfold bind at 1. unfold gets at 1. unfold bind at 1. unfold gets at 1.
  unfold bind at 1. cbn [nth tl].
  rewrite setValueAtTime_returns; auto.
  fold (curve_raw p scaling v0).
  replace (Fin duration / (Fin (INR (length (v0 :: rest))) - Fin 1))%num
    with (Fin (duration / (INR (length (v0 :: rest)) - 1))).
  - rewrite (setValueCurve_loop_returns p); auto.
    apply record_same_setup.
  - unfold sub. cbn [neg add div].
    rewrite Req_b_false by exact Hlen. reflexivity.
Qed.

(** Events in time order, none before the last of the store, go to its end
    one after the other while there is room. *)
Lemma record_all_timeline (events : list AutomationEvent) :
  forall (p : Param) (t0 : num),
    all_upto t0 (Timeline._timeline (_events p)) ->
    Forall (fun e => (t0 <=? time e)%num = true) events ->
    StronglySorted time_le events -> finite_times events ->
    (length (Timeline._timeline (_events p)) + length events
     <= Timeline.memory (_events p))%nat ->
    Timeline._timeline (_events (record_all events p))
    = Timeline._timeline (_events p) ++ events.
Proof.
  induction events as [| e es IH]; intros p t0 Hup Hlo Hs Hf Hm.
  - simpl. now rewrite app_nil_r.
  - change (record_all (e :: es) p)
      with (record_all es (record e (sink_of e) p)).
    inversion Hlo as [| ? ? Hlo1 Hlo2]; subst.
    inversion Hs as [| ? ? Hs1 Hs2]; subst.
    inversion Hf as [| ? ? Hf1 Hf2]; subst.
    simpl length in Hm.
    assert (Hk : kept (_events p) = Timeline._timeline (_events p)).
    { unfold kept.
      destruct (Nat.leb_spec (Timeline.memory (_events p))
                             (length (Timeline._timeline (_events p))));
        [lia | reflexivity]. }
    assert (Ht : Timeline._timeline (_events (record e (sink_of e) p))
                 = Timeline._timeline (_events p) ++ [e]).
    { rewrite record_events, add_last, Hk; auto.
      eapply all_upto_weaken; eauto. }
    rewrite (IH _ (time e)).
    + rewrite Ht, <- app_assoc. reflexivity.
    + rewrite Ht. apply all_upto_app.
      * eapply all_upto_weaken; eauto.
      * now apply leb_refl_fin.
    + exact Hs2.
    + exact Hs1.
    + exact Hf2.
    + rewrite Ht, length_app. simpl. lia.
Qed.

Lemma curve_ramps_sorted (raw : num -> num) (s seg : R) :
  0 <= seg ->
  forall (rest : list num) (i : nat),
    StronglySorted time_le (curve_ramps raw rest i s seg)
    /\ Forall (fun e => (Fin (s + INR i * seg) <=? time e)%num = true)
              (curve_ramps raw rest i s seg)
    /\ finite_times (curve_ramps raw rest i s seg).
Proof.
  intros Hseg. induction rest as [| v rest IH]; intros i; cbn [curve_ramps].
  - repeat split; constructor.
  - destruct (IH (S i)) as (Hs & Hlo & Hf).
    assert (Hle : Forall (fun e => (Fin (s + INR i * seg) <=? time e)%num = true)
                         (curve_ramps raw rest (S i) s seg)).
    { eapply Forall_impl; [| exact Hlo]. intros e He.
      eapply leb_trans; [| exact He]. rewrite S_INR. simpl.
      apply Rle_b_true. nra. }
    repeat split.
    + constructor; [exact Hs | exact Hle].
    + constructor; [| exact Hle]. simpl. apply Rle_b_true. lra.
    + constructor; [reflexivity | exact Hf].
Qed.

(** The events around a time of the curve: the sample at or before it, and
    the sample after it when there is one. *)
Lemma curve_lookup (raw : num -> num) (s seg : R) :
  0 < seg ->
  forall (rest : list num) (tl_ : Timeline.t) (pre : list AutomationEvent)
         (e0 : AutomationEvent) (v0 : num) (i j : nat) (q : R),
    Timeline._timeline tl_ = pre ++ e0 :: curve_ramps raw rest (S i) s seg ->
    all_upto (Fin (s + INR i * seg)) pre ->
    time e0 = Fin (s + INR i * seg) -> value e0 = raw v0 ->
    is_setTargetAtTime e0 = false ->
    (j <= length rest)%nat ->
    s + INR (i + j) * seg <= q ->
    ((j < length rest)%nat -> q < s + INR (S (i + j)) * seg) ->
    exists e1,
      Timeline.get (Fin q) tl_ = Some e1
      /\ time e1 = Fin (s + INR (i + j) * seg)
      /\ value e1 = raw (nth j (v0 :: rest) NaN)
      /\ is_setTargetAtTime e1 = false
      /\ Timeline.getAfter (Fin q) tl_
         = if (j <? length rest)%nat
           then Some (NormalAutomationEvent
                        AutomationType.linearRampToValueAtTime
                        (Fin (s + INR (S (i + j)) * seg))
                        (raw (nth (S j) (v0 :: rest) NaN)))
           else None.
Proof.
  intros Hseg.
  induction rest as [| v rest IH];
    intros tl_ pre e0 v0 i j q Hl Hpre Ht0 Hv0 Htgt Hj Hq Hq'.
  - simpl in Hj. assert (j = 0)%nat by lia. subst j.
    rewrite Nat.add_0_r in *. cbn [curve_ramps] in Hl.
    destruct (get_middle tl_ pre [] e0 _ q Hl Hpre Ht0 Hq) as [Hg Ha];
      [constructor |].
    exists e0. repeat split; auto.
  - destruct j as [| j].
    + rewrite Nat.add_0_r in *. cbn [curve_ramps] in Hl.
      assert (Hlt : q < s + INR (S i) * seg) by (apply Hq'; simpl; lia).
      destruct (curve_ramps_sorted raw s seg (Rlt_le _ _ Hseg) (v :: rest) (S i))
        as (Hs & _ & _).
      cbn [curve_ramps] in Hs.
      destruct (get_middle tl_ pre _ e0 _ q Hl Hpre Ht0 Hq) as [Hg Ha].
      { apply sorted_after_head; [exact Hs |]. simpl. now apply Rlt_b_true. }
      exists e0. repeat split; auto.
    + replace (i + S j)%nat with (S i + j)%nat in * by lia.
      cbn [curve_ramps] in Hl.
      set (e0' := NormalAutomationEvent AutomationType.linearRampToValueAtTime
                                        (Fin (s + INR (S i) * seg)) (raw v)) in Hl.
      destruct (IH tl_ (pre ++ [e0]) e0' v (S i) j q) as (e1 & Hg & Ht & Hv & Hn & Ha).
      * now rewrite <- app_assoc.
      * apply all_upto_app.
        -- eapply all_upto_weaken; [| exact Hpre]. rewrite S_INR. simpl.
           apply Rle_b_true. nra.
        -- rewrite Ht0, S_INR. simpl. apply Rle_b_true. nra.
      * reflexivity.
      * reflexivity.
      * reflexivity.
      * simpl in Hj. lia.
      * exact Hq.
      * intros H. apply Hq'. simpl. lia.
      * exists e1. repeat split; auto.
Qed.

(** X17. A value curve is piecewise linear through its samples.  On a
    store with nothing after [startTime] and room for the samples,
    [setValueCurveAtTime(values, startTime, duration, scaling)] with
    [n >= 2] samples and a duration above zero returns, and then the value
    between the [i]-th and the next sample time is the linear interpolation
    of the two samples, the value at the [i]-th sample time is the [i]-th
    sample, and the value from [startTime + duration] on is the last sample
    (samples as raw values, read in the units of the parameter). *)
Theorem value_curve_is_piecewise_linear (p : Param) (values : list num)
        (startTime duration : R) (scaling : num) :
  (2 <= length values)%nat ->
  Forall (fun v => isFinite (curve_raw p scaling v) = true) values ->
  all_upto (Fin startTime) (Timeline._timeline (_events p)) ->
  (length (Timeline._timeline (_events p)) + length values
   <= Timeline.memory (_events p))%nat ->
  0 <= startTime -> 0 < duration ->
  let raw := curve_raw p scaling in
  let seg := duration / (INR (length values) - 1) in
  let at_ := fun i : nat => startTime + INR i * seg in
  exists p',
    setValueCurveAtTime values (Fin startTime) (Fin duration) scaling p
    = Ret tt p'
    /\ (forall (i : nat) (q : R),
          (S i < length values)%nat -> at_ i <= q < at_ (S i) ->
          getValueAtTime p' (Fin q)
          = _toType p (_linearInterpolate
                         (Fin (at_ i)) (raw (nth i values NaN))
                         (Fin (at_ (S i))) (raw (nth (S i) values NaN))
                         (Fin q)))
    /\ (forall i : nat,
          (i < length values)%nat ->
          getValueAtTime p' (Fin (at_ i)) = _toType p (raw (nth i values NaN)))
    /\ (forall q : R,
          startTime + duration <= q ->
          getValueAtTime p' (Fin q)
          = _toType p (raw (nth (length values - 1) values NaN))).
Proof.
  intros Hn Hfin Hup Hm Hs0 Hd raw seg at_.
  rewrite (setValueCurveAtTime_returns p values startTime duration scaling Hn Hfin).
  fold raw. set (p' := record_all _ p).
  exists p'. split; [reflexivity |].
  destruct values as [| v0 rest]; [simpl in Hn; lia |].
  assert (Hk : 0 < INR (length rest)).
  { apply lt_0_INR. simpl in Hn. lia. }
  assert (Hsegv : seg = duration / INR (length rest)).
  { unfold seg. cbn [length]. rewrite S_INR. f_equal. lra. }
  assert (Hseg : 0 < seg).
  { rewrite Hsegv. now apply Rdiv_lt_0_compat. }
  assert (Hend : at_ (length rest) = startTime + duration).
  { unfold at_. rewrite Hsegv. field. lra. }
  assert (Hat : forall i, 0 <= at_ i).
  { intros i. unfold at_. pose proof (pos_INR i). nra. }
  assert (Hsetup : same_setup p p') by apply record_all_same_setup.
  set (e0 := NormalAutomationEvent AutomationType.setValueAtTime
                                   (Fin startTime) (raw v0)).
  assert (Hat0 : startTime = startTime + INR 0 * seg) by (simpl; lra).
  assert (Htl : Timeline._timeline (_events p')
                = Timeline._timeline (_events p)
                  ++ e0 :: curve_ramps raw rest 1 startTime seg).
  { unfold p'. cbn [curve_events]. fold seg. fold e0.
    destruct (curve_ramps_sorted raw startTime seg (Rlt_le _ _ Hseg) rest 1)
      as (Hsr & Hlo & Hf).
    assert (Hlo0 : Forall (fun e => (Fin startTime <=? time e)%num = true)
                          (curve_ramps raw rest 1 startTime seg)).
    { eapply Forall_impl; [| exact Hlo]. intros e He.
      eapply leb_trans; [| exact He]. simpl. apply Rle_b_true. nra. }
    eapply (record_all_timeline _ p (Fin startTime)); auto.
    - constructor; [| exact Hlo0]. simpl. apply Rle_b_true. lra.
    - constructor; [exact Hsr | exact Hlo0].
    - constructor; [reflexivity | exact Hf].
    - simpl. rewrite curve_ramps_length. simpl in Hm. lia. }
  assert (Hlook :
            forall (j : nat) (q : R),
              (j <= length rest)%nat -> at_ j <= q ->
              ((j < length rest)%nat -> q < at_ (S j)) ->
              exists e1,
                Timeline.get (Fin q) (_events p') = Some e1
                /\ time e1 = Fin (at_ j)
                /\ value e1 = raw (nth j (v0 :: rest) NaN)
                /\ is_setTargetAtTime e1 = false
                /\ Timeline.getAfter (Fin q) (_events p')
                   = if (j <? length rest)%nat
                     then Some (NormalAutomationEvent
                                  AutomationType.linearRampToValueAtTime
                                  (Fin (at_ (S j)))
                                  (raw (nth (S j) (v0 :: rest) NaN)))
                     else None).
  { intros j q Hj Hq Hq'.
    apply (curve_lookup raw startTime seg Hseg rest (_events p')
                        (Timeline._timeline (_events p)) e0 v0 0 j q); auto.
    - now rewrite <- Hat0.
    - simpl. f_equal. lra. }
  assert (Hinside :
            forall (i : nat) (q : R),
              (S i < length (v0 :: rest))%nat -> at_ i <= q < at_ (S i) ->
              getValueAtTime p' (Fin q)
              = _toType p (_linearInterpolate
                             (Fin (at_ i)) (raw (nth i (v0 :: rest) NaN))
                             (Fin (at_ (S i)))
                             (raw (nth (S i) (v0 :: rest) NaN)) (Fin q))).
  { intros i q Hi [Hq1 Hq2].
    assert (Hi' : (i < length rest)%nat) by (simpl in Hi; lia).
    destruct (Hlook i q) as (e1 & Hg & Ht & Hv & Hnt & Ha); auto; [lia |].
    apply Nat.ltb_lt in Hi'. rewrite Hi' in Ha.
    unfold getValueAtTime, toSeconds.
    rewrite Math_max_0_nonneg by (specialize (Hat i); lra).
    rewrite Hg, Ha, Hnt, Ht, Hv.
    rewrite (toType_same_setup p p') by exact Hsetup. reflexivity. }
  assert (Hafter :
            forall q : R,
              startTime + duration <= q ->
              getValueAtTime p' (Fin q)
              = _toType p (raw (nth (length (v0 :: rest) - 1) (v0 :: rest) NaN))).
  { intros q Hq.
    destruct (Hlook (length rest) q) as (e1 & Hg & Ht & Hv & Hnt & Ha);
      auto; [lra | lia |].
    rewrite Nat.ltb_irrefl in Ha.
    unfold getValueAtTime, toSeconds.
    rewrite Math_max_0_nonneg by lra.
    rewrite Hg, Ha, Hnt, Hv.
    rewrite (toType_same_setup p p') by exact Hsetup.
    cbn [length]. now rewrite Nat.sub_succ, Nat.sub_0_r. }
  split; [exact Hinside |]. split; [| exact Hafter].
  intros i Hi.
  destruct (Nat.eq_dec i (length rest)) as [-> | Hne].
  - rewrite Hend, Hafter by lra.
    cbn [length]. now rewrite Nat.sub_succ, Nat.sub_0_r.
  - assert (Hi' : (S i < length (v0 :: rest))%nat) by (simpl in *; lia).
    assert (Hstep : at_ i < at_ (S i)).
    { unfold at_. rewrite S_INR. nra. }
    rewrite (Hinside i (at_ i) Hi') by lra.
    f_equal.
    assert (Hfi : forall k, (k < length (v0 :: rest))%nat ->
                            exists x, raw (nth k (v0 :: rest) NaN) = Fin x).
    { intros k Hk'. rewrite Forall_forall in Hfin.
      specialize (Hfin (nth k (v0 :: rest) NaN) (nth_In _ _ Hk')).
      fold raw in Hfin.
      destruct (raw (nth k (v0 :: rest) NaN)); try discriminate. eauto. }
    destruct (Hfi i Hi) as [x Hx]. destruct (Hfi (S i) Hi') as [y Hy].
    rewrite Hx, Hy, linearInterpolate_fin by exact Hstep.
    f_equal. field. lra.
Qed.

(** X18. The short arrays of [setValueCurveAtTime].  An empty array has no
    first sample: on a parameter without unit conversion the call throws
    and leaves the state as it was.  A single sample is one
    [setValueAtTime] at [startTime] and nothing else, whatever the
    duration. *)
Theorem value_curve_short_arrays (p : Param) (startTime duration : R)
        (scaling : num) :
  (unconverted p ->
   exists msg,
     setValueCurveAtTime [] (Fin startTime) (Fin duration) scaling p
     = Throw msg p)
  /\ (forall v : num,
        isFinite (curve_raw p scaling v) = true ->
        setValueCurveAtTime [v] (Fin startTime) (Fin duration) scaling p
        = Ret tt (record (NormalAutomationEvent AutomationType.setValueAtTime
                                                (Fin startTime)
                                                (curve_raw p scaling v))
                         (sink_setValueAtTime (curve_raw p scaling v)
                                              (Fin startTime)) p)).
Proof.
  split.
  - intros Hu. unfold setValueCurveAtTime, toSeconds.
    unfold bind at 1. unfold gets at 1. unfold bind at 1. unfold gets at 1.
    unfold bind at 1. cbn [nth].
    rewrite !unconverted_fromType, unconverted_toType by exact Hu.
    unfold setValueAtTime, bind, gets, assert, toSeconds.
    rewrite unconverted_fromType by exact Hu.
    simpl. eexists. reflexivity.
  - intros v Hv. unfold setValueCurveAtTime, toSeconds.
    unfold bind at 1. unfold gets at 1. unfold bind at 1. unfold gets at 1.
    unfold bind at 1. cbn [nth tl].
    rewrite setValueAtTime_returns; auto.
Qed.

(** *** A hold inside a ramp *)

Lemma add_after_two (s : Timeline.t) (l : list AutomationEvent)
      (e1 e2 e3 : AutomationEvent) (t0 : num) :
  Timeline._timeline s = l ++ [e1; e2] -> all_upto t0 l ->
  all_upto (time e3) (Timeline._timeline s) ->
  (3 <= Timeline.memory s)%nat ->
  exists l', Timeline._timeline (Timeline.add e3 s) = l' ++ [e1; e2; e3]
             /\ all_upto t0 l'.
Proof.
  intros Hl Hup H3 Hm. rewrite (add_last e3 s H3). unfold kept. rewrite Hl.
  destruct (Nat.leb_spec (Timeline.memory s) (length (l ++ [e1; e2]))) as [Hle | _].
  - destruct l as [| x l0].
    + simpl in Hle. lia.
    + exists l0. split.
      * simpl. now rewrite <- app_assoc.
      * now inversion Hup.
  - exists l. split; [now rewrite <- app_assoc | exact Hup].
Qed.

Lemma cancelAndHoldAtTime_in_linear_ramp (p : Param) (l : list AutomationEvent)
      (e1 : AutomationEvent) (t0 t1 h vh : R) (v1 : num) :
  unconverted p ->
  Timeline._timeline (_events p)
  = l ++ [e1; NormalAutomationEvent AutomationType.linearRampToValueAtTime
                                    (Fin t1) v1] ->
  all_upto (Fin t0) l -> time e1 = Fin t0 -> t0 < h < t1 ->
  getValueAtTime p (Fin h) = Fin vh ->
  (3 <= Timeline.memory (_events p))%nat ->
  exists p' l',
    cancelAndHoldAtTime (Fin h) p = Ret tt p'
    /\ same_setup p p'
    /\ Timeline._timeline (_events p')
       = l' ++ [e1;
                NormalAutomationEvent AutomationType.linearRampToValueAtTime
                                      (Fin h) (Fin vh);
                NormalAutomationEvent AutomationType.setValueAtTime
                                      (Fin h) (Fin vh)]
    /\ all_upto (Fin t0) l'.
Proof.
  intros Hu Hl Hup He1 Hh Hval Hm.
  set (e2 := NormalAutomationEvent _ _ _) in Hl.
  destruct (lookups_in_last_segment (_events p) l e1 e2 t0 t1 h Hl Hup He1 eq_refl)
    as [Hget Haft]; [lra |].
  unfold cancelAndHoldAtTime, bind, gets, assert, sink, toSeconds.
  cbn [isFinite set_param _events].
  rewrite Hval, (unconverted_fromType p _ Hu), Hget, Haft, He1.
  cbn [eqb]. rewrite Req_b_false by lra.
  cbn [is_linearRampToValueAtTime e2 time]. unfold events_cancel.
  set (p1 := set_events _ _).
  assert (Hs1 : same_setup p p1) by (repeat split).
  assert (Hu1 : unconverted p1) by (eapply unconverted_same_setup; eauto).
  assert (Hc : Timeline._timeline (_events p1) = l ++ [e1]).
  { unfold p1. cbn [_events set_events set_param Timeline.cancel Timeline._timeline].
    rewrite Hl. apply filter_two_trailing.
    - eapply Forall_impl; [| exact Hup]. intros a Ha. cbv beta in Ha |- *.
      destruct (time a); simpl in *; try discriminate; auto.
      apply Rle_b_spec in Ha. rewrite Rle_b_false by lra. reflexivity.
    - rewrite He1. simpl. rewrite Rle_b_false by lra. reflexivity.
    - simpl. rewrite Rle_b_true by lra. reflexivity. }
  rewrite linearRampToValueAtTime_returns;
    rewrite ?(unconverted_toType p1 _ Hu1), ?(unconverted_fromType p1 _ Hu1); auto.
  set (e3 := NormalAutomationEvent AutomationType.linearRampToValueAtTime
                                   (Fin h) (Fin vh)).
  set (p2 := record e3 _ p1).
  unfold events_add.
  set (e4 := NormalAutomationEvent AutomationType.setValueAtTime (Fin h) (Fin vh)).
  assert (He : ends_with (Fin t0) e1 (_events p1)).
  { exists l. split; [exact Hc | exact Hup]. }
  destruct (ends_with_add_later (_events p1) (Fin t0) e1 e3 He) as (l2 & Hl2 & Hup2).
  { rewrite He1. simpl. apply Rle_b_true. lra. }
  { simpl. apply Rle_b_true. lra. }
  { change (Timeline.memory (_events p1)) with (Timeline.memory (_events p)). lia. }
  destruct (add_after_two (_events p2) l2 e1 e3 e4 (Fin t0)) as (l3 & Hl3 & Hup3);
    auto.
  { unfold p2. rewrite record_events, Hl2. apply Forall_app. split.
    - eapply all_upto_weaken; [| exact Hup2]. simpl. apply Rle_b_true. lra.
    - repeat constructor; [rewrite He1 |]; simpl; apply Rle_b_true; lra. }
  eexists. exists l3. split; [reflexivity |]. split; [| split; [exact Hl3 | exact Hup3]].
  repeat split.
Qed.

(** X19. A hold in the middle of a linear ramp keeps the ramp up to the hold.
    After [setValueAtTime(v0, t0)], [linearRampToValueAtTime(v1, t1)] and
    [cancelAndHoldAtTime(h)] with [t0 < h < t1], on a parameter without
    unit conversion, the value between [t0] and [h] is still on the line
    from [(t0, v0)] to [(t1, v1)], and from [h] on it is the value of that
    line at [h]. *)
Theorem hold_inside_linear_ramp (p : Param) (v0 t0 v1 t1 h : R) :
  unconverted p ->
  (3 <= Timeline.memory (_events p))%nat ->
  all_upto (Fin t0) (Timeline._timeline (_events p)) ->
  0 <= t0 -> t0 < h < t1 ->
  let line := fun q => v0 + (v1 - v0) * (q - t0) / (t1 - t0) in
  exists p',
    (setValueAtTime (Fin v0) (Fin t0) ;;
     linearRampToValueAtTime (Fin v1) (Fin t1) ;;
     cancelAndHoldAtTime (Fin h)) p = Ret tt p'
    /\ (forall q, t0 <= q <= h -> getValueAtTime p' (Fin q) = Fin (line q))
    /\ (forall q, h <= q -> getValueAtTime p' (Fin q) = Fin (line h)).
Proof.
  intros Hu Hm Hup Ht0 Hh line.
  unfold bind at 1.
  rewrite setValueAtTime_returns; rewrite ?unconverted_fromType; auto.
  set (e1 := NormalAutomationEvent AutomationType.setValueAtTime (Fin t0) (Fin v0)).
  set (p1 := record e1 _ p).
  assert (Hs1 : same_setup p p1) by apply record_same_setup.
  assert (Hu1 : unconverted p1) by (eapply unconverted_same_setup; eauto).
  unfold bind at 1.
  rewrite linearRampToValueAtTime_returns; rewrite ?unconverted_fromType; auto.
  set (e2 := NormalAutomationEvent AutomationType.linearRampToValueAtTime
                                   (Fin t1) (Fin v1)).
  set (p2 := record e2 _ p1).
  assert (Hs2 : same_setup p p2).
  { eapply same_setup_trans; [exact Hs1 | apply record_same_setup]. }
  assert (Hu2 : unconverted p2) by (eapply unconverted_same_setup; eauto).
  destruct (set_then_event_store p (Fin v0) t0 t1 e2
              (sink_setValueAtTime (Fin v0) (Fin t0))
              (sink_linearRampToValueAtTime (Fin v1) (Fin t1)) Hup)
    as (l & Hl & Hupl); [lia | reflexivity | lra |].
  fold e1 in Hl. fold p1 in Hl. fold p2 in Hl.
  assert (Hval : getValueAtTime p2 (Fin h) = Fin (line h)).
  { rewrite (getValueAtTime_linear_segment p2 l e1 t0 t1 h (Fin v1) Hl Hupl);
      auto; try lra.
    rewrite unconverted_toType by exact Hu2.
    apply linearInterpolate_fin. lra. }
  destruct (cancelAndHoldAtTime_in_linear_ramp p2 l e1 t0 t1 h (line h) (Fin v1)
              Hu2 Hl Hupl eq_refl Hh Hval)
    as (p3 & l3 & Hret & Hs3 & Hl3 & Hup3).
  { destruct Hs2 as (_ & _ & _ & _ & _ & _ & Hmem). rewrite Hmem. exact Hm. }
  assert (Hu3 : unconverted p3) by (eapply unconverted_same_setup; eauto).
  exists p3. split; [exact Hret |].
  set (e3 := NormalAutomationEvent AutomationType.linearRampToValueAtTime
                                   (Fin h) (Fin (line h))) in Hl3.
  set (e4 := NormalAutomationEvent AutomationType.setValueAtTime
                                   (Fin h) (Fin (line h))) in Hl3.
  assert (Hafter : forall q, h <= q -> getValueAtTime p3 (Fin q) = Fin (line h)).
  { intros q Hq.
    rewrite (getValueAtTime_held p3 (Fin h) (Fin q) e4); auto.
    - now rewrite unconverted_toType.
    - exists (l3 ++ [e1; e3]). split.
      + rewrite Hl3, <- app_assoc. reflexivity.
      + apply Forall_app. split.
        * eapply all_upto_weaken; [| exact Hup3]. simpl. apply Rle_b_true. lra.
        * repeat constructor; simpl; apply Rle_b_true; lra.
    - simpl. apply Rle_b_true. lra.
    - rewrite Math_max_0_nonneg by lra. simpl. now apply Rle_b_true. }
  split; [| exact Hafter].
  intros q [Hq1 Hq2].
  destruct (Req_dec_T q h) as [-> | Hne]; [apply Hafter; lra |].
  destruct (get_middle (_events p3) l3 [e3; e4] e1 t0 q Hl3 Hup3 eq_refl Hq1)
    as [Hget Haft].
  { repeat constructor; simpl; apply Rlt_b_true; lra. }
  unfold getValueAtTime, toSeconds.
  rewrite Math_max_0_nonneg by lra.
  rewrite Hget, Haft. cbn [hd_error e1 e3 is_setTargetAtTime andb orb
                            is_linearRampToValueAtTime time value].
  rewrite unconverted_toType by exact Hu3.
  rewrite linearInterpolate_fin by lra.
  f_equal. unfold line. field. lra.
Qed.

End Methods.

(** ** Scenarios *)

Import Conversions.

Lemma fresh_unconverted : unconverted fresh.
Proof. right. reflexivity. Qed.

Lemma fresh_ordered : ordered (_events fresh).
Proof. split; constructor. Qed.

(** C1, the scenario of the specification: [setValueAtTime(0, 0)], then
    [linearRampToValueAtTime(1, 1)]; the value is 0.5 at 0.5, 1 at 1 and 1
    at 2. *)
Lemma linear_ramp_scenario :
  exists p',
    (setValueAtTime dbToGain (Fin 0) (Fin 0) ;;
     linearRampToValueAtTime dbToGain (Fin 1) (Fin 1)) fresh = Ret tt p'
    /\ getValueAtTime gainToDb p' (Fin 0.5) = Fin 0.5
    /\ getValueAtTime gainToDb p' (Fin 1) = Fin 1
    /\ getValueAtTime gainToDb p' (Fin 2) = Fin 1.
Proof.
  destruct (linear_ramp_exact dbToGain gainToDb fresh 0 0 1 1)
    as (p' & Hret & Hin & Hout & _).
  - exact fresh_unconverted.
  - simpl. lia.
  - constructor.
  - lra.
  - lra.
  - exists p'. split; [exact Hret |]. split; [| split].
    + rewrite Hin by lra. f_equal. lra.
    + rewrite Hin by lra. f_equal. lra.
    + apply Hout. lra.
Defined.

(** The number [1 - 1/e] of the scenario is 0.632 to three places: [exp (-1)]
    is the 2048th power of [exp (-1/2048)], which lies between
    [1 - 1/2048] and [2048/2049]. *)
Lemma one_minus_inverse_e : 0.632 < 1 - exp (- 1) < 0.633.
Proof.
  assert (H0 : 0.999511718750 <= exp (- 1 / 2048) <= 0.999511957053).
  { pose proof (exp_ineq1_le (- 1 / 2048)) as Hlo.
    pose proof (exp_ineq1_le (1 / 2048)) as Hup.
    pose proof (exp_pos (- 1 / 2048)) as Hpos.
    assert (Hinv : exp (- 1 / 2048) * exp (1 / 2048) = 1).
    { rewrite <- exp_plus. replace (- 1 / 2048 + 1 / 2048) with 0 by lra.
      apply exp_0. }
    split; [lra | nra]. }
  assert (H1 : 0.999023675918 <= exp (- 1 / 1024) <= 0.999024152292).
  { replace (- 1 / 1024) with (- 1 / 2048 + - 1 / 2048) by lra. rewrite exp_plus.
    pose proof (exp_pos (- 1 / 2048)). nra. }
  assert (H2 : 0.998048305044 <= exp (- 1 / 512) <= 0.998049256863).
  { replace (- 1 / 512) with (- 1 / 1024 + - 1 / 1024) by lra. rewrite exp_plus.
    pose proof (exp_pos (- 1 / 1024)). nra. }
  assert (H3 : 0.996100419201 <= exp (- 1 / 256) <= 0.996102319125).
  { replace (- 1 / 256) with (- 1 / 512 + - 1 / 512) by lra. rewrite exp_plus.
    pose proof (exp_pos (- 1 / 512)). nra. }
  assert (H4 : 0.992216045132 <= exp (- 1 / 128) <= 0.992219830167).
  { replace (- 1 / 128) with (- 1 / 256 + - 1 / 256) by lra. rewrite exp_plus.
    pose proof (exp_pos (- 1 / 256)). nra. }
  assert (H5 : 0.984492680217 <= exp (- 1 / 64) <= 0.984500191377).
  { replace (- 1 / 64) with (- 1 / 128 + - 1 / 128) by lra. rewrite exp_plus.
    pose proof (exp_pos (- 1 / 128)). nra. }
  assert (H6 : 0.969225837400 <= exp (- 1 / 32) <= 0.969240626822).
  { replace (- 1 / 32) with (- 1 / 64 + - 1 / 64) by lra. rewrite exp_plus.
    pose proof (exp_pos (- 1 / 64)). nra. }
  assert (H7 : 0.939398723883 <= exp (- 1 / 16) <= 0.939427392683).
  { replace (- 1 / 16) with (- 1 / 32 + - 1 / 32) by lra. rewrite exp_plus.
    pose proof (exp_pos (- 1 / 32)). nra. }
  assert (H8 : 0.882469962433 <= exp (- 1 / 8) <= 0.882523826124).
  { replace (- 1 / 8) with (- 1 / 16 + - 1 / 16) by lra. rewrite exp_plus.
    pose proof (exp_pos (- 1 / 16)). nra. }
  assert (H9 : 0.778753234596 <= exp (- 1 / 4) <= 0.778848303677).
  { replace (- 1 / 4) with (- 1 / 8 + - 1 / 8) by lra. rewrite exp_plus.
    pose proof (exp_pos (- 1 / 8)). nra. }
  assert (H10 : 0.606456600393 <= exp (- 1 / 2) <= 0.606604680141).
  { replace (- 1 / 2) with (- 1 / 4 + - 1 / 4) by lra. rewrite exp_plus.
    pose proof (exp_pos (- 1 / 4)). nra. }
  assert (H11 : 0.367789608160 <= exp (- 1) <= 0.367969237969).
  { replace (- 1) with (- 1 / 2 + - 1 / 2) by lra. rewrite exp_plus.
    pose proof (exp_pos (- 1 / 2)). nra. }
  lra.
Qed.

(** C2, the scenario of the specification: [setTargetAtTime(1, 0, 0.1)]
    from the initial value 0; the value at 0.1 is [1 - 1/e], about 0.632. *)
Lemma target_approach_scenario :
  exists p',
    setTargetAtTime dbToGain (Fin 1) (Fin 0) (Fin 0.1) fresh = Ret tt p'
    /\ getValueAtTime gainToDb p' (Fin 0.1) = Fin (1 - exp (- 1))
    /\ 0.632 < 1 - exp (- 1) < 0.633.
Proof.
  rewrite setTargetAtTime_returns; try reflexivity;
    [| simpl; apply Rlt_b_true; lra].
  eexists. split; [reflexivity |]. split; [| exact one_minus_inverse_e].
  match goal with |- getValueAtTime _ ?q _ = _ => set (p' := q) end.
  destruct (target_approach_value gainToDb p' 0.1 0 1 0.1 0) as [_ H].
  - lra.
  - unfold Timeline.get. simpl. rcompare. reflexivity.
  - unfold Timeline.getAfter. simpl. rcompare. exact I.
  - lra.
  - unfold Timeline.getBefore. simpl. rcompare. reflexivity.
  - rewrite H by (right; reflexivity). f_equal.
    replace (- (0.1 - 0) / 0.1) with (- 1) by lra. lra.
Defined.

(** The sample states are what the calls produce. *)
Lemma holding_is_setValueAtTime (v t : R) :
  setValueAtTime dbToGain (Fin v) (Fin t) fresh = Ret tt (holding v t).
Proof. now rewrite setValueAtTime_returns. Qed.

Lemma ramp01_is_linearRampToValueAtTime :
  linearRampToValueAtTime dbToGain (Fin 1) (Fin 1) (holding 0 0) = Ret tt ramp01.
Proof. now rewrite linearRampToValueAtTime_returns. Qed.

Lemma target1_is_setTargetAtTime :
  setTargetAtTime dbToGain (Fin 1) (Fin 1) (Fin 0.5) fresh = Ret tt target1.
Proof.
  rewrite setTargetAtTime_returns; try reflexivity.
  simpl. apply Rlt_b_true. lra.
Qed.

Lemma ramp01_timeline :
  Timeline._timeline (_events ramp01)
  = [NormalAutomationEvent AutomationType.setValueAtTime (Fin 0) (Fin 0);
     NormalAutomationEvent AutomationType.linearRampToValueAtTime (Fin 1) (Fin 1)].
Proof. simpl. rcompare. reflexivity. Qed.

Lemma ramp01_ordered : ordered (_events ramp01).
Proof.
  split; rewrite ramp01_timeline.
  - repeat constructor.
  - repeat constructor. unfold time_le. simpl. apply Rle_b_true. lra.
Qed.

Lemma ramp01_half : getValueAtTime gainToDb ramp01 (Fin 0.5) = Fin 0.5.
Proof.
  unfold getValueAtTime, Timeline.get, Timeline.getAfter, toSeconds.
  rewrite ramp01_timeline, Math_max_0_nonneg by lra.
  simpl. rcompare. simpl. rcompare. simpl.
  unfold _linearInterpolate, sub. simpl. rcompare. simpl.
  rewrite unconverted_toType by (right; reflexivity). f_equal. field.
Qed.

(** C3 on the ramp from 0 at time 0 to 1 at time 1, held at 0.5: the ramp is
    replayed up to 0.5, the value at 0.5 stays 0.5 and nothing is left after
    0.5. *)
Lemma cancel_and_hold_scenario :
  reanchors ramp01 (Fin 0.5) = true
  /\ exists p',
      cancelAndHoldAtTime dbToGain gainToDb (Fin 0.5) ramp01 = Ret tt p'
      /\ getValueAtTime gainToDb p' (Fin 0.5) = Fin 0.5
      /\ Forall (fun e => (Fin 0.5 <? time e)%num = false)
                (Timeline._timeline (_events p')).
Proof.
  split.
  - unfold reanchors, Timeline.get, Timeline.getAfter.
    rewrite ramp01_timeline. simpl. rcompare. simpl. rcompare. reflexivity.
  - destruct (cancel_and_hold_keeps_value dbToGain gainToDb ramp01 0.5)
      as (p' & Hret & Hval & Hafter).
    + exact ramp01_ordered.
    + intros _. unfold held_value. rewrite ramp01_half. reflexivity.
    + exists p'. split; [exact Hret |]. split; [| exact Hafter].
      rewrite Hval, ramp01_half. reflexivity.
Defined.

Lemma target1_timeline :
  Timeline._timeline (_events target1)
  = [TargetAutomationEvent (Fin 1) (Fin 1) (Fin 0.5)].
Proof. reflexivity. Qed.

Lemma target1_ordered : ordered (_events target1).
Proof. split; rewrite target1_timeline; repeat constructor. Qed.

Lemma target1_get :
  Timeline.get (Fin 1) (_events target1)
  = Some (TargetAutomationEvent (Fin 1) (Fin 1) (Fin 0.5)).
Proof. unfold Timeline.get. simpl. rcompare. reflexivity. Qed.

(** C4 on the target approach recorded at time 1, held at 1: the target
    approach stays in the store, with the new [setValueAtTime] behind it. *)
Lemma cancel_and_hold_at_event_scenario :
  exists p',
    cancelAndHoldAtTime dbToGain gainToDb (Fin 1) target1 = Ret tt p'
    /\ Timeline.get (Fin 1) (_events p')
       = Some (NormalAutomationEvent AutomationType.setValueAtTime (Fin 1)
                                     (held_value dbToGain gainToDb target1 (Fin 1)))
    /\ In (TargetAutomationEvent (Fin 1) (Fin 1) (Fin 0.5))
          (Timeline._timeline (_events p')).
Proof.
  destruct (cancel_and_hold_at_event dbToGain gainToDb target1 1 (1 / 44100)
              (TargetAutomationEvent (Fin 1) (Fin 1) (Fin 0.5)))
    as (p' & Hret & _ & Hget & _ & Hin).
  - exact target1_ordered.
  - reflexivity.
  - lra.
  - exact target1_get.
  - reflexivity.
  - exists p'. split; [exact Hret |]. split; [exact Hget |].
    apply Hin. simpl. lia.
Defined.

(** C4 as worded fails on the same input: after [cancelAndHoldAtTime(1)]
    the target approach recorded at 1 is still in the store. *)
Lemma event_at_hold_time_survives :
  exists p',
    setTargetAtTime dbToGain (Fin 1) (Fin 1) (Fin 0.5) fresh = Ret tt target1
    /\ cancelAndHoldAtTime dbToGain gainToDb (Fin 1) target1 = Ret tt p'
    /\ ~ only_hold_remains dbToGain gainToDb target1 p' (Fin 1).
Proof.
  destruct (cancelAndHoldAtTime_at_event dbToGain gainToDb target1 1 (1 / 44100)
              (TargetAutomationEvent (Fin 1) (Fin 1) (Fin 0.5))
              target1_ordered eq_refl)
    as (p' & Hret & Hev);
    [lra | exact target1_get | reflexivity |].
  exists p'. split; [exact target1_is_setTargetAtTime |].
  split; [exact Hret |].
  intros Hclaim.
  specialize (Hclaim (TargetAutomationEvent (Fin 1) (Fin 1) (Fin 0.5))).
  assert (Hin : In (TargetAutomationEvent (Fin 1) (Fin 1) (Fin 0.5))
                   (Timeline._timeline (_events p'))).
  { rewrite Hev. apply add_upto_In.
    - exact target1_get.
    - reflexivity.
    - simpl. lia. }
  specialize (Hclaim Hin).
  assert (Hle : (Fin 1 <=? Fin 1)%num = true) by (simpl; apply Rle_b_true; lra).
  specialize (Hclaim Hle). discriminate Hclaim.
Qed.

Lemma fresh_value (t : num) : getValueAtTime gainToDb fresh t = Fin 0.
Proof. reflexivity. Qed.

(** C5 on the new parameter, whose value is zero: [setRampPoint(0)]
    schedules [1e-7], and so the linear ramp of [linearRampTo(1, 1, 0)]
    starts from [1e-7]. *)
Lemma ramp_point_scenario :
  (exists p',
      setRampPoint dbToGain gainToDb (Fin 0) fresh = Ret tt p'
      /\ getValueAtTime gainToDb p' (Fin 0) = Fin 1e-7)
  /\ (exists p'',
         linearRampTo dbToGain gainToDb (Fin 1) (Fin 1) (Some (Fin 0)) fresh
         = Ret tt p''
         /\ getValueAtTime gainToDb p'' (Fin 0) = Fin 1e-7).
Proof.
  destruct (ramp_point_substitutes_zero dbToGain gainToDb fresh 0)
    with (floor := 1e-7) as ((p' & Hret & _ & Hval) & Hlin & _).
  - exact fresh_ordered.
  - intros H. rewrite reanchors_none_after in H by constructor. discriminate H.
  - reflexivity.
  - reflexivity.
  - split.
    + exists p'. split; [exact Hret | exact Hval].
    + destruct (Hlin (Fin 1) 1) as (p'' & Hret' & _ & Hval'); try lra.
      * reflexivity.
      * simpl. lia.
      * exists p''. split; [exact Hret' | exact Hval'].
Defined.

(** C5 as worded fails on the same input: the value held at the start of the
    linear ramp is not zero any more. *)
Lemma linear_ramp_from_zero_starts_at_floor :
  ~ linear_ramp_starts_from_zero dbToGain gainToDb fresh (Fin 1) (Fin 1) (Fin 0).
Proof.
  intros Hclaim.
  destruct (linearRampTo_returns dbToGain gainToDb fresh (Fin 1) 0 1 1e-7)
    as (p'' & Hret & _ & Hval); try lra.
  - exact fresh_ordered.
  - intros H. rewrite reanchors_none_after in H by constructor. discriminate H.
  - unfold ramp_point_value. rewrite fresh_value.
    change (_fromType dbToGain fresh (Fin 0)) with (Fin 0).
    simpl (Fin 0 === Fin 0)%num. rewrite Req_b_true by reflexivity.
    reflexivity.
  - reflexivity.
  - simpl. lia.
  - specialize (Hclaim (fresh_value (Fin 0)) p'' Hret).
    rewrite Hval in Hclaim. simpl in Hclaim. injection Hclaim. lra.
Qed.

(** C6 on the new parameter: a requested zero is stored as [1e-7]. *)
Lemma exponential_ramp_to_zero_scenario :
  exponentialRampToValueAtTime dbToGain (Fin 0) (Fin 1) fresh
  = Ret tt (record
              (NormalAutomationEvent
                 AutomationType.exponentialRampToValueAtTime (Fin 1) (Fin 1e-7))
              (sink_exponentialRampToValueAtTime (Fin 1e-7) (Fin 1)) fresh).
Proof.
  destruct (exponential_ramp_floor dbToGain fresh (Fin 0) (Fin 1))
    as (_ & _ & Hzero & _).
  apply Hzero; reflexivity.
Defined.

(** C7 on the new parameter: a NaN value and an infinite time are
    refused, and nothing changes. *)
Lemma invalid_arguments_scenario :
  (exists msg, setValueAtTime dbToGain NaN (Fin 0) fresh = Throw msg fresh)
  /\ (exists msg, linearRampToValueAtTime dbToGain (Fin 1) PInf fresh
                  = Throw msg fresh)
  /\ (exists msg, setTargetAtTime dbToGain (Fin 1) (Fin 0) (Fin 0) fresh
                  = Throw msg fresh).
Proof.
  destruct (invalid_arguments_fail dbToGain gainToDb)
    as (Hset & Hlin & _ & _ & _ & Htc & _).
  split; [| split].
  - apply Hset. reflexivity.
  - apply Hlin. reflexivity.
  - apply Htc. simpl. apply Rlt_b_false. lra.
Defined.

(** C7 as worded fails for [exponentialRampToValueAtTime]: the negative
    infinity is not a finite value, and the call returns with a new event in
    the store. *)
Lemma exponential_ramp_accepts_negative_infinity :
  isFinite (_fromType dbToGain fresh NInf) = false
  /\ exponentialRampToValueAtTime dbToGain NInf (Fin 1) fresh
     = Ret tt (record
                 (NormalAutomationEvent
                    AutomationType.exponentialRampToValueAtTime (Fin 1) (Fin 1e-7))
                 (sink_exponentialRampToValueAtTime (Fin 1e-7) (Fin 1)) fresh)
  /\ ~ fails_on_non_finite dbToGain (exponentialRampToValueAtTime dbToGain).
Proof.
  assert (Hret : exponentialRampToValueAtTime dbToGain NInf (Fin 1) fresh
                 = Ret tt (record
                             (NormalAutomationEvent
                                AutomationType.exponentialRampToValueAtTime
                                (Fin 1) (Fin 1e-7))
                             (sink_exponentialRampToValueAtTime (Fin 1e-7) (Fin 1))
                             fresh)).
  { now rewrite exponentialRampToValueAtTime_returns. }
  split; [reflexivity |]. split; [exact Hret |].
  intros Hclaim.
  destruct (Hclaim fresh NInf (Fin 1) eq_refl) as (msg & Hthrow).
  rewrite Hret in Hthrow. discriminate Hthrow.
Qed.

(** C10 on a parameter holding 5 from time 1: the value at 0.5, and at -3,
    is the initial value. *)
Lemma initial_value_scenario :
  getValueAtTime gainToDb (holding 5 1) (Fin 0.5) = Fin 0
  /\ getValueAtTime gainToDb (holding 5 1) (Fin (- 3)) = Fin 0.
Proof.
  split.
  - apply (initial_value_before_first_event gainToDb (holding 5 1) (Fin 0.5)).
    repeat constructor. repeat (simpl; rcompare). reflexivity.
  - apply (initial_value_before_first_event gainToDb (holding 5 1) (Fin (- 3))).
    repeat constructor. repeat (simpl; rcompare). reflexivity.
Defined.

(** C10 as worded fails when the first event is at time zero: the time -1 is
    strictly before it, and the value read there is the 5 set at zero. *)
Lemma value_before_zero_is_value_at_zero :
  setValueAtTime dbToGain (Fin 5) (Fin 0) fresh = Ret tt (holding 5 0)
  /\ ~ initial_value_before_earliest gainToDb (holding 5 0) (Fin (- 1)).
Proof.
  split; [apply holding_is_setValueAtTime |].
  intros Hclaim.
  assert (Hbefore : Forall (fun e => (Fin (- 1) <? time e)%num = true)
                           (Timeline._timeline (_events (holding 5 0)))).
  { repeat constructor. simpl. apply Rlt_b_true. lra. }
  specialize (Hclaim Hbefore).
  assert (Hval : getValueAtTime gainToDb (holding 5 0) (Fin (- 1)) = Fin 5).
  { unfold getValueAtTime, Timeline.get, Timeline.getAfter, toSeconds.
    simpl. rcompare. simpl. rcompare. reflexivity. }
  rewrite Hval in Hclaim. simpl in Hclaim. injection Hclaim. lra.
Qed.

(** C9 on the new parameter: [exponentialApproachValueAtTime(1, 0, 1)]
    returns and the value at 1 is 1. *)
Lemma exponential_approach_scenario :
  exists p',
    exponentialApproachValueAtTime dbToGain gainToDb (Fin 1) (Fin 0) (Fin 1) fresh
    = Ret tt p'
    /\ getValueAtTime gainToDb p' (Fin 1) = Fin 1.
Proof.
  destruct (exponential_approach_arrives dbToGain gainToDb fresh (Fin 1) 0 1)
    as (_ & p' & Hret & _ & Hval).
  - exact fresh_ordered.
  - lra.
  - reflexivity.
  - intros H. rewrite reanchors_none_after in H; [discriminate H |].
    repeat constructor. simpl. apply Rle_b_true. lra.
  - exists p'. split; [exact Hret |].
    specialize (Hval fresh_unconverted).
    replace (0 + 1) with 1 in Hval by lra. exact Hval.
Defined.

(** C8, the scenario of the specification: [setValueCurveAtTime([0, 1, 0],
    0, 2)] records events at 0 (value 0), 1 (value 1) and 2 (value 0); the
    value is 0.5 at 0.5 and at 1.5. *)
Lemma value_curve_scenario :
  exists p',
    setValueCurveAtTime dbToGain gainToDb [Fin 0; Fin 1; Fin 0]
                        (Fin 0) (Fin 2) (Fin 1) fresh = Ret tt p'
    /\ Timeline._timeline (_events p')
       = [NormalAutomationEvent AutomationType.setValueAtTime (Fin 0) (Fin 0);
          NormalAutomationEvent AutomationType.linearRampToValueAtTime
                                (Fin 1) (Fin 1);
          NormalAutomationEvent AutomationType.linearRampToValueAtTime
                                (Fin 2) (Fin 0)]
    /\ getValueAtTime gainToDb p' (Fin 0.5) = Fin 0.5
    /\ getValueAtTime gainToDb p' (Fin 1.5) = Fin 0.5.
Proof.
  destruct (value_curve_events dbToGain gainToDb fresh [Fin 0; Fin 1; Fin 0]
                               0 2 (Fin 1))
    as (Hret & _ & _ & _ & Hraw).
  - simpl. lia.
  - repeat constructor.
  - specialize (Hraw fresh_unconverted).
    assert (Hev : curve_events (curve_raw dbToGain gainToDb fresh (Fin 1))
                               [Fin 0; Fin 1; Fin 0] 0 2
                  = [NormalAutomationEvent AutomationType.setValueAtTime
                       (Fin 0) (Fin 0);
                     NormalAutomationEvent AutomationType.linearRampToValueAtTime
                       (Fin 1) (Fin 1);
                     NormalAutomationEvent AutomationType.linearRampToValueAtTime
                       (Fin 2) (Fin 0)]).
    { unfold curve_events, curve_ramps. rewrite !Hraw. simpl.
      repeat f_equal; field. }
    rewrite Hev in Hret.
    eexists. split; [exact Hret |].
    assert (Htl : Timeline._timeline
                    (_events (record_all
                       [NormalAutomationEvent AutomationType.setValueAtTime
                          (Fin 0) (Fin 0);
                        NormalAutomationEvent
                          AutomationType.linearRampToValueAtTime (Fin 1) (Fin 1);
                        NormalAutomationEvent
                          AutomationType.linearRampToValueAtTime (Fin 2) (Fin 0)]
                       fresh))
                  = [NormalAutomationEvent AutomationType.setValueAtTime
                       (Fin 0) (Fin 0);
                     NormalAutomationEvent AutomationType.linearRampToValueAtTime
                       (Fin 1) (Fin 1);
                     NormalAutomationEvent AutomationType.linearRampToValueAtTime
                       (Fin 2) (Fin 0)]).
    { repeat (simpl; rcompare). reflexivity. }
    split; [exact Htl |]. split.
    + unfold getValueAtTime, Timeline.get, Timeline.getAfter, toSeconds.
      rewrite Htl, Math_max_0_nonneg by lra.
      repeat (simpl; rcompare).
      unfold _linearInterpolate, sub. repeat (simpl; rcompare).
      rewrite unconverted_toType by (right; reflexivity). f_equal. field.
    + unfold getValueAtTime, Timeline.get, Timeline.getAfter, toSeconds.
      rewrite Htl, Math_max_0_nonneg by lra.
      repeat (simpl; rcompare).
      unfold _linearInterpolate, sub. repeat (simpl; rcompare).
      rewrite unconverted_toType by (right; reflexivity). f_equal.
      replace (2 + - (1)) with 1 by lra. lra.
Defined.

Lemma expramp01_is_exponentialRampToValueAtTime :
  exponentialRampToValueAtTime dbToGain (Fin 1) (Fin 1) (holding 0 0)
  = Ret tt expramp01.
Proof.
  rewrite exponentialRampToValueAtTime_returns;
    change (_fromType dbToGain (holding 0 0) (Fin 1)) with (Fin 1);
    rewrite ?Math_max_minOutput_fin; try reflexivity.
  unfold expramp01. unfold Rmax. destruct (Rle_dec 1e-7 1); [reflexivity | lra].
Qed.

(** C3 as worded fails inside an exponential ramp that starts from zero:
    the ramp has no value between its ends (NaN), and
    [cancelAndHoldAtTime(0.5)] throws in the replay of the ramp, after the
    removal of the ramp, so that the value read at 0.5 has become 0. *)
Lemma hold_of_undefined_value_throws :
  setValueAtTime dbToGain (Fin 0) (Fin 0) fresh = Ret tt (holding 0 0)
  /\ exponentialRampToValueAtTime dbToGain (Fin 1) (Fin 1) (holding 0 0)
     = Ret tt expramp01
  /\ getValueAtTime gainToDb expramp01 (Fin 0.5) = NaN
  /\ (exists msg p',
        cancelAndHoldAtTime dbToGain gainToDb (Fin 0.5) expramp01 = Throw msg p'
        /\ Timeline._timeline (_events p')
           = [NormalAutomationEvent AutomationType.setValueAtTime (Fin 0) (Fin 0)])
  /\ ~ hold_keeps_value dbToGain gainToDb expramp01 (Fin 0.5).
Proof.
  assert (Htl : Timeline._timeline (_events expramp01)
                = [NormalAutomationEvent AutomationType.setValueAtTime
                     (Fin 0) (Fin 0);
                   NormalAutomationEvent
                     AutomationType.exponentialRampToValueAtTime (Fin 1) (Fin 1)]).
  { repeat (simpl; rcompare). reflexivity. }
  assert (Hget : Timeline.get (Fin 0.5) (_events expramp01)
                 = Some (NormalAutomationEvent AutomationType.setValueAtTime
                           (Fin 0) (Fin 0))).
  { unfold Timeline.get. rewrite Htl. repeat (simpl; rcompare). reflexivity. }
  assert (Haft : Timeline.getAfter (Fin 0.5) (_events expramp01)
                 = Some (NormalAutomationEvent
                           AutomationType.exponentialRampToValueAtTime
                           (Fin 1) (Fin 1))).
  { unfold Timeline.getAfter. rewrite Htl. repeat (simpl; rcompare). reflexivity. }
  assert (Hcurve : _exponentialInterpolate (Fin 0) (Fin 0) (Fin 1) (Fin 1) (Fin 0.5)
                   = NaN).
  { unfold _exponentialInterpolate, sub. cbn [neg add].
    replace (Fin (0.5 + - 0) / Fin (1 + - 0))%num with (Fin 0.5).
    - replace (Fin 1 / Fin 0)%num with PInf by (simpl; rcompare; reflexivity).
      replace (Math_pow PInf (Fin 0.5)) with PInf
        by (simpl; rcompare; reflexivity).
      simpl. unfold inf_times. rcompare. reflexivity.
    - simpl. rcompare. f_equal. field. }
  assert (Hval : getValueAtTime gainToDb expramp01 (Fin 0.5) = NaN).
  { unfold getValueAtTime, toSeconds. rewrite Math_max_0_nonneg by lra.
    rewrite Hget, Haft. cbn [is_setTargetAtTime andb is_linearRampToValueAtTime
                             is_exponentialRampToValueAtTime orb time value].
    rewrite Hcurve. reflexivity. }
  assert (Hthrow : exists msg p',
             cancelAndHoldAtTime dbToGain gainToDb (Fin 0.5) expramp01
             = Throw msg p'
             /\ Timeline._timeline (_events p')
                = [NormalAutomationEvent AutomationType.setValueAtTime
                     (Fin 0) (Fin 0)]
             /\ unconverted p').
  { unfold cancelAndHoldAtTime, bind, gets, assert, sink, toSeconds.
    rewrite Hval.
    cbn [isFinite set_param _events].
    rewrite Hget, Haft.
    repeat (simpl; rcompare).
    do 2 eexists. split; [reflexivity |]. split; [| right; reflexivity].
    repeat (simpl; rcompare). reflexivity. }
  split; [apply holding_is_setValueAtTime |].
  split; [apply expramp01_is_exponentialRampToValueAtTime |].
  destruct Hthrow as (msg & p' & Hret & Htl' & Hu).
  split; [exact Hval |]. split; [exists msg, p'; split; assumption |].
  unfold hold_keeps_value. rewrite Hret, Hval. cbn [state_of].
  intros [Hclaim _].
  assert (Hafter : getValueAtTime gainToDb p' (Fin 0.5) = Fin 0).
  { unfold getValueAtTime, Timeline.get, Timeline.getAfter, toSeconds.
    rewrite Htl', Math_max_0_nonneg by lra.
    repeat (simpl; rcompare). now apply unconverted_toType. }
  rewrite Hafter in Hclaim.
  rewrite unconverted_toType, unconverted_fromType in Hclaim
    by (right; reflexivity).
  discriminate Hclaim.
Qed.

(** ** Scenarios of the further properties *)

Lemma holding_ordered (v t : R) : ordered (_events (holding v t)).
Proof. split; repeat constructor. Qed.

Lemma expramp01_floor_kept : floor_kept (_events expramp01).
Proof.
  unfold floor_kept. simpl. rcompare. simpl.
  repeat constructor; intros H; try discriminate H.
  exists 1. split; [reflexivity | lra].
Qed.

(** X1 on the ramp from 0 to 1: a [setValueAtTime] in the middle of the
    ramp and a hold there leave the store in order. *)
Lemma scheduling_keeps_order_scenario :
  ordered (_events (state_of (setValueAtTime dbToGain (Fin 0.25) (Fin 0.5) ramp01)))
  /\ ordered (_events (state_of
                         (cancelAndHoldAtTime dbToGain gainToDb (Fin 0.5) ramp01))).
Proof.
  destruct (scheduling_keeps_order dbToGain gainToDb ramp01 ramp01_ordered)
    as (Hset & _ & _ & _ & _ & Hhold & _).
  split; [apply Hset | apply Hhold].
Defined.

(** X2 on the exponential ramp from 0 to 1: an exponential ramp to zero
    that follows keeps every exponential ramp at or above [1e-7]. *)
Lemma exponential_floor_scenario :
  floor_kept (_events (state_of
                         (exponentialRampTo dbToGain gainToDb (Fin 0) (Fin 1)
                                            (Some (Fin 2)) expramp01))).
Proof.
  destruct (exponential_floor_is_invariant dbToGain gainToDb expramp01
              expramp01_floor_kept)
    as (_ & _ & _ & _ & _ & _ & _ & _ & Hexp & _).
  apply Hexp.
Defined.

(** X3 on a parameter holding 5 from time 1: [setValueAtTime(3, 2)] is read
    back as 3 at time 2 and at time 10. *)
Lemma setValueAtTime_reads_back_scenario :
  exists p',
    setValueAtTime dbToGain (Fin 3) (Fin 2) (holding 5 1) = Ret tt p'
    /\ getValueAtTime gainToDb p' (Fin 2) = Fin 3.
Proof.
  destruct (setValueAtTime_reads_back dbToGain gainToDb (holding 5 1) (Fin 3) 2 3)
    as (p' & Hret & Hval & _).
  - apply holding_ordered.
  - repeat constructor.
  - lra.
  - reflexivity.
  - exists p'. split; [exact Hret | exact Hval].
Defined.

(** X4 on the ramp from 0 to 1: [cancelScheduledValues(0.5)] removes the
    ramp and sends the command on. *)
Lemma cancelScheduledValues_scenario :
  exists p',
    cancelScheduledValues (Fin 0.5) ramp01 = Ret tt p'
    /\ calls (_param p')
       = calls (_param ramp01) ++ [sink_cancelScheduledValues (Fin 0.5)].
Proof.
  destruct (cancelScheduledValues_truncates gainToDb ramp01 0.5)
    as (p' & Hret & _ & Hcalls & _).
  - rewrite ramp01_timeline. repeat constructor.
  - exists p'. split; [exact Hret | exact Hcalls].
Defined.

(** X5 on the ramp from 0 to 1, at the clock 0: the value set is the value
    read. *)
Lemma set_value_scenario :
  exists p',
    set_value dbToGain (Fin 0.7) ramp01 = Ret tt p'
    /\ get_value gainToDb p' = Fin 0.7.
Proof.
  destruct (set_value_reads_back dbToGain gainToDb ramp01 (Fin 0.7) 0 0.7)
    as (p' & Hret & Hval & _).
  - rewrite ramp01_timeline. repeat constructor.
  - reflexivity.
  - reflexivity.
  - exists p'. split; [exact Hret | exact Hval].
Defined.

(** X6 on the ramp from 0 to 1: setting NaN throws, and the initial value
    is NaN afterwards. *)
Lemma set_value_failure_scenario :
  exists msg p',
    set_value dbToGain NaN ramp01 = Throw msg p'
    /\ _initialValue p' = NaN.
Proof.
  destruct (set_value_failure_is_not_atomic dbToGain ramp01 NaN 0)
    as (msg & p' & Hret & Hinit & _).
  - rewrite ramp01_timeline. repeat constructor.
  - reflexivity.
  - reflexivity.
  - exists msg, p'. split; [exact Hret | exact Hinit].
Defined.

(** X7 on a parameter of plain numbers of default 0 built with the value
    440: the value read is 440. *)
Lemma constructor_scenario :
  exists p',
    constructor dbToGain gainToDb (Fin 0) (Fin (1 / 44100))
                (mkAudioParam (Fin 0) []) UnitName.number true (Some (Fin 440))
    = Ret tt p'
    /\ getValueAtTime gainToDb p' (Fin 3) = Fin 440.
Proof.
  destruct (constructor_reads_value dbToGain gainToDb (Fin 0) (Fin (1 / 44100))
              (mkAudioParam (Fin 0) []) UnitName.number true)
    as (_ & _ & Hset & _).
  destruct (Hset (Fin 440) 440) as (p' & Hret & Hval).
  - simpl. apply Req_b_false. lra.
  - reflexivity.
  - exists p'. split; [exact Hret | apply Hval].
Defined.

(** X8 on the new parameter: the exponential ramp from 1 at time 0 to 4 at
    time 2 starts at 1 and ends at 4. *)
Lemma exponential_ramp_scenario :
  exists p',
    (setValueAtTime dbToGain (Fin 1) (Fin 0) ;;
     exponentialRampToValueAtTime dbToGain (Fin 4) (Fin 2)) fresh = Ret tt p'
    /\ getValueAtTime gainToDb p' (Fin 0) = Fin 1
    /\ getValueAtTime gainToDb p' (Fin 2) = Fin 4.
Proof.
  destruct (exponential_ramp_exact dbToGain gainToDb fresh 1 0 4 2)
    as (p' & Hret & _ & _ & H0 & H1 & _).
  - exact fresh_unconverted.
  - simpl. lia.
  - constructor.
  - lra.
  - lra.
  - lra.
  - exists p'. split; [exact Hret |]. split; [exact H0 |].
    rewrite H1. f_equal. apply Rmax_right. lra.
Defined.



(** X11 on the target approach recorded at time 1, followed by a linear ramp
    to 2 at time 3: at time 2 the value is on the line from the initial
    value. *)
Lemma ramp_after_target_scenario :
  getValueAtTime gainToDb
    (record (NormalAutomationEvent AutomationType.linearRampToValueAtTime
                                   (Fin 3) (Fin 2))
            (sink_linearRampToValueAtTime (Fin 2) (Fin 3)) target1)
    (Fin 2)
  = Fin (0 + (2 - 0) * (2 - 1) / (3 - 1)).
Proof.
  destruct (ramp_after_target_ignores_target gainToDb
              (record (NormalAutomationEvent
                         AutomationType.linearRampToValueAtTime (Fin 3) (Fin 2))
                      (sink_linearRampToValueAtTime (Fin 2) (Fin 3)) target1)
              2 1 3 0 2 (Fin 1) (Fin 0.5))
    as [Hlin _].
  - lra.
  - unfold Timeline.get. repeat (simpl; rcompare). reflexivity.
  - unfold Timeline.getBefore. repeat (simpl; rcompare). reflexivity.
  - apply Hlin. unfold Timeline.getAfter. repeat (simpl; rcompare). reflexivity.
Defined.

Lemma holding_value_later (v t q : R) :
  0 <= t -> t <= q -> getValueAtTime gainToDb (holding v t) (Fin q) = Fin v.
Proof.
  intros Ht Hq. unfold getValueAtTime, Timeline.get, Timeline.getAfter, toSeconds.
  rewrite Math_max_0_nonneg by lra. simpl.
  rewrite Rle_b_true, Rlt_b_false by lra. reflexivity.
Qed.

(** X12 on a parameter holding 5 from time 1: [linearRampTo(1, 1, 2)] is at
    3 half way and at 1 from time 3 on. *)
Lemma linearRampTo_scenario :
  exists p',
    linearRampTo dbToGain gainToDb (Fin 1) (Fin 1) (Some (Fin 2)) (holding 5 1)
    = Ret tt p'
    /\ getValueAtTime gainToDb p' (Fin 2.5) = Fin 3
    /\ getValueAtTime gainToDb p' (Fin 4) = Fin 1.
Proof.
  destruct (linearRampTo_ramps dbToGain gainToDb (holding 5 1) (Fin 1) 2 1 5 1)
    as (p' & Hret & _ & Hin & Hout & _).
  - apply holding_ordered.
  - intros H. rewrite reanchors_none_after in H; [discriminate H |].
    repeat constructor. simpl. apply Rle_b_true. lra.
  - unfold held_value. rewrite holding_value_later by lra. reflexivity.
  - lra.
  - reflexivity.
  - lra.
  - lra.
  - simpl. lia.
  - exists p'. split; [exact Hret |]. split.
    + rewrite Hin by lra. change (_toType gainToDb (holding 5 1) ?x) with x.
      f_equal. lra.
    + rewrite Hout by lra. reflexivity.
Defined.

(** X13 on the new parameter, whose value is zero: [exponentialRampTo(1, 1,
    0)] starts from [1e-7] and is at 1 from time 1 on. *)
Lemma exponentialRampTo_scenario :
  exists p',
    exponentialRampTo dbToGain gainToDb (Fin 1) (Fin 1) (Some (Fin 0)) fresh
    = Ret tt p'
    /\ getValueAtTime gainToDb p' (Fin 2) = Fin 1.
Proof.
  destruct (exponentialRampTo_ramps dbToGain gainToDb fresh 1 0 1 0)
    as (p' & Hret & _ & Hout & _).
  - exact fresh_unconverted.
  - exact fresh_ordered.
  - reflexivity.
  - lra.
  - lra.
  - lra.
  - simpl. lia.
  - exists p'. split; [exact Hret |].
    rewrite Hout by lra. f_equal. apply Rmax_right. lra.
Defined.

(** X14 on a frequency parameter of value 440: [rampTo(880, 1, 0)] ramps
    exponentially and is at 880 at time 1. *)
Lemma rampTo_scenario :
  exists p',
    rampTo dbToGain gainToDb (Fin 880) (Fin 1) (Some (Fin 0))
           (initial (Fin 0) (Fin (1 / 44100)) (mkAudioParam (Fin 440) [])
                    UnitName.frequency true)
    = Ret tt p'
    /\ getValueAtTime gainToDb p' (Fin 1) = Fin 880.
Proof.
  destruct (rampTo_arrives dbToGain gainToDb
              (initial (Fin 0) (Fin (1 / 44100)) (mkAudioParam (Fin 440) [])
                       UnitName.frequency true)
              (Fin 880) 0 1 880)
    as (p' & Hret & Hval & _).
  - split; constructor.
  - intros H. rewrite reanchors_none_after in H by constructor. discriminate H.
  - unfold ramp_point_value. simpl. rewrite Req_b_false by lra. reflexivity.
  - lra.
  - simpl. rewrite Rlt_b_true by lra. reflexivity.
  - exists p'. split; [exact Hret |]. rewrite Hval; [reflexivity |].
    unfold Rmax. destruct (Rle_dec 1 0); lra.
Defined.

(** X15 on the new parameter: [targetRampTo(1, 1, 0)] is at 1 from time 1
    on. *)
Lemma targetRampTo_scenario :
  exists p',
    targetRampTo dbToGain gainToDb (Fin 1) (Fin 1) (Some (Fin 0)) fresh
    = Ret tt p'
    /\ getValueAtTime gainToDb p' (Fin 1) = Fin 1.
Proof.
  destruct (targetRampTo_arrives dbToGain gainToDb fresh (Fin 1) 0 1 1)
    as (p' & Hret & Hval & _).
  - exact fresh_ordered.
  - intros H. rewrite reanchors_none_after in H by constructor. discriminate H.
  - unfold ramp_point_value. rewrite fresh_value.
    change (_fromType dbToGain fresh (Fin 0)) with (Fin 0).
    simpl (Fin 0 === Fin 0)%num. rewrite Req_b_true by reflexivity.
    reflexivity.
  - lra.
  - reflexivity.
  - exists p'. split; [exact Hret |]. rewrite Hval; [reflexivity |].
    unfold Rmax. destruct (Rle_dec 1 0); lra.
Defined.

(** X16 on a normalRange parameter: 2 is stored as a number of the range,
    and 0.5 as it is. *)
Lemma fromType_clamps_scenario :
  let p := initial (Fin 0) (Fin (1 / 44100)) (mkAudioParam (Fin 0) [])
                   UnitName.normalRange true in
  (Fin 0 <=? _fromType dbToGain p (Fin 2))%num = true
  /\ (_fromType dbToGain p (Fin 2) <=? Fin 1)%num = true.
Proof.
  intros p.
  destruct (fromType_clamps_to_range dbToGain p (Fin 2) (Fin (- 3)) (Fin 3))
    as [Hrange _].
  - reflexivity.
  - reflexivity.
  - discriminate.
  - destruct (Hrange (or_introl eq_refl)) as (Hlo & Hhi & _).
    split; [exact Hlo | exact Hhi].
Defined.

(** X17 on the new parameter: the curve through 0, 1 and 0 over two seconds
    is 0 from time 2 on. *)
Lemma value_curve_piecewise_scenario :
  exists p',
    setValueCurveAtTime dbToGain gainToDb [Fin 0; Fin 1; Fin 0]
                        (Fin 0) (Fin 2) (Fin 1) fresh = Ret tt p'
    /\ getValueAtTime gainToDb p' (Fin 5) = Fin 0.
Proof.
  destruct (value_curve_is_piecewise_linear dbToGain gainToDb fresh
              [Fin 0; Fin 1; Fin 0] 0 2 (Fin 1))
    as (p' & Hret & _ & _ & Hafter).
  - simpl. lia.
  - repeat constructor.
  - constructor.
  - simpl. lia.
  - lra.
  - lra.
  - exists p'. split; [exact Hret |]. rewrite Hafter by lra.
    cbn [length Nat.sub nth]. unfold curve_raw.
    rewrite !unconverted_fromType, !unconverted_toType by exact fresh_unconverted.
    simpl. f_equal. lra.
Defined.

(** X18 on the new parameter: an empty curve throws. *)
Lemma value_curve_empty_scenario :
  exists msg,
    setValueCurveAtTime dbToGain gainToDb [] (Fin 0) (Fin 1) (Fin 1) fresh
    = Throw msg fresh.
Proof.
  destruct (value_curve_short_arrays dbToGain gainToDb fresh 0 1 (Fin 1))
    as [Hempty _].
  apply Hempty. exact fresh_unconverted.
Defined.

(** X19 on the new parameter: the ramp from 0 to 1 held at 0.5 is at 0.25
    at time 0.25 and at 0.5 at time 2. *)
Lemma hold_inside_linear_ramp_scenario :
  exists p',
    (setValueAtTime dbToGain (Fin 0) (Fin 0) ;;
     linearRampToValueAtTime dbToGain (Fin 1) (Fin 1) ;;
     cancelAndHoldAtTime dbToGain gainToDb (Fin 0.5)) fresh = Ret tt p'
    /\ getValueAtTime gainToDb p' (Fin 0.25) = Fin 0.25
    /\ getValueAtTime gainToDb p' (Fin 2) = Fin 0.5.
Proof.
  destruct (hold_inside_linear_ramp dbToGain gainToDb fresh 0 0 1 1 0.5)
    as (p' & Hret & Hin & Hout).
  - exact fresh_unconverted.
  - simpl. lia.
  - constructor.
  - lra.
  - lra.
  - exists p'. split; [exact Hret |]. split.
    + rewrite Hin by lra. f_equal. lra.
    + rewrite Hout by lra. f_equal. lra.
Defined.
